(** * Mounjaro Tracker: the entry store, the free-text importer and the
      trend calculator, embedded and verified

    The development follows the JavaScript sources:
    - [DataManager] (src/unnamed/part_001, the application's data.js): the
      in-memory entry list and its mirror in [localStorage];
    - [ImportManager] (src/js/utils.js from line 427 on, the application's
      import.js): the free-text parser [parseTextData], the JSON import and
      the hand-over of the preview to the store;
    - [ChartRenderer] (src/js/charts.js): the least-squares trend line, the
      trend statistic of the legend and the paginated view;
    - [Utils] (src/js/utils.js): the colour helpers;
    - [MounjaroTracker] (src/js/app.js): the handler of the daily form.

    JavaScript numbers are IEEE 754 binary64 values; they are modelled by
    [spec_float] with the operations of [SpecFloat] at precision 53 and
    maximal exponent 1024, which compute inside Rocq.  Strings are modelled
    by [string] (sequences of 8-bit code units, enough for the ASCII text the
    application reads and writes). *)

From Stdlib Require Import ZArith List Bool Ascii String Lia Sorted Permutation.
From Stdlib Require Import Floats.
From Stdlib Require DecimalString.
From stdpp Require Import gmap strings.
Import ListNotations.

Local Open Scope string_scope.
Local Open Scope Z_scope.

(** ** The host language: numbers, strings and primitive values *)

Module JS.

(** *** Numbers *)

Definition number := spec_float.

Definition NaN : number := S754_nan.
Definition Infinity : number := S754_infinity false.
Definition zero : number := S754_zero false.

Definition add (x y : number) : number := SFadd prec emax x y.
Definition sub (x y : number) : number := SFsub prec emax x y.
Definition mul (x y : number) : number := SFmul prec emax x y.
Definition div (x y : number) : number := SFdiv prec emax x y.
Definition neg (x : number) : number := SFopp x.

(** [x < y], [x > y] and [x === y] on numbers: false whenever an operand is
    [NaN]; the two zeros are equal. *)
Definition lt (x y : number) : bool := SFltb x y.
Definition gt (x y : number) : bool := SFltb y x.
Definition eqb (x y : number) : bool := SFeqb x y.
Definition le (x y : number) : bool := SFleb x y.

Definition isNaN (x : number) : bool :=
  match x with S754_nan => true | _ => false end.

Definition isFinite (x : number) : bool :=
  match x with S754_zero _ | S754_finite _ _ _ => true | _ => false end.

(** The Number value of a mathematical integer (round to nearest, ties to
    even), as for an array length or an integer literal. *)
Definition of_Z (z : Z) : number := binary_normalize prec emax z 0 false.

Definition of_nat (n : nat) : number := of_Z (Z.of_nat n).

(** The Number value of [m / 10^k] for [m > 0], correctly rounded: the
    quotient of the two integers with the position of the remainder, then
    one rounding. *)
Definition of_quotient (s : bool) (m d : Z) : number :=
  let '(q, e, l) := SFdiv_core_binary prec emax m 0 d 0 in
  binary_round_aux prec emax s q e l.

(** The Number value of the decimal [m * 10^e], [m >= 0], with sign [s]. *)
Definition of_decimal (s : bool) (m e : Z) : number :=
  if m =? 0 then S754_zero s
  else if 0 <=? e then
    (if s then neg (of_Z (m * 10 ^ e)) else of_Z (m * 10 ^ e))
  else of_quotient s m (10 ^ (- e)).

(** The exact value of a positive finite number as a fraction. *)
Definition exact_fraction (m : positive) (e : Z) : Z * Z :=
  if 0 <=? e then (Zpos m * 2 ^ e, 1) else (Zpos m, 2 ^ (- e)).

(** *** Characters and strings *)

Definition code (c : ascii) : N := N_of_ascii c.

Definition isDigit (c : ascii) : bool :=
  ((48 <=? code c) && (code c <=? 57))%N.

Definition digitValue (c : ascii) : Z := Z.of_N (code c) - 48.

(** White space and line terminators of the 8-bit range: TAB, LF, VT, FF,
    CR, SP and NBSP. *)
Definition isWhiteSpace (c : ascii) : bool :=
  let n := code c in
  ((n =? 9) || (n =? 10) || (n =? 11) || (n =? 12) || (n =? 13)
   || (n =? 32) || (n =? 160))%N.

Definition toLowerAscii (c : ascii) : ascii :=
  let n := code c in
  if ((65 <=? n) && (n <=? 90))%N then ascii_of_N (n + 32) else c.

Definition chars (s : string) : list ascii := list_ascii_of_string s.
Definition str (l : list ascii) : string := string_of_list_ascii l.

Fixpoint dropWhile {A} (p : A -> bool) (l : list A) : list A :=
  match l with
  | [] => []
  | x :: l' => if p x then dropWhile p l' else l
  end.

Fixpoint takeWhile {A} (p : A -> bool) (l : list A) : list A :=
  match l with
  | [] => []
  | x :: l' => if p x then x :: takeWhile p l' else []
  end.

(** [String.prototype.trim] *)
Definition trimChars (l : list ascii) : list ascii :=
  rev (dropWhile isWhiteSpace (rev (dropWhile isWhiteSpace l))).

Definition trim (s : string) : string := str (trimChars (chars s)).

(** [s.split(sep)] for a one-character separator: never empty. *)
Fixpoint splitChars (sep : ascii) (l : list ascii) : list (list ascii) :=
  match l with
  | [] => [[]]
  | c :: l' =>
      if Ascii.eqb c sep then [] :: splitChars sep l'
      else match splitChars sep l' with
           | [] => [[c]]
           | w :: ws => (c :: w) :: ws
           end
  end.

Definition split (sep : ascii) (s : string) : list string :=
  List.map str (splitChars sep (chars s)).

(** [s.replace(a, b)] for one-character [a] and [b]: the first occurrence
    only. *)
Fixpoint replaceFirst (a b : ascii) (l : list ascii) : list ascii :=
  match l with
  | [] => []
  | c :: l' => if Ascii.eqb c a then b :: l' else c :: replaceFirst a b l'
  end.

Fixpoint digitsValue (acc : Z) (l : list ascii) : Z :=
  match l with
  | [] => acc
  | c :: l' => digitsValue (10 * acc + digitValue c) l'
  end.

Fixpoint isPrefix (p l : list ascii) : bool :=
  match p, l with
  | [], _ => true
  | _ :: _, [] => false
  | a :: p', b :: l' => Ascii.eqb a b && isPrefix p' l'
  end.

(** *** [parseFloat] and [parseInt] *)

(** The exponent part of a decimal literal: [e] or [E], an optional sign
    and at least one digit; [0] when the text has none. *)
Definition exponentPart (l : list ascii) : Z :=
  match l with
  | c :: r =>
      if Ascii.eqb (toLowerAscii c) "e"%char then
        let '(sg, r) :=
          match r with
          | "-"%char :: r' => (true, r')
          | "+"%char :: r' => (false, r')
          | _ => (false, r)
          end in
        match takeWhile isDigit r with
        | [] => 0
        | ds => if sg then - digitsValue 0 ds else digitsValue 0 ds
        end
      else 0
  | [] => 0
  end.

(** [parseFloat]: leading white space is skipped and the longest prefix that
    is a decimal literal is converted, correctly rounded; [NaN] when there is
    no such prefix. *)
Definition parseFloatChars (l : list ascii) : number :=
  let l := dropWhile isWhiteSpace l in
  let '(sg, l) :=
    match l with
    | "-"%char :: l' => (true, l')
    | "+"%char :: l' => (false, l')
    | _ => (false, l)
    end in
  if isPrefix (chars "Infinity") l then S754_infinity sg
  else
    let ip := takeWhile isDigit l in
    let r := dropWhile isDigit l in
    let '(fp, r) :=
      match r with
      | "."%char :: r' => (takeWhile isDigit r', dropWhile isDigit r')
      | _ => ([], r)
      end in
    match (ip ++ fp)%list with
    | [] => NaN
    | ds => of_decimal sg (digitsValue 0 ds) (exponentPart r - Z.of_nat (length fp))
    end.

Definition parseFloat (s : string) : number := parseFloatChars (chars s).

Definition hexValue (c : ascii) : option Z :=
  let n := code (toLowerAscii c) in
  if isDigit c then Some (digitValue c)
  else if ((97 <=? n) && (n <=? 102))%N then Some (Z.of_N n - 87)
  else None.

Fixpoint hexDigits (acc : option Z) (l : list ascii) : option Z :=
  match l with
  | [] => acc
  | c :: l' =>
      match hexValue c with
      | Some d => hexDigits (Some (16 * default 0 acc + d)) l'
      | None => acc
      end
  end.

(** [parseInt(s)] without a radix: white space, a sign, then decimal digits,
    or hexadecimal digits after [0x]; the result is the mathematical integer
    read, [None] standing for [NaN].  (The Number it denotes is that integer
    rounded; the callers below only use it where the rounding is exact or
    where the date built from it is invalid either way.) *)
Definition parseInt (s : string) : option Z :=
  let l := dropWhile isWhiteSpace (chars s) in
  let '(sg, l) :=
    match l with
    | "-"%char :: l' => (true, l')
    | "+"%char :: l' => (false, l')
    | _ => (false, l)
    end in
  let v :=
    match l with
    | "0"%char :: x :: l' =>
        if Ascii.eqb (toLowerAscii x) "x"%char then hexDigits None l'
        else Some (digitsValue 0 (takeWhile isDigit l))
    | _ =>
        match takeWhile isDigit l with
        | [] => None
        | ds => Some (digitsValue 0 ds)
        end
    end in
  option_map (fun z => if sg then - z else z) v.

(** *** Number to string *)

Definition decimalDigits (z : Z) : string :=
  DecimalString.NilZero.string_of_uint (N.to_uint (Z.to_N z)).

(** [num / den < 10^n] *)
Definition below_pow10 (num den n : Z) : bool :=
  if 0 <=? n then num <? den * 10 ^ n else num * 10 ^ (- n) <? den.

(** The least [n >= n0] with [num / den < 10^n]. *)
Fixpoint magnitude (fuel : nat) (num den n0 : Z) : Z :=
  match fuel with
  | O => n0
  | S fuel' =>
      if below_pow10 num den n0 then n0 else magnitude fuel' num den (n0 + 1)
  end.

(** The shortest digit string [s] of [k] digits, [k] counted upwards,
    such that [s * 10^(n-k)] reads back as [v]; of two candidates the one
    closer to [v], the even one on a tie. *)
Fixpoint shortestDigits (fuel : nat) (v : number) (num den n k : Z)
  : Z * Z * Z :=
  match fuel with
  | O => (0, k, n)
  | S fuel' =>
      let '(sn, sd) :=
        if 0 <=? k - n then (num * 10 ^ (k - n), den)
        else (num, den * 10 ^ (n - k)) in
      let lo := sn / sd in
      let hi := lo + 1 in
      let okLo := (10 ^ (k - 1) <=? lo) && eqb (of_decimal false lo (n - k)) v in
      let okHi := eqb (of_decimal false hi (n - k)) v in
      let r := sn - lo * sd in
      let pick s := if s =? 10 ^ k then (10 ^ (k - 1), k, n + 1) else (s, k, n) in
      match okLo, okHi with
      | true, true =>
          if 2 * r <? sd then pick lo
          else if sd <? 2 * r then pick hi
          else if Z.even lo then pick lo else pick hi
      | true, false => pick lo
      | false, true => pick hi
      | false, false => shortestDigits fuel' v num den n (k + 1)
      end
  end.

Definition zeros (n : Z) : string := str (repeat "0"%char (Z.to_nat n)).

Definition takeStr (n : Z) (s : string) : string :=
  str (firstn (Z.to_nat n) (chars s)).
Definition dropStr (n : Z) (s : string) : string :=
  str (skipn (Z.to_nat n) (chars s)).

(** A lower bound of the decimal magnitude of [num / den], from the binary
    lengths: [log2 (num / den) >= l], and [30102 / 100000 < log10 2 <
    30103 / 100000]. *)
Definition magnitudeEstimate (num den : Z) : Z :=
  let l := Z.log2 num - Z.log2 den - 1 in
  if 0 <=? l then l * 30102 / 100000 else l * 30103 / 100000.

(** [Number::toString] in radix 10 for a positive finite number. *)
Definition positiveToString (m : positive) (e : Z) : string :=
  let '(num, den) := exact_fraction m e in
  let n0 := magnitude 8 num den (magnitudeEstimate num den) in
  let '(s, k, n) := shortestDigits 17 (S754_finite false m e) num den n0 1 in
  let ds := decimalDigits s in
  if (k <=? n) && (n <=? 21) then ds ++ zeros (n - k)
  else if (0 <? n) && (n <=? 21) then takeStr n ds ++ "." ++ dropStr n ds
  else if (-6 <? n) && (n <=? 0) then "0." ++ zeros (- n) ++ ds
  else
    let x := n - 1 in
    let sg := if x <? 0 then "-" else "+" in
    if k =? 1 then ds ++ "e" ++ sg ++ decimalDigits (Z.abs x)
    else takeStr 1 ds ++ "." ++ dropStr 1 ds ++ "e" ++ sg ++ decimalDigits (Z.abs x).

Definition Number_toString (x : number) : string :=
  match x with
  | S754_nan => "NaN"
  | S754_zero _ => "0"
  | S754_infinity s => if s then "-Infinity" else "Infinity"
  | S754_finite s m e =>
      if s then "-" ++ positiveToString m e else positiveToString m e
  end.

(** *** Primitive values *)

Inductive value :=
| Undefined
| Null
| Bool (b : bool)
| Num (n : number)
| Str (s : string).

(** [ToBoolean] *)
Definition truthy (v : value) : bool :=
  match v with
  | Undefined | Null => false
  | Bool b => b
  | Num (S754_nan) | Num (S754_zero _) => false
  | Num _ => true
  | Str s => negb (String.eqb s "")
  end.

(** [a || b] *)
Definition or_else (a b : value) : value := if truthy a then a else b.

(** [a === b] *)
Definition strict_eq (a b : value) : bool :=
  match a, b with
  | Undefined, Undefined => true
  | Null, Null => true
  | Bool x, Bool y => Bool.eqb x y
  | Num x, Num y => eqb x y
  | Str x, Str y => String.eqb x y
  | _, _ => false
  end.

(** [ToString], as in a template literal *)
Definition ToString (v : value) : string :=
  match v with
  | Undefined => "undefined"
  | Null => "null"
  | Bool b => if b then "true" else "false"
  | Num n => Number_toString n
  | Str s => s
  end.

(** What [JSON.parse (JSON.stringify v)] gives for a property value: a
    number that is not finite is written [null], the negative zero is
    written [0]; a property that is [undefined] is left out and reads back
    [undefined]. *)
Definition JSON_value (v : value) : value :=
  match v with
  | Num (S754_nan) | Num (S754_infinity _) => Null
  | Num (S754_zero _) => Num zero
  | _ => v
  end.

(** *** [Math.floor], array slices, radix 16 *)

(** [Math.floor]: a number of exponent [e >= 0] is an integer; otherwise the
    integer part [q] of [m / 2^-e] is taken, one more in absolute value for
    a negative number that is not an integer. *)
Definition floor (x : number) : number :=
  match x with
  | S754_finite s m e =>
      if 0 <=? e then x
      else
        let q := Z.shiftr (Zpos m) (- e) in
        if s then neg (of_Z (if Z.shiftl q (- e) =? Zpos m then q else q + 1))
        else of_Z q
  | _ => x
  end.

(** [Math.ceil]: the opposite of the floor of the opposite, signed zeros
    included. *)
Definition ceil (x : number) : number := neg (floor (neg x)).

(** [Math.min] and [Math.max] of two numbers: [NaN] if one of them is; the
    negative zero is below the positive one. *)
Definition min2 (x y : number) : number :=
  if isNaN x || isNaN y then NaN
  else if lt y x then y
  else if lt x y then x
  else match y with S754_zero true => y | _ => x end.

Definition max2 (x y : number) : number :=
  if isNaN x || isNaN y then NaN
  else if lt x y then y
  else if lt y x then x
  else match y with S754_zero false => y | _ => x end.

(** [Math.min(...a)] and [Math.max(...a)] *)
Definition Math_min (a : list number) : number := fold_left min2 a Infinity.
Definition Math_max (a : list number) : number := fold_left max2 a (neg Infinity).

(** [ToIntegerOrInfinity] of a finite number: the fraction is dropped. *)
Definition truncate (x : number) : option Z :=
  match x with
  | S754_zero _ => Some 0
  | S754_finite s m e =>
      let a := if 0 <=? e then Z.shiftl (Zpos m) e else Z.shiftr (Zpos m) (- e) in
      Some (if s then - a else a)
  | _ => None
  end.

(** [Array.prototype.slice(start, end)]: a negative index counts from the
    end, both are confined to the array. *)
Definition slice {A} (start final : Z) (l : list A) : list A :=
  let len := Z.of_nat (length l) in
  let k := if start <? 0 then Z.max (len + start) 0 else Z.min start len in
  let final := if final <? 0 then Z.max (len + final) 0 else Z.min final len in
  firstn (Z.to_nat (final - k)) (skipn (Z.to_nat k) l).

(** [ToInt32] and [x << n] on integers. *)
Definition ToInt32 (z : Z) : Z :=
  let m := z mod 2 ^ 32 in
  if m <? 2 ^ 31 then m else m - 2 ^ 32.

Definition shiftLeft (x n : Z) : Z := ToInt32 (Z.shiftl (ToInt32 x) (n mod 32)).

(** The digit of value [d] in radix 16, in lower case. *)
Definition hexDigitChar (d : Z) : ascii :=
  ascii_of_N (Z.to_N (if d <? 10 then 48 + d else 87 + d)).

(** The radix 16 digits of [z >= 0] in front of [acc]. *)
Fixpoint hexChars (fuel : nat) (z : Z) (acc : list ascii) : list ascii :=
  match fuel with
  | O => acc
  | S fuel' =>
      let acc := hexDigitChar (z mod 16) :: acc in
      if z <? 16 then acc else hexChars fuel' (z / 16) acc
  end.

(** [z.toString(16)] for an integer [z]. *)
Definition toString16 (z : Z) : string :=
  let digits a := str (hexChars (S (Z.to_nat (Z.log2 a))) a []) in
  if z <? 0 then "-" ++ digits (- z) else digits z.

(** [parseInt(s, 16)] *)
Definition parseInt16 (s : string) : option Z :=
  let l := dropWhile isWhiteSpace (chars s) in
  let '(sg, l) :=
    match l with
    | "-"%char :: l' => (true, l')
    | "+"%char :: l' => (false, l')
    | _ => (false, l)
    end in
  let l :=
    match l with
    | "0"%char :: x :: l' => if Ascii.eqb (toLowerAscii x) "x"%char then l' else l
    | _ => l
    end in
  option_map (fun z => if sg then - z else z) (hexDigits None l).

End JS.

(** ** Dates *)

Module JSDate.

Definition msPerDay : Z := 86400000.

(** Day number (days since 1970-01-01) of a day of the proleptic Gregorian
    calendar, [m] in 1..12. *)
Definition daysFromCivil (y m d : Z) : Z :=
  let y := if m <=? 2 then y - 1 else y in
  let era := y / 400 in
  let yoe := y - era * 400 in
  let doy := (153 * (if 2 <? m then m - 3 else m + 9) + 2) / 5 + d - 1 in
  let doe := yoe * 365 + yoe / 4 - yoe / 100 + doy in
  era * 146097 + doe - 719468.

(** Year, month (1..12) and day of the month of a day number. *)
Definition civilFromDays (z : Z) : Z * Z * Z :=
  let z := z + 719468 in
  let era := z / 146097 in
  let doe := z - era * 146097 in
  let yoe := (doe - doe / 1460 + doe / 36524 - doe / 146096) / 365 in
  let doy := doe - (365 * yoe + yoe / 4 - yoe / 100) in
  let mp := (5 * doy + 2) / 153 in
  let d := doy - (153 * mp + 2) / 5 + 1 in
  let m := if mp <? 10 then mp + 3 else mp - 9 in
  ((yoe + era * 400) + (if m <=? 2 then 1 else 0), m, d).

(** [MakeDay (year, month, date)] with [month] counted from 0; months and
    days out of range carry over. *)
Definition MakeDay (year month dt : Z) : Z :=
  daysFromCivil (year + month / 12) (month mod 12 + 1) 1 + dt - 1.

Definition MakeTime (hour min sec ms : Z) : Z :=
  hour * 3600000 + min * 60000 + sec * 1000 + ms.

Definition MakeDate (day time : Z) : Z := day * msPerDay + time.

(** A time value is an integer number of milliseconds of absolute value at
    most 8.64e15, [None] standing for [NaN] (an invalid date). *)
Definition TimeClip (t : Z) : option Z :=
  if Z.abs t <=? 8640000000000000 then Some t else None.

(** [isNaN(date.getTime())] *)
Definition isNaN (t : option Z) : bool :=
  match t with None => true | Some _ => false end.

(** Local time to UTC.  The host's time zone enters as [tz], the number of
    minutes [Date.prototype.getTimezoneOffset] returns (UTC minus local
    time: 180 in Brasilia, -780 in Auckland in summer). *)
Definition UTC (tz : Z) (t : Z) : Z := t + tz * 60000.

(** [new Date(year, month, day, hours, minutes)]: the fields are read in
    local time; a year from 0 to 99 counts from 1900. *)
Definition newDate (tz : Z) (year : option Z) (month day hours minutes : Z)
  : option Z :=
  match year with
  | None => None
  | Some y =>
      let yr := if (0 <=? y) && (y <=? 99) then 1900 + y else y in
      TimeClip (UTC tz (MakeDate (MakeDay yr month day) (MakeTime hours minutes 0 0)))
  end.

Definition pad (width : nat) (z : Z) : string :=
  let ds := JS.decimalDigits z in
  JS.str (repeat "0"%char (width - String.length ds)) ++ ds.

(** The text of [toISOString] for a valid time value. *)
Definition isoString (t : Z) : string :=
  let day := t / msPerDay in
  let ms := t mod msPerDay in
  let '(y, m, d) := civilFromDays day in
  let year :=
    if (0 <=? y) && (y <=? 9999) then pad 4 y
    else (if y <? 0 then "-" else "+") ++ pad 6 (Z.abs y) in
  year ++ "-" ++ pad 2 m ++ "-" ++ pad 2 d ++ "T"
    ++ pad 2 (ms / 3600000) ++ ":" ++ pad 2 (ms / 60000 mod 60) ++ ":"
    ++ pad 2 (ms / 1000 mod 60) ++ "." ++ pad 3 (ms mod 1000) ++ "Z".

(** [date.toISOString()]: [None] is the [RangeError] thrown for an invalid
    date. *)
Definition toISOString (t : option Z) : option string :=
  option_map isoString t.

Definition daysInMonth (y m : Z) : Z :=
  daysFromCivil (y + m / 12) (m mod 12 + 1) 1 - daysFromCivil y m 1.

Definition twoDigits (a b : ascii) : option Z :=
  if JS.isDigit a && JS.isDigit b then Some (JS.digitsValue 0 [a; b]) else None.

(** An instance of the host's [Date.parse], for the examples: it reads the
    date-time form [YYYY-MM-DDTHH:mm] that the application writes (the value
    of a [datetime-local] field and the first 16 characters of
    [toISOString]) as a local time, and no other text. *)
Definition parseLocal (tz : Z) (s : string) : option Z :=
  match JS.chars s with
  | [y1; y2; y3; y4; m0; mo1; mo2; m1; d1; d2; t; h1; h2; c; mi1; mi2] =>
      if Ascii.eqb m0 "-"%char && Ascii.eqb m1 "-"%char
         && Ascii.eqb t "T"%char && Ascii.eqb c ":"%char
         && forallb JS.isDigit [y1; y2; y3; y4]
      then
        match twoDigits mo1 mo2, twoDigits d1 d2, twoDigits h1 h2, twoDigits mi1 mi2 with
        | Some mo, Some d, Some h, Some mi =>
            let y := JS.digitsValue 0 [y1; y2; y3; y4] in
            if (1 <=? mo) && (mo <=? 12) && (1 <=? d) && (d <=? daysInMonth y mo)
               && (h <=? 23) && (mi <=? 59)
            then TimeClip (UTC tz (MakeDate (MakeDay y (mo - 1) d) (MakeTime h mi 0 0)))
            else None
        | _, _, _, _ => None
        end
      else None
  | _ => None
  end.

(** The text of [toISOString] for a year from 0 to 9999,
    [YYYY-MM-DDTHH:mm:ss.sssZ], read as the UTC time it denotes. *)
Definition parseUTC (s : string) : option Z :=
  match JS.chars s with
  | [y1; y2; y3; y4; m0; mo1; mo2; m1; d1; d2; t; h1; h2; c1; mi1; mi2; c2; s1; s2;
     dot; f1; f2; f3; z] =>
      if Ascii.eqb m0 "-"%char && Ascii.eqb m1 "-"%char
         && Ascii.eqb t "T"%char && Ascii.eqb c1 ":"%char && Ascii.eqb c2 ":"%char
         && Ascii.eqb dot "."%char && Ascii.eqb z "Z"%char
         && forallb JS.isDigit [y1; y2; y3; y4; f1; f2; f3]
      then
        match twoDigits mo1 mo2, twoDigits d1 d2, twoDigits h1 h2, twoDigits mi1 mi2,
              twoDigits s1 s2 with
        | Some mo, Some d, Some h, Some mi, Some sec =>
            let y := JS.digitsValue 0 [y1; y2; y3; y4] in
            if (1 <=? mo) && (mo <=? 12) && (1 <=? d) && (d <=? daysInMonth y mo)
               && (h <=? 23) && (mi <=? 59) && (sec <=? 59)
            then TimeClip (MakeDate (MakeDay y (mo - 1) d)
                                    (MakeTime h mi sec (JS.digitsValue 0 [f1; f2; f3])))
            else None
        | _, _, _, _, _ => None
        end
      else None
  | _ => None
  end.

(** An instance of the host's [Date.parse] that reads both forms. *)
Definition parseEither (tz : Z) (s : string) : option Z :=
  match parseLocal tz s with
  | Some t => Some t
  | None => parseUTC s
  end.

(** [new Date(v)] for a primitive value [v]: a string is parsed by the
    host's [Date_parse]; any other value is converted to a number of
    milliseconds, of which the integer part is taken ([null] is 0,
    [true] is 1, [undefined] is [NaN]). *)
Definition newDateOf (Date_parse : string -> option Z) (v : JS.value) : option Z :=
  match v with
  | JS.Str s => Date_parse s
  | JS.Num n =>
      match JS.truncate n with
      | Some t => TimeClip t
      | None => None
      end
  | JS.Bool b => Some (if b then 1 else 0)
  | JS.Null => Some 0
  | JS.Undefined => None
  end.

End JSDate.

(** ** Entries *)

(** An entry object: each of its six properties holds any primitive value,
    [Undefined] when the object has no such property.  (The application
    writes a string for [type] and for [date]; a backup or an imported array
    may hold anything.) *)
Record Entry := {
  id : JS.value;
  type : JS.value;
  date : JS.value;
  weight : JS.value;
  notes : JS.value;
  dose : JS.value
}.

Definition set_id (v : JS.value) (e : Entry) : Entry :=
  {| id := v; type := type e; date := date e; weight := weight e;
     notes := notes e; dose := dose e |}.

Definition set_weight (v : JS.value) (e : Entry) : Entry :=
  {| id := id e; type := type e; date := date e; weight := v;
     notes := notes e; dose := dose e |}.

(** The entry read back from its JSON text. *)
Definition JSON_entry (e : Entry) : Entry :=
  {| id := JS.JSON_value (id e); type := JS.JSON_value (type e);
     date := JS.JSON_value (date e);
     weight := JS.JSON_value (weight e); notes := JS.JSON_value (notes e);
     dose := JS.JSON_value (dose e) |}.

(** A call returns, throws an [Error] of the program with its message, or
    ends in a [TypeError] of the host (a method called on a value that has
    none), whose message is the host's. *)
Inductive result (A : Type) :=
| Return (a : A)
| Throw (message : string)
| ThrowTypeError (message : string).
Arguments Return {A} a.
Arguments Throw {A} message.
Arguments ThrowTypeError {A} message.

(** The objects of [getWeightEntries] and of the chart's [currentData]: a
    [Date] object, held as its time value ([None]: an invalid date), the
    weight as a number and the type. *)
Module WeightEntry.
Record t := {
  date : option Z;
  weight : JS.number;
  type : JS.value
}.
End WeightEntry.

(** ** DataManager (src/unnamed/part_001) *)

Module DataManager.

(** The object's [entries] array together with the item kept under
    [storageKey] in [localStorage] ([None]: no item).  The item is held as
    the entry list its JSON text denotes; [localStorage] is taken to be
    available and never full. *)
Record t := {
  entries : list Entry;
  localStorage : option (list Entry)
}.

(** [Array.prototype.sort]: a stable sort; the order [cmp] gives is read as
    in [SortCompare] (a positive result puts the second argument first).
    Written as an insertion sort, which for a consistent comparator is the
    one stable sorted arrangement the language prescribes. *)
Section Sort.
Context {A : Type} (cmp : A -> A -> Z).

Fixpoint insert (x : A) (l : list A) : list A :=
  match l with
  | [] => [x]
  | y :: l' => if 0 <? cmp x y then y :: insert x l' else x :: l
  end.

Fixpoint Array_sort (l : list A) : list A :=
  match l with
  | [] => []
  | x :: l' => insert x (Array_sort l')
  end.

End Sort.

Section Host.

(** The host's date parser: the time value of [new Date(s)], [None] when
    the date is invalid ([getTime()] is [NaN]). *)
Variable Date_parse : string -> option Z.

(** [new Date(entry.date)] *)
Definition dateOf (entry : Entry) : option Z :=
  JSDate.newDateOf Date_parse (date entry).

(** [(a, b) => new Date(b.date) - new Date(a.date)].  Time values are
    integers below 2^53, so the sign of the Number difference is the sign of
    the integer difference; a [NaN] difference counts as [+0] in the sort. *)
Definition byDateDescending (a b : Entry) : Z :=
  match dateOf b, dateOf a with
  | Some tb, Some ta => tb - ta
  | _, _ => 0
  end.

Definition sortEntries (l : list Entry) : list Entry :=
  Array_sort byDateDescending l.

Definition loadData (s : t) : t :=
  {| entries := sortEntries (default [] (localStorage s));
     localStorage := localStorage s |}.

Definition saveData (s : t) : t :=
  {| entries := entries s;
     localStorage := Some (List.map JSON_entry (entries s)) |}.

Definition getEntries (s : t) : list Entry := entries s.

Definition validateEntry (entry : Entry) : bool :=
  if negb (JS.truthy (type entry)) || negb (JS.truthy (date entry))
  then false
  else if negb (existsb (JS.strict_eq (type entry)) [JS.Str "medication"; JS.Str "daily"])
  then false
  else if JSDate.isNaN (dateOf entry)
  then false
  else if JS.strict_eq (type entry) (JS.Str "medication") && negb (JS.truthy (dose entry))
  then false
  else true.

(** [addEntry(entry)]; [fresh] is the value of [Date.now() + Math.random()]
    at the call. *)
Definition addEntry (fresh : JS.number) (entry : Entry) (s : t)
  : result unit * t :=
  if negb (validateEntry entry) then (Throw "Invalid entry data", s)
  else
    let entry := set_id (JS.or_else (id entry) (JS.Num fresh)) entry in
    (Return tt, saveData {| entries := entry :: entries s;
                            localStorage := localStorage s |}).

Definition deleteEntry (entryId : JS.value) (s : t) : bool * t :=
  let initialLength := length (entries s) in
  let s' := {| entries :=
                 List.filter (fun entry => negb (JS.strict_eq (id entry) entryId))
                             (entries s);
               localStorage := localStorage s |} in
  if (length (entries s') <? initialLength)%nat then (true, saveData s')
  else (false, s').

(** [entry.date.split('T')[0]]: the date up to its first [T].  Only a
    string has the method [split]: for any other date the call ends in a
    [TypeError] ([None]). *)
Definition dateKey (entry : Entry) : option string :=
  match date entry with
  | JS.Str s => Some (hd "" (JS.split "T" s))
  | _ => None
  end.

(** The key built on the date part [dateKey]: then the dose of a medication
    entry or the weight of any other, then the type. *)
Definition keyOn (dateKey : string) (entry : Entry) : string :=
  if JS.strict_eq (type entry) (JS.Str "medication")
  then dateKey ++ "-" ++ JS.ToString (dose entry) ++ "-" ++ JS.ToString (type entry)
  else dateKey ++ "-" ++ JS.ToString (weight entry) ++ "-" ++ JS.ToString (type entry).

(** The key of [removeDuplicates], [None] when computing it throws. *)
Definition dedupKey (entry : Entry) : option string :=
  option_map (fun dateKey => keyOn dateKey entry) (dateKey entry).

(** The loop of [removeDuplicates]: [seen] is the set of keys met so far,
    the result the entries pushed to [uniqueEntries], in order; [None] when
    the key of an entry throws. *)
Fixpoint uniqueEntries (seen : gset string) (l : list Entry) : option (list Entry) :=
  match l with
  | [] => Some []
  | entry :: l' =>
      match dedupKey entry with
      | None => None
      | Some key =>
          if decide (key ∈ seen) then uniqueEntries seen l'
          else option_map (cons entry) (uniqueEntries ({[ key ]} ∪ seen) l')
      end
  end.

(** [removeDuplicates()]: the number of entries removed, or the
    [TypeError] of the loop, which leaves [entries] as it was;
    [splitError] is the host's message for the call of [split] on a date
    that is not a string. *)
Definition removeDuplicates (splitError : string) (s : t) : result nat * t :=
  match uniqueEntries ∅ (entries s) with
  | Some unique =>
      (Return (length (entries s) - length unique)%nat,
       {| entries := unique; localStorage := localStorage s |})
  | None => (ThrowTypeError splitError, s)
  end.

Record ImportReport := {
  imported : nat;
  errors : list string
}.

Definition indexMessage (index : nat) (message : string) : string :=
  "Entry " ++ JS.decimalDigits (Z.of_nat (index + 1)) ++ ": " ++ message.

(** The [forEach] of [importEntries] from item [index] on.  An item that is
    not an object ([None]: [null] or [undefined]) makes [validateEntry]
    throw a [TypeError], whose message [typeError] is the host's; the
    [catch] records it.  [fresh i] is the value of
    [Date.now() + Math.random() + index] at item [i].  The result holds the
    array after the loop (a valid entry has got its [id]), [validEntries]
    and [errors].  The elements of the array are taken to be distinct
    objects. *)
Fixpoint validateEach (fresh : nat -> JS.number) (typeError : string)
    (index : nat) (newEntries : list (option Entry))
  : list (option Entry) * list Entry * list string :=
  match newEntries with
  | [] => ([], [], [])
  | item :: rest =>
      let '(rest', validEntries, errors) :=
        validateEach fresh typeError (S index) rest in
      match item with
      | None => (None :: rest', validEntries, indexMessage index typeError :: errors)
      | Some entry =>
          if validateEntry entry then
            let entry := set_id (JS.or_else (id entry) (JS.Num (fresh index))) entry in
            (Some entry :: rest', entry :: validEntries, errors)
          else
            (Some entry :: rest', validEntries,
             indexMessage index "Validation failed" :: errors)
      end
  end.

(** [importEntries(newEntries)] for an array [newEntries]: the outcome, the
    array as the call leaves it, and the store.  When [removeDuplicates]
    throws, [entries] has been replaced by the merged list already and
    nothing is sorted or saved. *)
Definition importEntries (fresh : nat -> JS.number) (typeError splitError : string)
    (newEntries : list (option Entry)) (s : t)
  : result ImportReport * list (option Entry) * t :=
  let '(newEntries', validEntries, errors) :=
    validateEach fresh typeError 0 newEntries in
  if (length validEntries =? 0)%nat
  then (Throw "No valid entries to import", newEntries', s)
  else
    let s1 := {| entries := (validEntries ++ entries s)%list;
                 localStorage := localStorage s |} in
    match removeDuplicates splitError s1 with
    | (Return _, s2) =>
        let s3 := {| entries := sortEntries (entries s2);
                     localStorage := localStorage s2 |} in
        (Return {| imported := length validEntries; errors := errors |},
         newEntries', saveData s3)
    | (Throw message, s2) => (Throw message, newEntries', s2)
    | (ThrowTypeError message, s2) => (ThrowTypeError message, newEntries', s2)
    end.

(** *** The other operations *)

(** The properties the argument [updatedData] of [updateEntry] has. *)
Record EntryUpdate := {
  new_id : option JS.value;
  new_type : option JS.value;
  new_date : option JS.value;
  new_weight : option JS.value;
  new_notes : option JS.value;
  new_dose : option JS.value
}.

(** [{ ...entry, ...updatedData }] *)
Definition spread (entry : Entry) (updatedData : EntryUpdate) : Entry :=
  {| id := default (id entry) (new_id updatedData);
     type := default (type entry) (new_type updatedData);
     date := default (date entry) (new_date updatedData);
     weight := default (weight entry) (new_weight updatedData);
     notes := default (notes entry) (new_notes updatedData);
     dose := default (dose entry) (new_dose updatedData) |}.

(** [findIndex]: the first position where [p] holds, with the element
    there; [None] is the result [-1]. *)
Fixpoint findIndex {A} (p : A -> bool) (l : list A) : option (nat * A) :=
  match l with
  | [] => None
  | x :: l' =>
      if p x then Some (O, x)
      else match findIndex p l' with
           | Some (i, y) => Some (S i, y)
           | None => None
           end
  end.

Definition updateEntry (entryId : JS.value) (updatedData : EntryUpdate) (s : t)
  : result Entry * t :=
  match findIndex (fun entry => JS.strict_eq (id entry) entryId) (entries s) with
  | None => (Throw "Entry not found", s)
  | Some (entryIndex, entry) =>
      let updatedEntry := spread entry updatedData in
      if negb (validateEntry updatedEntry)
      then (Throw "Invalid updated entry data", s)
      else (Return updatedEntry,
            saveData {| entries := <[ entryIndex := updatedEntry ]> (entries s);
                        localStorage := localStorage s |})
  end.

Definition getEntriesByType (type' : JS.value) (s : t) : list Entry :=
  List.filter (fun entry => JS.strict_eq (type entry) type') (entries s).

(** [a >= b] and [a <= b] on two [Date] objects: false when a date is
    invalid. *)
Definition dateGe (a b : option Z) : bool :=
  match a, b with Some x, Some y => y <=? x | _, _ => false end.
Definition dateLe (a b : option Z) : bool :=
  match a, b with Some x, Some y => x <=? y | _, _ => false end.

Definition getEntriesByDateRange (startDate endDate : JS.value) (s : t) : list Entry :=
  let start := JSDate.newDateOf Date_parse startDate in
  let final := JSDate.newDateOf Date_parse endDate in
  List.filter (fun entry =>
                 let entryDate := dateOf entry in
                 dateGe entryDate start && dateLe entryDate final)
              (entries s).

(** [(a, b) => a.date - b.date] *)
Definition byDateAscending (a b : WeightEntry.t) : Z :=
  match WeightEntry.date a, WeightEntry.date b with
  | Some ta, Some tb => ta - tb
  | _, _ => 0
  end.

Definition getWeightEntries (s : t) : list WeightEntry.t :=
  Array_sort byDateAscending
    (List.map (fun entry =>
                 {| WeightEntry.date := dateOf entry;
                    WeightEntry.weight := JS.parseFloat (JS.ToString (weight entry));
                    WeightEntry.type := type entry |})
              (List.filter (fun entry => JS.truthy (weight entry)) (entries s))).

(** [find]: the first entry of the type in the array. *)
Definition getLatestEntry (type' : JS.value) (s : t) : option Entry :=
  List.find (fun entry => JS.strict_eq (type entry) type') (entries s).

(** [1000 * 60 * 60 * 24] *)
Definition msPerDay : JS.number :=
  JS.mul (JS.mul (JS.mul (JS.of_Z 1000) (JS.of_Z 60)) (JS.of_Z 60)) (JS.of_Z 24).

(** [Math.floor((new Date() - lastDate) / (1000 * 60 * 60 * 24))], the clock
    showing the time value [now]. *)
Definition daysSince (now : Z) (lastDate : option Z) : JS.number :=
  let elapsed :=
    match lastDate with
    | Some t => JS.sub (JS.of_Z now) (JS.of_Z t)
    | None => JS.NaN
    end in
  JS.floor (JS.div elapsed msPerDay).

(** The object [getStatistics] returns; a weight is a number or [null], a
    bound of [dateRange] a [Date] object or [null] ([None]). *)
Record Statistics := {
  totalEntries : nat;
  medicationEntries : nat;
  dailyEntries : nat;
  entriesWithWeight : nat;
  latestWeight : JS.value;
  firstWeight : JS.value;
  weightChange : JS.value;
  daysSinceLastDose : JS.value;
  earliest : option (option Z);
  latest : option (option Z)
}.

Definition getStatistics (now : Z) (s : t) : Statistics :=
  let weightEntries := getWeightEntries s in
  let weightOf (w : option WeightEntry.t) :=
    match w with
    | Some w => JS.Num (WeightEntry.weight w)
    | None => JS.Null
    end in
  let latestWeight := weightOf (last weightEntries) in
  let firstWeight := weightOf (head weightEntries) in
  {| totalEntries := length (entries s);
     medicationEntries :=
       length (List.filter (fun e => JS.strict_eq (type e) (JS.Str "medication"))
                           (entries s));
     dailyEntries :=
       length (List.filter (fun e => JS.strict_eq (type e) (JS.Str "daily"))
                           (entries s));
     entriesWithWeight :=
       length (List.filter (fun e => JS.truthy (weight e)) (entries s));
     latestWeight := latestWeight;
     firstWeight := firstWeight;
     weightChange :=
       match latestWeight, firstWeight with
       | JS.Num l, JS.Num f =>
           if JS.truthy latestWeight && JS.truthy firstWeight
           then JS.Num (JS.sub l f) else JS.Null
       | _, _ => JS.Null
       end;
     daysSinceLastDose :=
       match getLatestEntry (JS.Str "medication") s with
       | Some lastMedication =>
           JS.Num (daysSince now (dateOf lastMedication))
       | None => JS.Null
       end;
     earliest := option_map dateOf (last (entries s));
     latest := option_map dateOf (head (entries s)) |}.

(** [clearAllData()]; [confirmed] is the answer to the [confirm] dialogue. *)
Definition clearAllData (confirmed : bool) (s : t) : bool * t :=
  if confirmed
  then (true, saveData {| entries := []; localStorage := localStorage s |})
  else (false, s).

(** The object whose JSON text [createBackup] offers for download, as that
    text reads back; [exportDate] is the clock's [toISOString()]. *)
Record Backup := {
  exportDate : string;
  version : string;
  entryCount : nat;
  backupEntries : list Entry
}.

Definition createBackup (exportDate : string) (s : t) : Backup :=
  {| exportDate := exportDate;
     version := "1.0";
     entryCount := length (entries s);
     backupEntries := List.map JSON_entry (entries s) |}.

(** *** The vocabulary of the properties *)

(** The time value of an entry's date. *)
Definition time (e : Entry) : option Z := dateOf e.

Definition validDate (e : Entry) : Prop := time e <> None.

Definition valid (e : Entry) : Prop := validateEntry e = true.

(** [a] is at least as recent as [b]. *)
Definition newerOrEqual (a b : Entry) : Prop :=
  match time a, time b with
  | Some ta, Some tb => tb <= ta
  | _, _ => False
  end.

(** Newest first: of two adjacent entries the first is at least as recent
    as the second. *)
Definition newestFirst (l : list Entry) : Prop := Sorted newerOrEqual l.

(** An array element survives the validation of [importEntries]. *)
Definition survives (item : option Entry) : bool :=
  match item with
  | Some e => validateEntry e
  | None => false
  end.

(** The date of the entry is a string, so that its key can be computed. *)
Definition stringDate (e : Entry) : Prop := exists s, date e = JS.Str s.

(** The key of an entry whose date is a string. *)
Definition key (e : Entry) : string := default "" (dedupKey e).

(** The first entry of each key not in [seen], in order: what the loop of
    [removeDuplicates] pushes when no key throws. *)
Fixpoint distinct (seen : gset string) (l : list Entry) : list Entry :=
  match l with
  | [] => []
  | entry :: l' =>
      if decide (key entry ∈ seen) then distinct seen l'
      else entry :: distinct ({[ key entry ]} ∪ seen) l'
  end.

(** The keys of a list of entries, and the entries whose key is not in
    [seen]. *)
Definition keys (l : list Entry) : gset string :=
  list_to_set (List.map key l).

Definition unseen (seen : gset string) (e : Entry) : bool :=
  bool_decide (key e ∉ seen).

(** The store invariant: the date of every entry, in memory and in
    storage, is one the host reads. *)
Definition wellFormed (s : t) : Prop :=
  Forall validDate (entries s)
  /\ Forall validDate (default [] (localStorage s)).

(** The states of a store: a new object over an empty [localStorage], a new
    object over the storage an earlier one left (the page is loaded again),
    and what the operations make of a state. *)
Inductive reachable : t -> Prop :=
| reach_new :
    reachable {| entries := []; localStorage := None |}
| reach_reload s :
    reachable s -> reachable {| entries := []; localStorage := localStorage s |}
| reach_loadData s :
    reachable s -> reachable (loadData s)
| reach_addEntry s fresh entry :
    reachable s -> reachable (snd (addEntry fresh entry s))
| reach_deleteEntry s entryId :
    reachable s -> reachable (snd (deleteEntry entryId s))
| reach_importEntries s fresh typeError splitError newEntries :
    reachable s ->
    reachable (snd (importEntries fresh typeError splitError newEntries s)).

(** The object [getWeightEntries] makes of an entry. *)
Definition weightEntryOf (entry : Entry) : WeightEntry.t :=
  {| WeightEntry.date := dateOf entry;
     WeightEntry.weight := JS.parseFloat (JS.ToString (weight entry));
     WeightEntry.type := type entry |}.

(** [a] is at least as old as [b]. *)
Definition olderOrEqual (a b : WeightEntry.t) : Prop :=
  match WeightEntry.date a, WeightEntry.date b with
  | Some ta, Some tb => ta <= tb
  | _, _ => False
  end.

(** Oldest first. *)
Definition chronological (l : list WeightEntry.t) : Prop := Sorted olderOrEqual l.

(** The states of a store under all its operations: those of [reachable]
    with [updateEntry] and [clearAllData]. *)
Inductive attainable : t -> Prop :=
| attain_new :
    attainable {| entries := []; localStorage := None |}
| attain_reload s :
    attainable s -> attainable {| entries := []; localStorage := localStorage s |}
| attain_loadData s :
    attainable s -> attainable (loadData s)
| attain_addEntry s fresh entry :
    attainable s -> attainable (snd (addEntry fresh entry s))
| attain_deleteEntry s entryId :
    attainable s -> attainable (snd (deleteEntry entryId s))
| attain_importEntries s fresh typeError splitError newEntries :
    attainable s ->
    attainable (snd (importEntries fresh typeError splitError newEntries s))
| attain_updateEntry s entryId updatedData :
    attainable s -> attainable (snd (updateEntry entryId updatedData s))
| attain_clearAllData s confirmed :
    attainable s -> attainable (snd (clearAllData confirmed s)).

End Host.

End DataManager.

(** ** ImportManager (src/js/utils.js): the free-text parser *)

Module ImportManager.

(** The [notes] property of an entry under construction: the array the loop
    pushes to, then the joined string or [null]. *)
Inductive notesField :=
| NotesArray (items : list string)
| NotesString (s : string)
| NotesNull.

(** The object literal of [parseTextData]. *)
Record ParsedEntry := {
  id : JS.number;
  date : string;
  weight : JS.number;
  notes : notesField;
  type : string;
  dose : JS.value
}.

Inductive jsError := RangeError | TypeError.

(** [/^(\d{2})\/(\d{2})\s*-\s*([\d.,]+)\s*kg/]: the three groups. *)
Definition isNumberChar (c : ascii) : bool :=
  JS.isDigit c || Ascii.eqb c "."%char || Ascii.eqb c ","%char.

Definition dateMatch (line : string) : option (string * string * string) :=
  match JS.chars line with
  | d1 :: d2 :: sl :: m1 :: m2 :: r =>
      if JS.isDigit d1 && JS.isDigit d2 && Ascii.eqb sl "/"%char
         && JS.isDigit m1 && JS.isDigit m2
      then
        match JS.dropWhile JS.isWhiteSpace r with
        | dash :: r =>
            if Ascii.eqb dash "-"%char then
              let r := JS.dropWhile JS.isWhiteSpace r in
              let g := JS.takeWhile isNumberChar r in
              let r := JS.dropWhile JS.isWhiteSpace (JS.dropWhile isNumberChar r) in
              match g with
              | [] => None
              | _ =>
                  if JS.isPrefix (JS.chars "kg") r
                  then Some (JS.str [d1; d2], JS.str [m1; m2], JS.str g)
                  else None
              end
            else None
        | [] => None
        end
      else None
  | _ => None
  end.

(** [/mounjaro\s+([\d.,]+)\s*mg/i] at the start of [l]. *)
Definition medMatchHere (l : list ascii) : option string :=
  let lower := List.map JS.toLowerAscii in
  if JS.isPrefix (JS.chars "mounjaro") (lower l) then
    let r := skipn 8 l in
    match JS.takeWhile JS.isWhiteSpace r with
    | [] => None
    | _ =>
        let r := JS.dropWhile JS.isWhiteSpace r in
        let g := JS.takeWhile isNumberChar r in
        let r := JS.dropWhile JS.isWhiteSpace (JS.dropWhile isNumberChar r) in
        match g with
        | [] => None
        | _ => if JS.isPrefix (JS.chars "mg") (lower r) then Some (JS.str g) else None
        end
    end
  else None.

(** The same pattern searched from left to right: its group at the first
    position where it matches. *)
Fixpoint medMatchChars (l : list ascii) : option string :=
  match medMatchHere l with
  | Some g => Some g
  | None => match l with
            | [] => None
            | _ :: l' => medMatchChars l'
            end
  end.

Definition medMatch (note : string) : option string := medMatchChars (JS.chars note).

(** [text.replace(',', '.')] *)
Definition commaToDot (s : string) : string :=
  JS.str (JS.replaceFirst ","%char "."%char (JS.chars s)).

(** The variables of the loop.  Entries are objects: [heap] holds them,
    [parsedEntries] and [currentEntry] refer to them by position, so that an
    object pushed twice is one object. *)
Record loopState := {
  heap : list ParsedEntry;
  parsedEntries : list nat;
  currentEntry : option nat
}.

Definition pushCurrent (st : loopState) : loopState :=
  match currentEntry st with
  | Some r => {| heap := heap st; parsedEntries := (parsedEntries st ++ [r])%list;
                 currentEntry := currentEntry st |}
  | None => st
  end.

Definition setMedication (d : string) (e : ParsedEntry) : ParsedEntry :=
  {| id := id e; date := date e; weight := weight e; notes := notes e;
     type := "medication"; dose := JS.Str d |}.

Definition setNotes (n : notesField) (e : ParsedEntry) : ParsedEntry :=
  {| id := id e; date := date e; weight := weight e; notes := n;
     type := type e; dose := dose e |}.

(** [a < b] and [a > b] for the results of [parseInt]: false on [NaN]. *)
Definition ltZ (a : option Z) (b : Z) : bool :=
  match a with Some x => x <? b | None => false end.
Definition gtZ (a : option Z) (b : Z) : bool :=
  match a with Some x => b <? x | None => false end.

(** One turn of the [for] loop on the line [lines[i]]; [inl] is an exception
    leaving the loop.  [tz] is the host's time zone offset, [fresh i] the
    value of [Date.now() + Math.random()] in turn [i]. *)
Definition step (tz : Z) (fresh : nat -> JS.number) (year : string)
    (i : nat) (rawLine : string) (st : loopState) : jsError + loopState :=
  let line := JS.trim rawLine in
  if String.eqb line "" then inr st
  else
    match dateMatch line with
    | Some (g1, g2, g3) =>
        let st := pushCurrent st in
        let day := JS.parseInt g1 in
        let month := JS.parseInt g2 in
        let weight := JS.parseFloat (commaToDot g3) in
        if ltZ day 1 || gtZ day 31 || ltZ month 1 || gtZ month 12 then inr st
        else
          let date :=
            JSDate.newDate tz (JS.parseInt year) (default 0 month - 1) (default 0 day) 12 0 in
          match JSDate.toISOString date with
          | None => inl RangeError
          | Some iso =>
              inr {| heap := (heap st ++
                       [ {| id := fresh i; date := JS.takeStr 16 iso;
                            weight := weight; notes := NotesArray [];
                            type := "daily"; dose := JS.Null |} ])%list;
                     parsedEntries := parsedEntries st;
                     currentEntry := Some (length (heap st)) |}
          end
    | None =>
        match JS.chars line, currentEntry st with
        | c :: rest, Some r =>
            if Ascii.eqb c "-"%char then
              let note := JS.trim (JS.str rest) in
              match heap st !! r with
              | None => inl TypeError
              | Some e =>
                  match medMatch note with
                  | Some g =>
                      let dose := JS.parseFloat (commaToDot g) in
                      inr {| heap := <[ r := setMedication (JS.Number_toString dose ++ "mg") e ]> (heap st);
                             parsedEntries := parsedEntries st;
                             currentEntry := currentEntry st |}
                  | None =>
                      if negb (String.eqb note "") then
                        match notes e with
                        | NotesArray items =>
                            inr {| heap := <[ r := setNotes (NotesArray (items ++ [note])) e ]> (heap st);
                                   parsedEntries := parsedEntries st;
                                   currentEntry := currentEntry st |}
                        | _ => inl TypeError
                        end
                      else inr st
                  end
              end
            else inr st
        | _, _ => inr st
        end
    end.

Fixpoint loop (tz : Z) (fresh : nat -> JS.number) (year : string)
    (i : nat) (lines : list string) (st : loopState) : jsError + loopState :=
  match lines with
  | [] => inr st
  | line :: lines' =>
      match step tz fresh year i line st with
      | inl err => inl err
      | inr st' => loop tz fresh year (S i) lines' st'
      end
  end.

(** The callback of "Convert notes array to string" on one object:
    [entry.notes.length] throws on [null], [entry.notes.join] is not a
    function on a string. *)
Definition convertNotes (e : ParsedEntry) : jsError + ParsedEntry :=
  match notes e with
  | NotesNull => inl TypeError
  | NotesArray items =>
      match items with
      | [] => inr (setNotes NotesNull e)
      | first :: others =>
          inr (setNotes (NotesString (fold_left (fun acc x => acc ++ ". " ++ x) others first)) e)
      end
  | NotesString text =>
      if (0 <? String.length text)%nat then inl TypeError
      else inr (setNotes NotesNull e)
  end.

(** [parsedEntries.forEach] with that callback, over the references. *)
Fixpoint convertAll (refs : list nat) (h : list ParsedEntry)
  : jsError + list ParsedEntry :=
  match refs with
  | [] => inr h
  | r :: refs' =>
      match h !! r with
      | None => inl TypeError
      | Some e =>
          match convertNotes e with
          | inl err => inl err
          | inr e' => convertAll refs' (<[ r := e' ]> h)
          end
      end
  end.

(** What [parseTextData] does with the text and the year of the form. *)
Inductive outcome :=
| PleasePasteData
| Parsed (entries : list ParsedEntry)
| ErrorParsing (error : jsError).

Definition parseTextData (tz : Z) (fresh : nat -> JS.number)
    (text year : string) : outcome :=
  let importData := JS.trim text in
  if String.eqb importData "" then PleasePasteData
  else
    let lines := JS.split "010"%char importData in
    match loop tz fresh year 0 lines
            {| heap := []; parsedEntries := []; currentEntry := None |} with
    | inl err => ErrorParsing err
    | inr st =>
        let st := pushCurrent st in
        match convertAll (parsedEntries st) (heap st) with
        | inl err => ErrorParsing err
        | inr h => Parsed (omap (fun r => h !! r) (parsedEntries st))
        end
    end.

(** *** The sample of the specification *)

Definition LF : string := String "010"%char "".

(** Lines joined by line feeds. *)
Definition unlines (ls : list string) : string :=
  match ls with
  | [] => ""
  | l :: ls' => fold_left (fun acc x => acc ++ LF ++ x) ls' l
  end.

Definition sampleText : string :=
  unlines ["01/03 - 82,5 kg"; "- mounjaro 5 mg"; "- felt fine"; "02/03 - 82,1 kg"].

(** The calendar day of an entry: the first ten characters of its date. *)
Definition dayOf (e : ParsedEntry) : string := JS.takeStr 10 (date e).

(** What the specification says of the sample: two entries, the first a
    medication entry of dose ["5mg"], weight 82.5 and notes ["felt fine"] on
    2025-03-01, the second a daily entry of weight 82.1 on 2025-03-02. *)
Definition sampleOk (o : outcome) : bool :=
  match o with
  | Parsed [a; b] =>
      String.eqb (type a) "medication"
      && JS.strict_eq (dose a) (JS.Str "5mg")
      && JS.eqb (weight a) (Prim2SF 82.5%float)
      && match notes a with
         | NotesString n => String.eqb n "felt fine"
         | _ => false
         end
      && String.eqb (dayOf a) "2025-03-01"
      && String.eqb (type b) "daily"
      && JS.eqb (weight b) (JS.parseFloat "82.1")
      && String.eqb (dayOf b) "2025-03-02"
  | _ => false
  end.

(** *** From the preview to the store *)

(** The object of the parser as [importEntries] meets it; the notes have
    been converted by then (an object whose notes are still an array has no
    image among the entries of primitive properties). *)
Definition toEntry (e : ParsedEntry) : option Entry :=
  match notes e with
  | NotesArray _ => None
  | NotesString text =>
      Some (Build_Entry (JS.Num (id e)) (JS.Str (type e)) (JS.Str (date e))
                        (JS.Num (weight e)) (JS.Str text) (dose e))
  | NotesNull =>
      Some (Build_Entry (JS.Num (id e)) (JS.Str (type e)) (JS.Str (date e))
                        (JS.Num (weight e)) JS.Null (dose e))
  end.

(** What [confirmImport] tells the user. *)
Inductive importMessage :=
| NoEntriesToImport
| SuccessfullyImported (text : string)
| ErrorImporting (message : string).

(** [confirmImport()] on the entries of the preview: the message, the
    [parsedEntries] the call leaves, and the store.  [typeError] and
    [splitError] are the messages of the host's [TypeError]s for reading a
    property of [null] and for the call of [split] on a date that is not a
    string. *)
Definition confirmImport (Date_parse : string -> option Z)
    (fresh : nat -> JS.number) (typeError splitError : string)
    (parsedEntries : list Entry) (s : DataManager.t)
  : importMessage * list Entry * DataManager.t :=
  if (length parsedEntries =? 0)%nat then (NoEntriesToImport, parsedEntries, s)
  else
    match DataManager.importEntries Date_parse fresh typeError splitError
            (List.map Some parsedEntries) s with
    | (Return report, newEntries, s') =>
        let message :=
          "Successfully imported "
            ++ JS.decimalDigits (Z.of_nat (DataManager.imported report))
            ++ " entries!" in
        let message :=
          if (0 <? length (DataManager.errors report))%nat
          then message ++ " ("
                 ++ JS.decimalDigits (Z.of_nat (length (DataManager.errors report)))
                 ++ " entries had errors and were skipped)"
          else message in
        (SuccessfullyImported message, [], s')
    | (Throw message, newEntries, s') | (ThrowTypeError message, newEntries, s') =>
        (ErrorImporting ("Error importing data: " ++ message),
         omap (fun item => item) newEntries, s')
    end.

(** *** The JSON import *)

(** An object of the JSON data: the six properties the import reads, each
    any primitive value, [Undefined] when the object has no such property. *)
Record RawEntry := {
  raw_id : JS.value;
  raw_type : JS.value;
  raw_date : JS.value;
  raw_weight : JS.value;
  raw_notes : JS.value;
  raw_dose : JS.value
}.

(** The parsed JSON text: an array, whose elements are objects or not
    ([None]: [null], a number, a string, ..., of which no property is read
    or which has none of the required ones); an object with an [entries]
    array (the backup format); [null]; or anything else. *)
Inductive jsonData :=
| JsonArray (elements : list (option RawEntry))
| JsonBackup (entries : list (option RawEntry))
| JsonNull
| JsonOther.

(** [['medication', 'daily'].includes(v)] *)
Definition isEntryType (v : JS.value) : bool :=
  existsb (JS.strict_eq v) [JS.Str "medication"; JS.Str "daily"].

(** The checks of [processJsonImport] on one object: true when none of the
    four errors is thrown. *)
Definition acceptable (Date_parse : string -> option Z) (entry : RawEntry) : bool :=
  if negb (JS.truthy (raw_id entry)) || negb (JS.truthy (raw_type entry))
     || negb (JS.truthy (raw_date entry))
  then false
  else if negb (isEntryType (raw_type entry)) then false
  else if JSDate.isNaN (JSDate.newDateOf Date_parse (raw_date entry)) then false
  else if JS.strict_eq (raw_type entry) (JS.Str "medication")
          && negb (JS.truthy (raw_dose entry))
  then false
  else true.

(** [parseInt(entry.id) || Date.now() + Math.random()] *)
Definition cleanId (fresh : JS.number) (v : JS.value) : JS.value :=
  match JS.parseInt (JS.ToString v) with
  | Some z => JS.or_else (JS.Num (JS.of_Z z)) (JS.Num fresh)
  | None => JS.Num fresh
  end.

(** The [cleanEntry] object; it has a [dose] only for a medication. *)
Definition cleanEntry (fresh : JS.number) (entry : RawEntry) : RawEntry :=
  {| raw_id := cleanId fresh (raw_id entry);
     raw_type := raw_type entry;
     raw_date := raw_date entry;
     raw_weight := JS.or_else (raw_weight entry) JS.Null;
     raw_notes := JS.or_else (raw_notes entry) JS.Null;
     raw_dose :=
       if JS.strict_eq (raw_type entry) (JS.Str "medication")
       then raw_dose entry else JS.Undefined |}.

(** The [forEach] of [processJsonImport] from element [index] on:
    [validatedEntries] and [errorCount]. *)
Fixpoint validateJson (Date_parse : string -> option Z) (fresh : nat -> JS.number)
    (index : nat) (elements : list (option RawEntry)) : list RawEntry * nat :=
  match elements with
  | [] => ([], O)
  | element :: rest =>
      let '(validatedEntries, errorCount) :=
        validateJson Date_parse fresh (S index) rest in
      match element with
      | Some entry =>
          if acceptable Date_parse entry
          then (cleanEntry (fresh index) entry :: validatedEntries, errorCount)
          else (validatedEntries, S errorCount)
      | None => (validatedEntries, S errorCount)
      end
  end.

(** What [processJsonImport] shows: an error, or the preview of the
    validated entries under a warning or a success message. *)
Inductive jsonOutcome :=
| ErrorProcessing (message : string)
| Preview (message : string) (warning : bool) (validatedEntries : list RawEntry).

(** [typeError] is the message of the host's [TypeError] for reading
    [entries] of [null]. *)
Definition processJsonImport (Date_parse : string -> option Z)
    (fresh : nat -> JS.number) (typeError : string) (data : jsonData)
  : jsonOutcome :=
  match match data with
        | JsonBackup entries => inr entries
        | JsonArray elements => inr elements
        | JsonNull => inl typeError
        | JsonOther =>
            inl "JSON data must be an array of entries or backup object with entries array"
        end with
  | inl message => ErrorProcessing ("Error processing JSON data: " ++ message)
  | inr entries =>
      let '(validatedEntries, errorCount) := validateJson Date_parse fresh 0 entries in
      if (length validatedEntries =? 0)%nat
      then ErrorProcessing
             ("Error processing JSON data: " ++ "No valid entries found in JSON data")
      else if (0 <? errorCount)%nat
      then Preview ("Warning: " ++ JS.decimalDigits (Z.of_nat errorCount)
                      ++ " entries had validation errors and were skipped. "
                      ++ JS.decimalDigits (Z.of_nat (length validatedEntries))
                      ++ " valid entries found.")
                   true validatedEntries
      else Preview ("Successfully parsed "
                      ++ JS.decimalDigits (Z.of_nat (length validatedEntries))
                      ++ " entries from JSON data.")
                   false validatedEntries
  end.

(** The object a stored entry is in JSON data, and the entry a validated
    object is for the store: the same six properties. *)
Definition toRaw (e : Entry) : RawEntry :=
  let 'Build_Entry id type date weight notes dose := e in
  {| raw_id := id; raw_type := type; raw_date := date;
     raw_weight := weight; raw_notes := notes; raw_dose := dose |}.

Definition ofRaw (r : RawEntry) : Entry :=
  Build_Entry (raw_id r) (raw_type r) (raw_date r)
              (raw_weight r) (raw_notes r) (raw_dose r).

(** The JSON data of a backup file. *)
Definition backupData (b : DataManager.Backup) : jsonData :=
  JsonBackup (List.map (fun e => Some (toRaw e)) (DataManager.backupEntries b)).

Definition quote : string := String "034"%char "".

(** [validateImportData(entries)]: the messages for the entry at [index]
    and the following ones. *)
Fixpoint validateImportData (Date_parse : string -> option Z) (index : nat)
    (entries : list Entry) : list string :=
  match entries with
  | [] => []
  | entry :: rest =>
      let 'Build_Entry _ type date _ _ dose := entry in
      let at_ text := "Entry " ++ JS.decimalDigits (Z.of_nat (index + 1)) ++ ": " ++ text in
      let hasType := JS.truthy type in
      let hasDate := JS.truthy date in
      let invalidType := at_ ("Invalid type " ++ quote ++ JS.ToString type ++ quote) in
      let invalidDate := at_ ("Invalid date " ++ quote ++ JS.ToString date ++ quote) in
      ((if negb hasType || negb hasDate then [at_ "Missing required fields"] else [])
       ++ (if hasType && negb (isEntryType type) then [invalidType] else [])
       ++ (if hasDate && JSDate.isNaN (JSDate.newDateOf Date_parse date)
           then [invalidDate] else [])
       ++ (if JS.strict_eq type (JS.Str "medication") && negb (JS.truthy dose)
           then [at_ "Medication entry missing dose"] else [])
       ++ validateImportData Date_parse (S index) rest)%list
  end.

(** *** The vocabulary of the properties *)

(** The day and the month of a line that the pattern of a date line
    matches. *)
Definition headerOf (rawLine : string) : option (option Z * option Z) :=
  match dateMatch (JS.trim rawLine) with
  | Some (g1, g2, _) => Some (JS.parseInt g1, JS.parseInt g2)
  | None => None
  end.

(** [day < 1 || day > 31 || month < 1 || month > 12] *)
Definition outOfRange (day month : option Z) : bool :=
  ltZ day 1 || gtZ day 31 || ltZ month 1 || gtZ month 12.

(** A date line that starts an entry, and one that is skipped for its day
    or month. *)
Definition acceptedHeader (rawLine : string) : bool :=
  match headerOf rawLine with
  | Some (day, month) => negb (outOfRange day month)
  | None => false
  end.

Definition rejectedHeader (rawLine : string) : bool :=
  match headerOf rawLine with
  | Some (day, month) => outOfRange day month
  | None => false
  end.

(** The variables of the loop before the first line. *)
Definition initial : loopState :=
  {| heap := []; parsedEntries := []; currentEntry := None |}.

(** The notes of an object while the loop runs: an array of non-empty
    strings; and after the conversion: [null] or a non-empty string. *)
Definition openNotes (e : ParsedEntry) : Prop :=
  exists items, notes e = NotesArray items /\ Forall (fun note => note <> "") items.

Definition closedNotes (e : ParsedEntry) : Prop :=
  notes e = NotesNull \/ exists text, notes e = NotesString text /\ text <> "".

(** The notes of an object can be converted, or have been. *)
Definition convertible (e : ParsedEntry) : Prop := openNotes e \/ closedNotes e.

(** A daily entry has no dose, the dose of a medication entry is a text
    ending in [mg]; the date is not empty. *)
Definition wellTyped (e : ParsedEntry) : Prop :=
  date e <> ""
  /\ (type e = "daily" /\ dose e = JS.Null
      \/ type e = "medication" /\ exists d, dose e = JS.Str (d ++ "mg")).

(** A reference occurs twice in the list. *)
Definition pushedTwice (refs : list nat) : Prop :=
  exists r l1 l2, refs = (l1 ++ r :: l2)%list /\ In r l2.

(** The object [currentEntry] refers to is in [parsedEntries] already, or
    some object is there twice. *)
Definition sharesAnObject (st : loopState) : Prop :=
  (exists r, currentEntry st = Some r /\ In r (parsedEntries st))
  \/ pushedTwice (parsedEntries st).

(** The entries the loop has made so far number [n]: the references
    pushed and the open entry, unless an object is shared; every reference
    is to an object of the heap. *)
Definition openCount (st : loopState) : nat :=
  match currentEntry st with Some _ => 1%nat | None => O end.

Definition counted (st : loopState) (n : nat) : Prop :=
  (forall r, In r (parsedEntries st) -> (r < length (heap st))%nat)
  /\ (forall r, currentEntry st = Some r -> (r < length (heap st))%nat)
  /\ (sharesAnObject st \/ (length (parsedEntries st) + openCount st = n)%nat).

(** The entries of the preview as [confirmImport] hands them on. *)
Fixpoint toEntries (l : list ParsedEntry) : option (list Entry) :=
  match l with
  | [] => Some []
  | e :: l' =>
      match toEntry e, toEntries l' with
      | Some entry, Some entries => Some (entry :: entries)
      | _, _ => None
      end
  end.

(** The objects of the JSON data that pass the checks of
    [processJsonImport], in order. *)
Definition acceptedEntries (Date_parse : string -> option Z)
    (elements : list (option RawEntry)) : list RawEntry :=
  omap (fun element =>
          match element with
          | Some entry => if acceptable Date_parse entry then Some entry else None
          | None => None
          end)
       elements.

(** The array the JSON data holds, if it is an array or a backup. *)
Definition entriesOf (data : jsonData) : option (list (option RawEntry)) :=
  match data with
  | JsonArray elements => Some elements
  | JsonBackup entries => Some entries
  | JsonNull | JsonOther => None
  end.

(** [clean] is the clean object made of [entry], whatever identifier was
    at hand. *)
Definition cleaned (clean entry : RawEntry) : Prop :=
  exists fresh, clean = cleanEntry fresh entry.

End ImportManager.

(** ** ChartRenderer (src/js/charts.js): the trend line *)

Module ChartRenderer.

(** The [date] of a data point: a time stamp, or a [Date] object, read by
    [getTime()] ([NaN] for an invalid date). *)
Inductive dateField :=
| TimeStamp (t : JS.number)
| DateObject (time : JS.number).

Record point := {
  date : dateField;
  weight : JS.number
}.

(** [typeof d.date === 'number' ? d.date : d.date.getTime()] *)
Definition dateValue (d : point) : JS.number :=
  match date d with
  | TimeStamp t => t
  | DateObject time => time
  end.

Record TrendData := {
  slope : JS.number;
  intercept : JS.number;
  xValues : list JS.number;
  firstDate : JS.number
}.

(** [1000 * 60 * 60 * 24] *)
Definition msPerDay : JS.number :=
  JS.mul (JS.mul (JS.mul (JS.of_Z 1000) (JS.of_Z 60)) (JS.of_Z 60)) (JS.of_Z 24).

(** [a.reduce((a, b) => a + b, 0)] *)
Definition sum (a : list JS.number) : JS.number := fold_left JS.add a JS.zero.

(** [xValues.reduce((sum, x, i) => sum + x * yValues[i], 0)]; the two arrays
    have the length of [data]. *)
Definition sumProducts (xValues yValues : list JS.number) : JS.number :=
  fold_left (fun sum xy => JS.add sum (JS.mul (fst xy) (snd xy)))
            (combine xValues yValues) JS.zero.

(** [xValues.reduce((sum, x) => sum + x * x, 0)] *)
Definition sumSquares (xValues : list JS.number) : JS.number :=
  fold_left (fun sum x => JS.add sum (JS.mul x x)) xValues JS.zero.

Definition daysSince (firstDate : JS.number) (data : list point) : list JS.number :=
  List.map (fun d => JS.div (JS.sub (dateValue d) firstDate) msPerDay) data.

(** [n * sumXY - sumX * sumY] and [n * sumXX - sumX * sumX] *)
Definition slopeNumerator (n sumX sumY sumXY : JS.number) : JS.number :=
  JS.sub (JS.mul n sumXY) (JS.mul sumX sumY).
Definition slopeDenominator (n sumX sumXX : JS.number) : JS.number :=
  JS.sub (JS.mul n sumXX) (JS.mul sumX sumX).

Definition calculateTrendLine (data : list point) : option TrendData :=
  let n := length data in
  if (n <? 2)%nat then None
  else
    match data with
    | [] => None
    | first :: _ =>
        let firstDate := dateValue first in
        let xValues := daysSince firstDate data in
        let yValues := List.map weight data in
        let sumX := sum xValues in
        let sumY := sum yValues in
        let sumXY := sumProducts xValues yValues in
        let sumXX := sumSquares xValues in
        let slope :=
          JS.div (slopeNumerator (JS.of_nat n) sumX sumY sumXY)
                 (slopeDenominator (JS.of_nat n) sumX sumXX) in
        let intercept := JS.div (JS.sub sumY (JS.mul slope sumX)) (JS.of_nat n) in
        Some {| slope := slope; intercept := intercept;
                xValues := xValues; firstDate := firstDate |}
    end.

Inductive trendDirection := Rising | Falling | Stable.

(** The literal [0.1] *)
Definition tenth : JS.number := JS.of_decimal false 1 (-1).

(** [weightChange > 0.1 ? Rising : weightChange < -0.1 ? Falling : Stable] *)
Definition classify (weightChange : JS.number) : trendDirection :=
  if JS.gt weightChange tenth then Rising
  else if JS.lt weightChange (JS.neg tenth) then Falling
  else Stable.

(** The trend statistics of [drawEnhancedLegend]: the net change over the
    window and its direction, [None] when no trend text is drawn. *)
Definition legendTrend (weightEntries : list point)
  : option (JS.number * trendDirection) :=
  if (3 <=? length weightEntries)%nat then
    match calculateTrendLine weightEntries with
    | Some trendData =>
        let weightChange :=
          JS.mul (slope trendData) (List.last (xValues trendData) JS.NaN) in
        Some (weightChange, classify weightChange)
    | None => None
    end
  else None.

Definition zero_or_NaN (x : JS.number) : Prop := x = JS.zero \/ x = JS.NaN.

(** The milliseconds of a day, as an integer. *)
Definition dayMs : Z := 86400000.

(** A data point with a [Date] object of time value [t] and the weight
    [w], both integers. *)
Definition pointAt (t w : Z) : point :=
  {| date := DateObject (JS.of_Z t); weight := JS.of_Z w |}.

(** *** The paginated view *)

Section Pagination.

Variable Date_parse : string -> option Z.

(** The fields of the renderer that the navigation reads and writes, with
    the three elements of the statistics page it updates: the text of
    [chartInfo] and the [disabled] flags of the two buttons. *)
Record t := {
  chartViewStart : Z;
  chartViewDays : Z;
  currentData : list WeightEntry.t;
  chartInfo : string;
  prevBtnDisabled : bool;
  nextBtnDisabled : bool
}.

Definition set_currentData (data : list WeightEntry.t) (st : t) : t :=
  {| chartViewStart := chartViewStart st; chartViewDays := chartViewDays st;
     currentData := data; chartInfo := chartInfo st;
     prevBtnDisabled := prevBtnDisabled st; nextBtnDisabled := nextBtnDisabled st |}.

Definition set_chartViewStart (start : Z) (st : t) : t :=
  {| chartViewStart := start; chartViewDays := chartViewDays st;
     currentData := currentData st; chartInfo := chartInfo st;
     prevBtnDisabled := prevBtnDisabled st; nextBtnDisabled := nextBtnDisabled st |}.

Definition set_chartInfo (text : string) (st : t) : t :=
  {| chartViewStart := chartViewStart st; chartViewDays := chartViewDays st;
     currentData := currentData st; chartInfo := text;
     prevBtnDisabled := prevBtnDisabled st; nextBtnDisabled := nextBtnDisabled st |}.

(** [(a, b) => a.date - b.date] *)
Definition byDate (a b : WeightEntry.t) : Z :=
  match WeightEntry.date a, WeightEntry.date b with
  | Some ta, Some tb => ta - tb
  | _, _ => 0
  end.

(** The [weightEntries] of [drawWeightChart]. *)
Definition weightEntries (entries : list Entry) : list WeightEntry.t :=
  DataManager.Array_sort byDate
    (List.map (fun e =>
                 let 'Build_Entry _ type date weight _ _ := e in
                 {| WeightEntry.date := JSDate.newDateOf Date_parse date;
                    WeightEntry.weight := JS.parseFloat (JS.ToString weight);
                    WeightEntry.type := type |})
              (List.filter (fun e =>
                              let 'Build_Entry _ _ _ weight _ _ := e in
                              JS.truthy weight)
                           entries)).

(** The bounds of the weight axis: [Math.floor(minWeightRaw * 2) / 2],
    [Math.ceil(maxWeightRaw * 2) / 2] and [maxWeight - minWeight || 1]. *)
Definition minWeight (weights : list JS.number) : JS.number :=
  JS.div (JS.floor (JS.mul (JS.Math_min weights) (JS.of_Z 2))) (JS.of_Z 2).

Definition maxWeight (weights : list JS.number) : JS.number :=
  JS.div (JS.ceil (JS.mul (JS.Math_max weights) (JS.of_Z 2))) (JS.of_Z 2).

Definition weightRange (weights : list JS.number) : JS.number :=
  let difference := JS.sub (maxWeight weights) (minWeight weights) in
  if JS.truthy (JS.Num difference) then difference else JS.of_Z 1.

(** The literal [0.5] *)
Definition half : JS.number := Prim2SF 0.5%float.

(** [weightSteps > maxSteps ? 1.0 : 0.5] in [drawGrid] *)
Definition stepSize (weightRange : JS.number) : JS.number :=
  let weightSteps := JS.ceil (JS.div weightRange half) in
  if JS.gt weightSteps (JS.of_Z 10) then JS.of_Z 1 else half.

(** The loop of [drawGrid] over the horizontal lines,
    [for (let weight = minWeight; weight <= maxWeight; weight += stepSize)]:
    the number of lines drawn, [None] when the loop has not ended after
    [fuel] turns.  It is the one loop of the drawing that is not bounded
    by the length of an array or by a constant. *)
Fixpoint gridLines (fuel : nat) (weight maxWeight stepSize : JS.number) : option nat :=
  if JS.le weight maxWeight then
    match fuel with
    | O => None
    | S fuel' =>
        option_map S (gridLines fuel' (JS.add weight stepSize) maxWeight stepSize)
    end
  else Some O.

(** [drawGrid], as to whether it returns. *)
Definition drawGrid (fuel : nat) (minWeight maxWeight weightRange : JS.number)
  : option nat :=
  gridLines fuel minWeight maxWeight (stepSize weightRange).

(** What [drawWeightChart(entries)] does to the renderer, [None] when the
    drawing has not ended after [fuel] turns of the grid loop.  [canvas]
    tells whether the page has the canvas element; as in the page of the
    application, the element is taken to have a parent and a 2d context,
    and the calls on the context, which change nothing in the renderer, to
    return. *)
Definition drawWeightChart (fuel : nat) (canvas : bool) (entries : list Entry) (st : t)
  : option t :=
  if negb canvas then Some st
  else
    let weightEntries := weightEntries entries in
    let st := set_currentData weightEntries st in
    if (length weightEntries =? 0)%nat then Some st
    else
      let weights := List.map WeightEntry.weight weightEntries in
      match drawGrid fuel (minWeight weights) (maxWeight weights) (weightRange weights) with
      | Some _ => Some st
      | None => None
      end.

Definition updateChartControls (st : t) : t :=
  let maxStart := Z.max 0 (Z.of_nat (length (currentData st)) - chartViewDays st) in
  {| chartViewStart := chartViewStart st; chartViewDays := chartViewDays st;
     currentData := currentData st; chartInfo := chartInfo st;
     prevBtnDisabled := chartViewStart st <=? 0;
     nextBtnDisabled := maxStart <=? chartViewStart st |}.

Definition updateChartInfo (start final total : Z) (st : t) : t :=
  if chartViewDays st <? total
  then set_chartInfo ("Showing entries " ++ JS.decimalDigits (start + 1) ++ "-"
                        ++ JS.decimalDigits final ++ " of " ++ JS.decimalDigits total) st
  else set_chartInfo "" st.

(** The objects of [viewEntries]; [toISOString] throws a [RangeError] on
    an invalid date. *)
Fixpoint viewEntries (viewData : list WeightEntry.t) : option (list Entry) :=
  match viewData with
  | [] => Some []
  | item :: rest =>
      match JSDate.toISOString (WeightEntry.date item), viewEntries rest with
      | Some iso, Some entries =>
          Some (Build_Entry JS.Undefined (WeightEntry.type item) (JS.Str iso)
                            (JS.Str (JS.Number_toString (WeightEntry.weight item)))
                            JS.Undefined JS.Undefined :: entries)
      | _, _ => None
      end
  end.

(** [drawPaginatedChart()]: the exception that ends the call, if any, and
    the renderer it leaves; [None] when the drawing has not ended after
    [fuel] turns. *)
Definition drawPaginatedChart (fuel : nat) (canvas : bool) (st : t)
  : option (option ImportManager.jsError * t) :=
  let endIndex :=
    Z.min (chartViewStart st + chartViewDays st) (Z.of_nat (length (currentData st))) in
  let viewData := JS.slice (chartViewStart st) endIndex (currentData st) in
  match viewEntries viewData with
  | None => Some (Some ImportManager.RangeError, st)
  | Some entries =>
      match drawWeightChart fuel canvas entries st with
      | None => None
      | Some st =>
          Some (None, updateChartInfo (chartViewStart st) endIndex
                                      (Z.of_nat (length (currentData st))) st)
      end
  end.

(** [navigateChart(direction)] for an integer [direction]. *)
Definition navigateChart (fuel : nat) (canvas : bool) (direction : Z) (st : t)
  : option (option ImportManager.jsError * t) :=
  if Z.of_nat (length (currentData st)) <=? chartViewDays st then Some (None, st)
  else
    let start := chartViewStart st + direction * chartViewDays st in
    let start := if start <? 0 then 0 else start in
    let maxStart := Z.max 0 (Z.of_nat (length (currentData st)) - chartViewDays st) in
    let start := if maxStart <? start then maxStart else start in
    match drawPaginatedChart fuel canvas (set_chartViewStart start st) with
    | None => None
    | Some (Some error, st) => Some (Some error, st)
    | Some (None, st) => Some (None, updateChartControls st)
    end.

(** [resetChartView()]; [entries] is what [app.dataManager.getEntries()]
    returns. *)
Definition resetChartView (fuel : nat) (canvas : bool) (entries : list Entry) (st : t)
  : option t :=
  let st := set_chartViewStart 0 st in
  match
    (if (0 <? length (currentData st))%nat then drawWeightChart fuel canvas entries st
     else Some st)
  with
  | None => None
  | Some st => Some (updateChartControls st)
  end.

(** *** The vocabulary of the properties *)

(** The index [navigateChart(direction)] moves the view to. *)
Definition pageStart (direction : Z) (st : t) : Z :=
  let start := chartViewStart st + direction * chartViewDays st in
  let start := if start <? 0 then 0 else start in
  let maxStart := Z.max 0 (Z.of_nat (length (currentData st)) - chartViewDays st) in
  if maxStart <? start then maxStart else start.

(** The data the redraw of that page charts: the points of the page, each
    read back from the texts of its date and weight. *)
Definition redrawn (direction : Z) (st : t) : list WeightEntry.t :=
  let start := pageStart direction st in
  let endIndex :=
    Z.min (start + chartViewDays st) (Z.of_nat (length (currentData st))) in
  weightEntries (default [] (viewEntries (JS.slice start endIndex (currentData st)))).

(** The grid over the weights of [data] is drawn within [fuel] turns of its
    loop. *)
Definition gridEnds (fuel : nat) (data : list WeightEntry.t) : Prop :=
  let weights := List.map WeightEntry.weight data in
  drawGrid fuel (minWeight weights) (maxWeight weights) (weightRange weights) <> None.

End Pagination.

End ChartRenderer.

(** ** Utils (src/js/utils.js): the colour helpers *)

Module Utils.

(** The object [hexToRgb] returns: the three results of [parseInt]. *)
Record rgb := {
  r : option Z;
  g : option Z;
  b : option Z
}.

(** [[a-f\d]] under the flag [i] *)
Definition isHexChar (c : ascii) : bool :=
  match JS.hexValue c with Some _ => true | None => false end.

(** [/^#?([a-f\d]{2})([a-f\d]{2})([a-f\d]{2})$/i.exec(hex)], then the three
    groups read in radix 16; [None] is [null]. *)
Definition hexToRgb (hex : string) : option rgb :=
  let l := JS.chars hex in
  let l := match l with "#"%char :: l' => l' | _ => l end in
  match l with
  | [r1; r2; g1; g2; b1; b2] =>
      if forallb isHexChar l
      then Some {| r := JS.parseInt16 (JS.str [r1; r2]);
                   g := JS.parseInt16 (JS.str [g1; g2]);
                   b := JS.parseInt16 (JS.str [b1; b2]) |}
      else None
  | _ => None
  end.

(** ["#" + ((1 << 24) + (r << 16) + (g << 8) + b).toString(16).slice(1)]
    for integers [r], [g] and [b]; the sum of integers is exact below
    2^53. *)
Definition rgbToHex (r g b : Z) : string :=
  "#" ++ JS.dropStr 1
           (JS.toString16 (JS.shiftLeft 1 24 + JS.shiftLeft r 16 + JS.shiftLeft g 8 + b)).

End Utils.

(** ** MounjaroTracker (src/js/app.js): the daily form *)

Module MounjaroTracker.

(** The fields of the daily form as the handler reads them. *)
Record DailyForm := {
  includeMedication : bool;
  dailyDate : string;
  dailyWeight : string;
  dailyNotes : string;
  dose : string;
  medicationNotes : string
}.

(** The message shown in [dailyMessages]. *)
Inductive message :=
| Success (text : string)
| Error (text : string).

(** [value || null] *)
Definition orNull (value : string) : JS.value := JS.or_else (JS.Str value) JS.Null.

(** [handleDailySubmission]: [now] and [now'] are the two readings of
    [Date.now()], [fresh] the value of [Date.now() + Math.random()] inside
    [addEntry]. *)
Definition handleDailySubmission (Date_parse : string -> option Z)
    (now now' : Z) (fresh : JS.number) (form : DailyForm) (s : DataManager.t)
  : message * DataManager.t :=
  let weight := orNull (dailyWeight form) in
  let dailyEntry :=
    Build_Entry (JS.Num (JS.of_Z now)) (JS.Str "daily") (JS.Str (dailyDate form)) weight
                (orNull (dailyNotes form)) JS.Undefined in
  match DataManager.addEntry Date_parse fresh dailyEntry s with
  | (Throw error, s) | (ThrowTypeError error, s) =>
      (Error ("Error saving entry: " ++ error), s)
  | (Return _, s) =>
      let total s :=
        " Total entries: " ++ JS.decimalDigits (Z.of_nat (length (DataManager.getEntries s))) in
      if includeMedication form then
        if negb (JS.truthy (JS.Str (dose form)))
        then (Error "Please select a dose when logging medication", s)
        else
          let medicationEntry :=
            Build_Entry (JS.Num (JS.add (JS.of_Z now') (JS.of_Z 1))) (JS.Str "medication")
                        (JS.Str (dailyDate form)) weight (orNull (medicationNotes form))
                        (JS.Str (dose form)) in
          match DataManager.addEntry Date_parse fresh medicationEntry s with
          | (Throw error, s) | (ThrowTypeError error, s) =>
              (Error ("Error saving entry: " ++ error), s)
          | (Return _, s) =>
              (Success ("Check-in + medication (" ++ dose form ++ ") logged!" ++ total s), s)
          end
      else (Success ("Daily check-in logged!" ++ total s), s)
  end.

End MounjaroTracker.

(** ** A scenario for the examples *)

Module Scenario.

(** The host: a browser in Brasilia (UTC-3), and one in Auckland in summer
    (UTC+13). *)
Definition brasilia : Z := 180.
Definition auckland : Z := -780.

Definition Date_parse : string -> option Z := JSDate.parseEither brasilia.

(** The entry the daily form submits: [id] is [Date.now()], the date the
    value of the date-time field, the weight the text of the weight field. *)
Definition dailyEntry (now : Z) (when weightText : string) : Entry :=
  {| id := JS.Num (JS.of_Z now); type := JS.Str "daily"; date := JS.Str when;
     weight := JS.Str weightText; notes := JS.Null; dose := JS.Undefined |}.

Definition march1 : Entry := dailyEntry 1740913200000 "2025-03-01T08:00" "82.5".
Definition march2 : Entry := dailyEntry 1740913100000 "2025-03-02T08:00" "82.1".

(** An entry of a backup without [id], and one with a non-numeric weight. *)
Definition march3 : Entry :=
  {| id := JS.Undefined; type := JS.Str "medication";
     date := JS.Str "2025-03-03T08:00";
     weight := JS.Num (Prim2SF 81.5%float); notes := JS.Str "felt fine";
     dose := JS.Str "5mg" |}.

Definition weekly : Entry :=
  {| id := JS.Undefined; type := JS.Str "weekly";
     date := JS.Str "2025-03-04T08:00";
     weight := JS.Null; notes := JS.Null; dose := JS.Undefined |}.

(** [Date.now() + Math.random()], plus the index in an import. *)
Definition fresh : JS.number := Prim2SF 1740913300000.25%float.
Definition freshAt (index : nat) : JS.number :=
  match index with
  | O => Prim2SF 1740913300000.25%float
  | 1%nat => Prim2SF 1740913300001.5%float
  | _ => Prim2SF 1740913300002.75%float
  end.

Definition typeError : string := "Cannot read properties of null (reading 'type')".
Definition splitError : string := "entry.date.split is not a function".

Definition empty : DataManager.t :=
  {| DataManager.entries := []; DataManager.localStorage := None |}.

(** The store after the entry of 2 March has been added. *)
Definition store1 : DataManager.t :=
  snd (DataManager.addEntry Date_parse fresh march2 empty).

(** The store after the entry of 1 March has been added as well: the older
    entry stands first, in memory and in storage. *)
Definition store2 : DataManager.t :=
  snd (DataManager.addEntry Date_parse fresh march1 store1).

(** An object of a JSON file whose date is a time stamp, a number of
    milliseconds, and not a text. *)
Definition timestamped : Entry :=
  {| id := JS.Num (JS.of_Z 7); type := JS.Str "daily";
     date := JS.Num (JS.of_Z 1740913200000);
     weight := JS.Num (JS.of_Z 80); notes := JS.Null; dose := JS.Undefined |}.

(** The store after a backup with the entries of 3 and 1 March has been
    imported. *)
Definition store3 : DataManager.t :=
  snd (DataManager.importEntries Date_parse freshAt typeError splitError
         [Some march3; Some march1] store1).

(** A chart over fifteen daily weights, on pages of fourteen. *)
Definition fifteenPoints : list WeightEntry.t :=
  List.map (fun k =>
              {| WeightEntry.date := Some (1740000000000 + Z.of_nat k * 86400000);
                 WeightEntry.weight := JS.of_Z (90 - Z.of_nat k);
                 WeightEntry.type := JS.Str "daily" |})
           (seq 0 15).


(** The same chart with every weight at 2^52, where adding 0.5 to a number
    gives the number itself. *)
Definition heavyChart : ChartRenderer.t :=
  {| ChartRenderer.chartViewStart := 0;
     ChartRenderer.chartViewDays := 14;
     ChartRenderer.currentData :=
       List.map (fun w => {| WeightEntry.date := WeightEntry.date w;
                             WeightEntry.weight := JS.of_Z (2 ^ 52);
                             WeightEntry.type := WeightEntry.type w |})
                fifteenPoints;
     ChartRenderer.chartInfo := "";
     ChartRenderer.prevBtnDisabled := true;
     ChartRenderer.nextBtnDisabled := false |}.

(** A text without a date line in range, and one with a date line out of
    range after an entry. *)
Definition notesOnly : string :=
  ImportManager.unlines ["first week"; "- felt fine"; "32/01 - 70 kg"].

Definition strayHeader : string :=
  ImportManager.unlines
    ["01/03 - 82,5 kg"; "- felt fine"; "32/01 - 70 kg"; "02/03 - 82,1 kg"].

(** The entries the sample of the specification parses to in Brasilia. *)
Definition sampleEntries : list ImportManager.ParsedEntry :=
  match ImportManager.parseTextData brasilia freshAt ImportManager.sampleText "2025" with
  | ImportManager.Parsed entries => entries
  | _ => []
  end.

End Scenario.

(** * Properties *)

#[local] Set Warnings "-clear-no-such-hyp".

(** ** Numbers *)

Section NumberFacts.

Lemma digits2_pos_size (p : positive) : digits2_pos p = Pos.size p.
Proof. induction p; simpl; congruence. Qed.

Lemma digits2_pos_shift (k p : positive) :
  Zpos (digits2_pos (Pos.iter xO p k)) = Zpos (digits2_pos p) + Zpos k.
Proof.
  revert p. induction k using Pos.peano_ind; intros p.
  - simpl. lia.
  - rewrite Pos.iter_succ. cbn [digits2_pos]. rewrite !Pos2Z.inj_succ, IHk. lia.
Qed.

Lemma size_below_2p53 (p : positive) : Zpos p < 2 ^ 53 -> Zpos (Pos.size p) <= 53.
Proof.
  intros H.
  destruct (Z_le_gt_dec (Zpos (Pos.size p)) 53) as [|G]; [assumption|exfalso].
  pose proof (Pos.size_le p) as L.
  assert (2 ^ 54 <= 2 ^ Zpos (Pos.size p)) by (apply Z.pow_le_mono_r; lia).
  assert (Zpos (2 ^ Pos.size p) = 2 ^ Zpos (Pos.size p))
    by (rewrite Pos2Z.inj_pow; reflexivity).
  assert (Zpos (2 ^ Pos.size p) <= Zpos p~0) by (apply Pos2Z.pos_le_pos; exact L).
  change (2 ^ 54) with (2 * 2 ^ 53) in *. lia.
Qed.

(** A mantissa of 53 bits with an exponent in range is not rounded. *)
Lemma binary_round_aux_canonical (s : bool) (m : positive) (e : Z) :
  Zpos (digits2_pos m) = 53 -> -1074 <= e <= 971 ->
  binary_round_aux prec emax s (Zpos m) e loc_Exact = S754_finite s m e.
Proof.
  intros Hm He.
  assert (Hf : fexp prec emax (53 + e) - e = 0).
  { unfold fexp, emin, prec, emax. lia. }
  unfold binary_round_aux, shr_fexp. cbn [Zdigits2 shr_record_of_loc].
  rewrite Hm, Hf.
  cbn [shr loc_of_shr_record shr_m round_nearest_even shr_record_of_loc Zdigits2].
  rewrite Hm, Hf. cbn [shr shr_m].
  replace (e <=? emax - prec) with true; [reflexivity|].
  symmetry. apply Z.leb_le. unfold emax, prec. lia.
Qed.

(** The Number of a positive integer below 2^53 is finite and positive. *)
Lemma of_Z_finite (z : Z) :
  0 < z < 2 ^ 53 -> exists m e, JS.of_Z z = S754_finite false m e.
Proof.
  intros [Hpos Hlt]. destruct z as [|p|p]; try lia.
  unfold JS.of_Z, binary_normalize, binary_round.
  pose proof (size_below_2p53 p Hlt) as Hd. rewrite <- digits2_pos_size in Hd.
  set (d := Zpos (digits2_pos p)) in *.
  assert (Hd1 : 1 <= d) by (unfold d; lia).
  replace (d + 0) with d by lia.
  assert (Hf : fexp prec emax d = d - 53).
  { unfold fexp, emin, prec, emax. lia. }
  rewrite Hf. unfold shl_align.
  destruct (d - 53 - 0) as [|k|k] eqn:Hk.
  - eexists _, _. apply binary_round_aux_canonical; unfold d in *; lia.
  - lia.
  - eexists _, _. apply binary_round_aux_canonical.
    + pose proof (digits2_pos_shift k p) as E. unfold Pos.iter in E.
      unfold PosDef.Pos.iter. rewrite E. unfold d in *. lia.
    + lia.
Qed.

Lemma of_nat_finite (n : nat) :
  (0 < n)%nat -> Z.of_nat n < 2 ^ 53 ->
  exists m e, JS.of_nat n = S754_finite false m e.
Proof. intros H0 H1. apply of_Z_finite. lia. Qed.

Lemma digits2_pos_log2 (p : positive) : Zpos (digits2_pos p) = Z.log2 (Zpos p) + 1.
Proof.
  destruct p as [p|p|]; cbn [Z.log2 digits2_pos]; rewrite ?Pos2Z.inj_succ, ?digits2_pos_size; lia.
Qed.

Lemma iter_xO_value (k p : positive) : Zpos (Pos.iter xO p k) = Zpos p * 2 ^ Zpos k.
Proof.
  revert p. induction k using Pos.peano_ind; intros p.
  - cbn. lia.
  - rewrite Pos.iter_succ, Pos2Z.inj_succ, Z.pow_succ_r by lia.
    rewrite Pos2Z.inj_xO, IHk. lia.
Qed.

(** Rounding a mantissa of at most 53 bits whose normal exponent is in range
    shifts it left and changes no value. *)
Lemma binary_round_small (s : bool) (p : positive) (e : Z) :
  let d := Zpos (digits2_pos p) in
  d <= 53 -> -1074 <= e + d - 53 <= 971 ->
  exists m, binary_round prec emax s p e = S754_finite s m (e + d - 53)
            /\ Zpos m = Zpos p * 2 ^ (53 - d).
Proof.
  intros d Hd He. unfold binary_round.
  assert (Hf : fexp prec emax (d + e) = e + d - 53).
  { unfold fexp, emin, prec, emax. lia. }
  fold d. rewrite Hf. unfold shl_align.
  destruct (e + d - 53 - e) as [|k|k] eqn:Hk.
  - exists p. split.
    + replace (e + d - 53) with e by lia.
      apply binary_round_aux_canonical; unfold d in *; lia.
    + replace (53 - d) with 0 by lia. lia.
  - lia.
  - exists (Pos.iter xO p k). split.
    + apply binary_round_aux_canonical; [|lia].
      rewrite digits2_pos_shift. unfold d in *. lia.
    + rewrite iter_xO_value. f_equal. f_equal. lia.
Qed.

Lemma of_Z_repr (p : positive) :
  let d := Zpos (digits2_pos p) in
  Zpos p < 2 ^ 53 ->
  exists m, JS.of_Z (Zpos p) = S754_finite false m (d - 53)
            /\ Zpos m = Zpos p * 2 ^ (53 - d).
Proof.
  intros d H.
  assert (Hd : d <= 53).
  { unfold d. rewrite digits2_pos_size. apply size_below_2p53, H. }
  assert (1 <= d) by (unfold d; lia).
  destruct (binary_round_small false p 0) as (m & Hm & Hv); fold d; try lia.
  exists m. split; [|exact Hv]. rewrite <- (Z.add_0_l (d - 53)).
  replace (0 + (d - 53)) with (0 + d - 53) by lia. exact Hm.
Qed.

Lemma shl_align_value (m : positive) (e ez : Z) :
  ez <= e -> Zpos (fst (shl_align m e ez)) = Zpos m * 2 ^ (e - ez).
Proof.
  intros H. unfold shl_align.
  destruct (ez - e) as [|k|k] eqn:Hk; cbn [fst].
  - replace (e - ez) with 0 by lia. lia.
  - lia.
  - rewrite iter_xO_value. f_equal. f_equal. lia.
Qed.

Lemma digits_mul_pow2 (p q : positive) (k : Z) :
  0 <= k -> Zpos q = Zpos p * 2 ^ k ->
  Zpos (digits2_pos q) = Zpos (digits2_pos p) + k.
Proof.
  intros Hk H. rewrite !digits2_pos_log2, H, Z.log2_mul_pow2 by lia. lia.
Qed.

(** The difference of two integers below 2^53 is exact when it is not
    longer than the smaller one. *)
Lemma sub_of_Z_exact (a b : Z) :
  0 < a < b -> b < 2 ^ 53 -> Z.log2 (b - a) <= Z.log2 a ->
  JS.sub (JS.of_Z b) (JS.of_Z a) = JS.of_Z (b - a).
Proof.
  intros [Ha Hab] Hb Hlog.
  destruct a as [|pa|pa]; try lia. destruct b as [|pb|pb]; try lia.
  destruct (Z.pos pb - Z.pos pa) as [|pd|pd] eqn:Hd; try lia.
  destruct (of_Z_repr pa) as (ma & Ea & Va); [lia|].
  destruct (of_Z_repr pb) as (mb & Eb & Vb); [lia|].
  destruct (of_Z_repr pd) as (md & Ed & Vd); [lia|].
  rewrite Ea, Eb, Ed.
  set (da := Zpos (digits2_pos pa)) in *.
  set (db := Zpos (digits2_pos pb)) in *.
  set (dd := Zpos (digits2_pos pd)) in *.
  assert (Hda : da = Z.log2 (Zpos pa) + 1) by apply digits2_pos_log2.
  assert (Hdb : db = Z.log2 (Zpos pb) + 1) by apply digits2_pos_log2.
  assert (Hdd : dd = Z.log2 (Zpos pd) + 1) by apply digits2_pos_log2.
  assert (Hle : da <= db).
  { rewrite Hda, Hdb. pose proof (Z.log2_le_mono (Zpos pa) (Zpos pb)). lia. }
  assert (Hda53 : da <= 53).
  { unfold da. rewrite digits2_pos_size. apply size_below_2p53. lia. }
  assert (Hdb53 : db <= 53).
  { unfold db. rewrite digits2_pos_size. apply size_below_2p53. lia. }
  assert (Hda1 : 1 <= da) by (unfold da; lia).
  assert (Hdd1 : 1 <= dd) by (unfold dd; lia).
  unfold JS.sub, SFsub. cbn [cond_Zopp].
  rewrite Z.min_r by lia.
  rewrite !shl_align_value by lia.
  replace (da - 53 - (da - 53)) with 0 by lia.
  rewrite Va, Vb. rewrite Z.mul_1_r.
  replace (Zpos pb * 2 ^ (53 - db) * 2 ^ (db - 53 - (da - 53)))
    with (Zpos pb * 2 ^ (53 - da)).
  2:{ rewrite <- Z.mul_assoc, <- Z.pow_add_r by lia. f_equal. f_equal. lia. }
  rewrite <- Z.mul_sub_distr_r, Hd.
  assert (Hpow : 0 < 2 ^ (53 - da)) by (apply Z.pow_pos_nonneg; lia).
  destruct (Z.pos pd * 2 ^ (53 - da)) as [|q|q] eqn:Hq; try nia.
  cbn [binary_normalize].
  assert (Hdq : Zpos (digits2_pos q) = dd + (53 - da)).
  { apply digits_mul_pow2; [lia|]. symmetry. exact Hq. }
  destruct (binary_round_small false q (da - 53)) as (m & Hm & Hv).
  - rewrite Hdq. lia.
  - rewrite Hdq. lia.
  - rewrite Hm, Hdq. f_equal.
    + apply Pos2Z.inj. rewrite Hv, Hdq, Vd, <- Hq.
      rewrite <- Z.mul_assoc, <- Z.pow_add_r by lia. f_equal. f_equal. lia.
    + lia.
Qed.

Lemma of_Z_isFinite (z : Z) : 0 < z < 2 ^ 53 -> JS.isFinite (JS.of_Z z) = true.
Proof. intros H. destruct (of_Z_finite z H) as (m & e & ->). reflexivity. Qed.

Lemma sub_self (d : JS.number) : JS.isFinite d = true -> JS.sub d d = JS.zero.
Proof.
  destruct d as [s|s| |s m e]; cbn [JS.isFinite]; intros H; try discriminate.
  - destruct s; reflexivity.
  - unfold JS.sub, SFsub. rewrite Z.sub_diag. reflexivity.
Qed.

Lemma or_else_truthy (a b : JS.value) :
  JS.truthy b = true -> JS.truthy (JS.or_else a b) = true.
Proof. unfold JS.or_else. destruct (JS.truthy a) eqn:E; auto. Qed.

Lemma or_else_keep (a b : JS.value) : JS.truthy a = true -> JS.or_else a b = a.
Proof. unfold JS.or_else. intros ->. reflexivity. Qed.

(** The host functions on some values whose images JavaScript fixes. *)
Example Number_toString_examples :
  List.map JS.Number_toString
    [Prim2SF 5%float; Prim2SF 82.5%float; JS.parseFloat "82.1";
     Prim2SF 2.5%float; Prim2SF 1e21%float; JS.parseFloat "1e-7";
     JS.add (JS.parseFloat "0.1") (JS.parseFloat "0.2"); JS.NaN;
     JS.neg JS.zero]
  = ["5"; "82.5"; "82.1"; "2.5"; "1e+21"; "1e-7"; "0.30000000000000004";
     "NaN"; "0"].
Proof. vm_compute. reflexivity. Qed.

Example parseFloat_examples :
  List.map JS.parseFloat ["82.5"; "5"; "."; "1.2.3"; "5."; " -1e3x"; "kg"]
  = [Prim2SF 82.5%float; Prim2SF 5%float; JS.NaN; JS.of_decimal false 12 (-1);
     Prim2SF 5%float; Prim2SF (-1000)%float; JS.NaN].
Proof. vm_compute. reflexivity. Qed.

Example parseInt_examples :
  List.map JS.parseInt ["2025"; "08"; " -12px"; "0x7E9"; ""; "year"]
  = [Some 2025; Some 8; Some (-12); Some 2025; None; None].
Proof. vm_compute. reflexivity. Qed.

Example toISOString_examples :
  List.map (fun tz => JSDate.toISOString (JSDate.newDate tz (Some 2025) 2 1 12 0))
           [0; 180; -720; -780]
  = [Some "2025-03-01T12:00:00.000Z"; Some "2025-03-01T15:00:00.000Z";
     Some "2025-03-01T00:00:00.000Z"; Some "2025-02-28T23:00:00.000Z"].
Proof. vm_compute. reflexivity. Qed.

End NumberFacts.

(** ** The trend line *)

Section TrendFacts.
Import ChartRenderer.

Lemma daysSince_equal_dates (t : JS.number) (data : list point) :
  JS.isFinite t = true -> Forall (fun d => dateValue d = t) data ->
  daysSince t data = repeat JS.zero (length data).
Proof.
  intros Ht H. induction H as [|d data Hd _ IH]; [reflexivity|].
  cbn [daysSince List.map length repeat]. fold (daysSince t data).
  rewrite IH, Hd, (sub_self t Ht). reflexivity.
Qed.

Lemma sum_zeros (n : nat) : sum (repeat JS.zero n) = JS.zero.
Proof.
  unfold sum. induction n; [reflexivity|]. cbn [repeat fold_left]. exact IHn.
Qed.

Lemma sumSquares_zeros (n : nat) : sumSquares (repeat JS.zero n) = JS.zero.
Proof.
  unfold sumSquares. induction n; [reflexivity|]. cbn [repeat fold_left]. exact IHn.
Qed.

Lemma sumProducts_zeros_from (acc : JS.number) (n : nat) (ys : list JS.number) :
  zero_or_NaN acc ->
  zero_or_NaN (fold_left (fun sum xy => JS.add sum (JS.mul (fst xy) (snd xy)))
                 (combine (repeat JS.zero n) ys) acc).
Proof.
  revert acc ys. induction n as [|n IH]; intros acc ys Hacc; [exact Hacc|].
  destruct ys as [|y ys]; [exact Hacc|].
  cbn [repeat combine fold_left fst snd]. apply IH.
  destruct Hacc as [-> | ->].
  - destruct y as [[|]|[|]| |[|] m e]; cbv; auto.
  - right. reflexivity.
Qed.

Lemma sumProducts_zeros (n : nat) (ys : list JS.number) :
  zero_or_NaN (sumProducts (repeat JS.zero n) ys).
Proof. apply sumProducts_zeros_from. left. reflexivity. Qed.

Lemma slopeDenominator_zeros (n : JS.number) (m : positive) (e : Z) :
  n = S754_finite false m e -> slopeDenominator n JS.zero JS.zero = JS.zero.
Proof. intros ->. reflexivity. Qed.

Lemma slope_zeros (n sumY sumXY : JS.number) (m : positive) (e : Z) :
  n = S754_finite false m e -> zero_or_NaN sumXY ->
  JS.div (slopeNumerator n JS.zero sumY sumXY) JS.zero = JS.NaN.
Proof.
  intros -> [-> | ->]; destruct sumY as [[|]|[|]| |[|] m' e']; reflexivity.
Qed.

(** The elapsed time between an instant from 4 January 1970 on and one
    less than 2^28 ms (three days) later is computed exactly. *)
Lemma days_after (t0 d : Z) :
  2 ^ 28 <= t0 -> t0 + d < 2 ^ 53 -> 0 < d < 2 ^ 28 ->
  JS.sub (JS.of_Z (t0 + d)) (JS.of_Z t0) = JS.of_Z d.
Proof.
  intros H0 H1 Hd.
  assert (0 < 2 ^ 28) by reflexivity.
  replace d with (t0 + d - t0) at 2 by lia.
  apply sub_of_Z_exact; try lia.
  replace (t0 + d - t0) with d by lia.
  transitivity 27.
  - assert (Z.log2 d < 28) by (apply Z.log2_lt_pow2; lia). lia.
  - assert (28 <= Z.log2 t0) by (apply Z.log2_le_pow2; lia). lia.
Qed.

(** C5: on the weights 80, 79, 78 of three days in a row, at the instants
    [t0], [t0] + 1 day and [t0] + 2 days for any time value [t0] from
    4 January 1970 on whose third day is still a valid date, the x-offsets
    are 0, 1, 2, the slope is -1 a day, the net change (slope times the last
    x-offset) is -2, and the legend, which calls a change above 0.1 rising
    and one below -0.1 falling, classifies the trend as falling. *)
Theorem trend_of_80_79_78 (t0 : Z) :
  2 ^ 28 <= t0 <= 8640000000000000 - 2 * dayMs ->
  let data := [pointAt t0 80; pointAt (t0 + dayMs) 79; pointAt (t0 + 2 * dayMs) 78] in
  exists trend,
    calculateTrendLine data = Some trend
    /\ xValues trend = [JS.of_Z 0; JS.of_Z 1; JS.of_Z 2]
    /\ slope trend = Prim2SF (-1)%float
    /\ JS.mul (slope trend) (List.last (xValues trend) JS.NaN) = Prim2SF (-2)%float
    /\ legendTrend data = Some (Prim2SF (-2)%float, Falling).
Proof.
  intros [Hlo Hhi] data.
  assert (H28 : 0 < 2 ^ 28) by reflexivity.
  assert (H53 : 8640000000000000 < 2 ^ 53) by reflexivity.
  unfold dayMs in *.
  assert (Hx : daysSince (JS.of_Z t0) data = [JS.of_Z 0; JS.of_Z 1; JS.of_Z 2]).
  { unfold data, daysSince, pointAt, dateValue. cbn [List.map date].
    rewrite sub_self by (apply of_Z_isFinite; lia).
    rewrite !days_after by (try reflexivity; lia).
    vm_compute. reflexivity. }
  assert (Ht : calculateTrendLine data
               = Some {| slope := Prim2SF (-1)%float; intercept := Prim2SF 80%float;
                         xValues := [JS.of_Z 0; JS.of_Z 1; JS.of_Z 2];
                         firstDate := JS.of_Z t0 |}).
  { unfold calculateTrendLine. cbn [length Nat.ltb Nat.leb data].
    change (dateValue (pointAt t0 80)) with (JS.of_Z t0).
    fold data. rewrite Hx. f_equal. }
  eexists. split; [exact Ht|]. cbn [xValues slope].
  split; [reflexivity|]. split; [reflexivity|]. split; [vm_compute; reflexivity|].
  unfold legendTrend. rewrite Ht. vm_compute. reflexivity.
Qed.

(** Noon UTC of 1, 2 and 3 March 2025. *)
Lemma trend_of_80_79_78_witness :
  let noon := 1740830400000 in
  let data := [pointAt noon 80; pointAt (noon + dayMs) 79; pointAt (noon + 2 * dayMs) 78] in
  exists trend,
    calculateTrendLine data = Some trend
    /\ xValues trend = [JS.of_Z 0; JS.of_Z 1; JS.of_Z 2]
    /\ slope trend = Prim2SF (-1)%float
    /\ JS.mul (slope trend) (List.last (xValues trend) JS.NaN) = Prim2SF (-2)%float
    /\ legendTrend data = Some (Prim2SF (-2)%float, Falling).
Proof.
  apply (trend_of_80_79_78 1740830400000). unfold dayMs. lia.
Defined.

(** The thresholds of the legend on some net changes. *)
Example classify_examples :
  List.map classify
    [JS.parseFloat "0.11"; JS.parseFloat "0.1"; JS.zero; JS.parseFloat "-0.1";
     JS.parseFloat "-0.11"; Prim2SF (-2)%float; JS.NaN]
  = [Rising; Stable; Stable; Stable; Falling; Falling; Stable].
Proof. vm_compute. reflexivity. Qed.

(** C10: [calculateTrendLine] returns [null] for fewer than two points; for
    two or more points (an array has fewer than 2^32 elements) that all
    carry one and the same valid time value, every x-offset is zero, the
    denominator [n * sumXX - sumX * sumX] of the slope is zero, and the
    slope returned is [NaN]. *)
Theorem calculateTrendLine_equal_dates (data : list point) (t : JS.number) :
  ((length data < 2)%nat -> calculateTrendLine data = None)
  /\ ((2 <= length data)%nat ->
      Z.of_nat (length data) < 2 ^ 32 ->
      JS.isFinite t = true ->
      Forall (fun d => dateValue d = t) data ->
      exists trend,
        calculateTrendLine data = Some trend
        /\ Forall (eq JS.zero) (xValues trend)
        /\ slopeDenominator (JS.of_nat (length data)) (sum (xValues trend))
             (sumSquares (xValues trend)) = JS.zero
        /\ JS.isNaN (slope trend) = true).
Proof.
  unfold calculateTrendLine. split.
  - intros Hn. apply Nat.ltb_lt in Hn. rewrite Hn. reflexivity.
  - intros Hn Hlen Ht Hd. apply Nat.ltb_ge in Hn. rewrite Hn.
    apply Nat.ltb_ge in Hn.
    destruct data as [|first rest] eqn:E; [cbn in Hn; lia|]. rewrite <- E in *.
    assert (Hfirst : dateValue first = t) by (rewrite E in Hd; inversion Hd; assumption).
    rewrite Hfirst, (daysSince_equal_dates t data Ht Hd).
    destruct (of_nat_finite (length data)) as (m & e & Hnf); [lia| |].
    { assert (2 ^ 32 < 2 ^ 53) by reflexivity. lia. }
    eexists. split; [reflexivity|]. cbn [xValues slope].
    rewrite sum_zeros, sumSquares_zeros.
    split; [|split].
    + generalize (length data). intros k. induction k; cbn [repeat]; constructor; auto.
    + apply (slopeDenominator_zeros _ _ _ Hnf).
    + rewrite (slopeDenominator_zeros _ _ _ Hnf).
      rewrite (slope_zeros _ _ _ _ _ Hnf); [reflexivity|].
      apply sumProducts_zeros.
Qed.

(** One weighing gives no trend; two weighings at the same instant give a
    slope that is not a number. *)
Lemma calculateTrendLine_equal_dates_witness :
  calculateTrendLine [pointAt 1740830400000 80] = None
  /\ exists trend,
      calculateTrendLine [pointAt 1740830400000 80; pointAt 1740830400000 79] = Some trend
      /\ Forall (eq JS.zero) (xValues trend)
      /\ slopeDenominator (JS.of_nat 2) (sum (xValues trend))
           (sumSquares (xValues trend)) = JS.zero
      /\ JS.isNaN (slope trend) = true.
Proof.
  split.
  - apply (proj1 (calculateTrendLine_equal_dates
                    [pointAt 1740830400000 80] (JS.of_Z 1740830400000))).
    cbn [length]. lia.
  - apply (proj2 (calculateTrendLine_equal_dates
                    [pointAt 1740830400000 80; pointAt 1740830400000 79]
                    (JS.of_Z 1740830400000))).
    + cbn [length]. lia.
    + reflexivity.
    + reflexivity.
    + repeat constructor.
Defined.

End TrendFacts.

(** ** The entry store *)

Section StoreFacts.
Import DataManager.
Variable Date_parse : string -> option Z.

Local Abbreviation cmp := (byDateDescending Date_parse).
Local Abbreviation sort := (sortEntries Date_parse).
Local Abbreviation ins := (insert (byDateDescending Date_parse)).
Local Abbreviation time := (DataManager.time Date_parse).
Local Abbreviation validDate := (DataManager.validDate Date_parse).
Local Abbreviation valid := (DataManager.valid Date_parse).
Local Abbreviation newerOrEqual := (DataManager.newerOrEqual Date_parse).
Local Abbreviation newestFirst := (DataManager.newestFirst Date_parse).
Local Abbreviation survives := (DataManager.survives Date_parse).
Local Abbreviation wellFormed := (DataManager.wellFormed Date_parse).
Local Abbreviation reachable := (DataManager.reachable Date_parse).

Lemma newerOrEqual_trans : Relations_1.Transitive newerOrEqual.
Proof.
  intros a b c. unfold DataManager.newerOrEqual.
  destruct (time a), (time b), (time c); try tauto. lia.
Qed.

Lemma cmp_newerOrEqual (a b : Entry) :
  validDate a -> validDate b -> (cmp a b <= 0 <-> newerOrEqual a b).
Proof.
  unfold DataManager.validDate, DataManager.newerOrEqual, byDateDescending, DataManager.time.
  destruct (dateOf Date_parse a), (dateOf Date_parse b); try tauto. intros _ _. lia.
Qed.

Lemma cmp_pos_newer (a b : Entry) : 0 < cmp a b -> newerOrEqual b a.
Proof.
  unfold DataManager.newerOrEqual, byDateDescending, DataManager.time.
  destruct (dateOf Date_parse a), (dateOf Date_parse b); lia.
Qed.

Lemma insert_perm (x : Entry) (l : list Entry) : Permutation (ins x l) (x :: l).
Proof.
  induction l as [|y l IH]; cbn [insert]; [reflexivity|].
  destruct (0 <? cmp x y); [|reflexivity].
  rewrite IH. apply perm_swap.
Qed.

Lemma sort_perm (l : list Entry) : Permutation (sort l) l.
Proof.
  unfold sortEntries. induction l as [|x l IH]; cbn [Array_sort]; [reflexivity|].
  rewrite insert_perm. constructor. exact IH.
Qed.

Lemma insert_head (x : Entry) (l : list Entry) :
  (forall y l', l = y :: l' -> cmp x y <= 0) -> ins x l = x :: l.
Proof.
  destruct l as [|y l']; intros H; cbn [insert]; [reflexivity|].
  specialize (H y l' eq_refl).
  destruct (0 <? cmp x y) eqn:E; [apply Z.ltb_lt in E; lia|reflexivity].
Qed.

Lemma insert_sorted (x : Entry) (l : list Entry) :
  validDate x -> Forall validDate l -> newestFirst l -> newestFirst (ins x l).
Proof.
  intros Hx Hl Hs. induction l as [|y l IH]; cbn [insert].
  - repeat constructor.
  - inversion Hl as [|? ? Hy Hl']; subst. inversion Hs as [|? ? Hs' Hhd]; subst.
    destruct (0 <? cmp x y) eqn:E.
    + apply Z.ltb_lt in E. constructor; [apply IH; assumption|].
      destruct l as [|z l]; cbn [insert].
      * constructor. apply cmp_pos_newer, E.
      * destruct (0 <? cmp x z); constructor.
        -- inversion Hhd; assumption.
        -- apply cmp_pos_newer, E.
    + apply Z.ltb_ge in E. constructor; [assumption|]. constructor.
      apply cmp_newerOrEqual; assumption.
Qed.

Lemma Forall_perm {P : Entry -> Prop} (l l' : list Entry) :
  Permutation l l' -> Forall P l -> Forall P l'.
Proof. intros Hp H. eapply Permutation_Forall; eassumption. Qed.

Lemma sort_sorted (l : list Entry) : Forall validDate l -> newestFirst (sort l).
Proof.
  unfold sortEntries. induction l as [|x l IH]; intros H; cbn [Array_sort].
  - constructor.
  - inversion H; subst. apply insert_sorted; auto.
    apply (Forall_perm l); [symmetry; apply sort_perm|assumption].
Qed.

Lemma sorted_sort (l : list Entry) : newestFirst l -> sort l = l.
Proof.
  unfold sortEntries. induction 1 as [|x l Hs IH Hhd]; cbn [Array_sort]; [reflexivity|].
  rewrite IH. apply insert_head. intros y l' ->. inversion Hhd as [|? ? R]; subst.
  unfold DataManager.newerOrEqual, byDateDescending, DataManager.time in *.
  destruct (dateOf Date_parse x), (dateOf Date_parse y); lia.
Qed.

Lemma sort_idempotent (l : list Entry) : Forall validDate l -> sort (sort l) = sort l.
Proof. intros H. apply sorted_sort, sort_sorted, H. Qed.

Lemma sort_app_sort (l1 l2 : list Entry) :
  Forall validDate l2 -> sort (l1 ++ sort l2) = sort (l1 ++ l2).
Proof.
  intros H. induction l1 as [|x l1 IH]; cbn [app].
  - apply sort_idempotent, H.
  - unfold sortEntries in *. cbn [Array_sort]. rewrite IH. reflexivity.
Qed.

Lemma insert_first_of_sorted (x : Entry) (l : list Entry) :
  Forall (newerOrEqual x) l -> ins x l = x :: l.
Proof.
  intros H. apply insert_head. intros y l' ->. inversion H as [|? ? R]; subst.
  unfold DataManager.newerOrEqual, byDateDescending, DataManager.time in *.
  destruct (dateOf Date_parse x), (dateOf Date_parse y); lia.
Qed.

Lemma filter_insert (p : Entry -> bool) (x : Entry) (l : list Entry) :
  validDate x -> Forall validDate l -> newestFirst l ->
  List.filter p (ins x l) = if p x then ins x (List.filter p l) else List.filter p l.
Proof.
  intros Hx Hl Hs. apply Sorted_StronglySorted in Hs; [|exact newerOrEqual_trans].
  induction l as [|y l IH]; cbn [insert List.filter].
  - destruct (p x); reflexivity.
  - inversion Hl as [|? ? Hy Hl']; subst. inversion Hs as [|? ? Hs' Hall]; subst.
    destruct (0 <? cmp x y) eqn:E.
    + cbn [List.filter]. rewrite (IH Hl' Hs').
      destruct (p y), (p x); cbn [insert]; rewrite ?E; reflexivity.
    + apply Z.ltb_ge in E. cbn [List.filter].
      assert (Hxy : newerOrEqual x y) by (apply cmp_newerOrEqual; assumption).
      assert (Hxl : Forall (newerOrEqual x) (y :: l)).
      { constructor; [assumption|]. eapply Forall_impl; [exact Hall|].
        intros z Hz. eapply newerOrEqual_trans; eassumption. }
      destruct (p x); [|reflexivity].
      symmetry. apply insert_first_of_sorted.
      change (Forall (newerOrEqual x) (List.filter p (y :: l))).
      clear -Hxl. induction Hxl as [|z l' Hz _ IH']; cbn [List.filter]; [constructor|].
      destruct (p z); [constructor|]; assumption.
Qed.

Lemma filter_sort (p : Entry -> bool) (l : list Entry) :
  Forall validDate l -> List.filter p (sort l) = sort (List.filter p l).
Proof.
  unfold sortEntries. induction l as [|x l IH]; intros H; [reflexivity|].
  inversion H as [|? ? Hx Hl]; subst. cbn [Array_sort List.filter].
  rewrite filter_insert.
  - rewrite (IH Hl). destruct (p x); reflexivity.
  - exact Hx.
  - apply (Forall_perm l); [symmetry; apply sort_perm|assumption].
  - apply sort_sorted, Hl.
Qed.

Lemma distinct_app (seen : gset string) (l1 l2 : list Entry) :
  distinct seen (l1 ++ l2)
  = (distinct seen l1 ++ distinct (keys l1 ∪ seen) l2)%list.
Proof.
  revert seen. induction l1 as [|e l1 IH]; intros seen; cbn [app distinct].
  - f_equal. unfold DataManager.keys. cbn. set_solver.
  - destruct (decide (key e ∈ seen)) as [Hin|Hout].
    + rewrite IH. do 2 f_equal. unfold DataManager.keys. cbn. set_solver.
    + cbn [app]. rewrite IH. do 3 f_equal. unfold DataManager.keys. cbn. set_solver.
Qed.

Lemma distinct_unseen (seen : gset string) (l : list Entry) :
  Forall (fun e => key e ∉ seen) (distinct seen l).
Proof.
  revert seen. induction l as [|e l IH]; intros seen; cbn [distinct]; [constructor|].
  destruct (decide (key e ∈ seen)) as [Hin|Hout]; [apply IH|].
  constructor; [exact Hout|].
  eapply Forall_impl; [apply IH|]. cbn. intros x Hx. set_solver.
Qed.

Lemma distinct_NoDup (seen : gset string) (l : list Entry) :
  NoDup (List.map key (distinct seen l)).
Proof.
  revert seen. induction l as [|e l IH]; intros seen; cbn [distinct]; [constructor|].
  destruct (decide (key e ∈ seen)) as [Hin|Hout]; [apply IH|].
  cbn [List.map]. constructor; [|apply IH].
  intros Hk. apply list_elem_of_In, in_map_iff in Hk. destruct Hk as (x & Hx & Hin).
  pose proof (distinct_unseen ({[key e]} ∪ seen) l) as H.
  rewrite Forall_forall in H. apply list_elem_of_In in Hin. specialize (H x Hin).
  set_solver.
Qed.

Lemma distinct_filter (seen : gset string) (l : list Entry) :
  NoDup (List.map key l) -> distinct seen l = List.filter (unseen seen) l.
Proof.
  revert seen. induction l as [|e l IH]; intros seen Hnd; cbn [distinct List.filter]; [reflexivity|].
  cbn [List.map] in Hnd. apply NoDup_cons in Hnd. destruct Hnd as [Hk Hnd].
  unfold DataManager.unseen at 1.
  destruct (decide (key e ∈ seen)) as [Hin|Hout].
  - rewrite bool_decide_eq_false_2 by tauto. apply IH, Hnd.
  - rewrite bool_decide_eq_true_2 by assumption. f_equal.
    rewrite (IH _ Hnd). apply filter_ext_in. intros x Hx.
    unfold DataManager.unseen. apply bool_decide_ext.
    assert (key x <> key e).
    { intros Heq. apply Hk. rewrite <- Heq. apply list_elem_of_In, in_map, Hx. }
    set_solver.
Qed.

Lemma filter_unseen_keys (l : list Entry) (seen : gset string) :
  List.filter (unseen (keys l ∪ seen)) l = [].
Proof.
  assert (H : forall l', (forall x, In x l' -> key x ∈ keys l ∪ seen) ->
                          List.filter (unseen (keys l ∪ seen)) l' = []).
  { induction l' as [|x l' IH]; intros Hl'; cbn [List.filter]; [reflexivity|].
    unfold DataManager.unseen at 1. rewrite bool_decide_eq_false_2.
    - apply IH. intros y Hy. apply Hl'. right. exact Hy.
    - intros Hn. apply Hn, Hl'. left. reflexivity. }
  apply H. intros x Hx. apply elem_of_union_l. unfold DataManager.keys.
  apply elem_of_list_to_set, list_elem_of_In, in_map, Hx.
Qed.

Lemma filter_all (p : Entry -> bool) (l : list Entry) :
  Forall (fun e => p e = true) l -> List.filter p l = l.
Proof.
  induction 1 as [|x l Hx _ IH]; cbn [List.filter]; [reflexivity|].
  rewrite Hx, IH. reflexivity.
Qed.

Lemma filter_none (p : Entry -> bool) (l : list Entry) :
  Forall (fun e => p e = false) l -> List.filter p l = [].
Proof.
  induction 1 as [|x l Hx _ IH]; cbn [List.filter]; [reflexivity|].
  rewrite Hx, IH. reflexivity.
Qed.

Lemma stringDate_dec (e : Entry) : {stringDate e} + {~ stringDate e}.
Proof.
  unfold stringDate. destruct (date e) as [| |b|n|x].
  1-4: right; intros [x' H]; discriminate.
  left. exists x. reflexivity.
Qed.

Lemma dedupKey_key (e : Entry) : stringDate e -> dedupKey e = Some (key e).
Proof.
  intros [d H]. unfold DataManager.key, dedupKey, dateKey. rewrite H. reflexivity.
Qed.

Lemma dedupKey_None (e : Entry) : ~ stringDate e -> dedupKey e = None.
Proof.
  unfold stringDate, dedupKey, dateKey. intros H.
  destruct (date e) as [| |b|n|x]; try reflexivity.
  exfalso. apply H. exists x. reflexivity.
Qed.

Lemma dedupKey_Some (e : Entry) : dedupKey e <> None <-> stringDate e.
Proof.
  split.
  - intros H. destruct (stringDate_dec e) as [Hs|Hs]; [exact Hs|].
    exfalso. apply H, dedupKey_None, Hs.
  - intros Hs. rewrite (dedupKey_key e Hs). discriminate.
Qed.

(** When every date is a string the loop of [removeDuplicates] pushes the
    first entry of each key; otherwise it throws. *)
Lemma uniqueEntries_distinct (seen : gset string) (l : list Entry) :
  Forall stringDate l -> uniqueEntries seen l = Some (distinct seen l).
Proof.
  intros H. revert seen. induction H as [|e l He _ IH]; intros seen;
    cbn [uniqueEntries distinct]; [reflexivity|].
  rewrite (dedupKey_key e He).
  destruct (decide (key e ∈ seen)); [apply IH|].
  rewrite IH. reflexivity.
Qed.

Lemma uniqueEntries_throws (seen : gset string) (l : list Entry) :
  ~ Forall stringDate l -> uniqueEntries seen l = None.
Proof.
  revert seen. induction l as [|e l IH]; intros seen H; [exfalso; apply H; constructor|].
  cbn [uniqueEntries].
  destruct (stringDate_dec e) as [He|He]; [|rewrite (dedupKey_None e He); reflexivity].
  rewrite (dedupKey_key e He).
  assert (Hl : ~ Forall stringDate l) by (intros Hl; apply H; constructor; assumption).
  destruct (decide (key e ∈ seen)); [apply IH, Hl|].
  rewrite (IH _ Hl). reflexivity.
Qed.

Lemma Forall_stringDate_dec (l : list Entry) :
  {Forall stringDate l} + {~ Forall stringDate l}.
Proof. apply Forall_dec, stringDate_dec. Qed.

Lemma map_dedupKey (l : list Entry) :
  Forall stringDate l -> List.map dedupKey l = List.map Some (List.map key l).
Proof.
  induction 1 as [|e l He _ IH]; cbn [List.map]; [reflexivity|].
  rewrite (dedupKey_key e He), IH. reflexivity.
Qed.

Lemma NoDup_dedupKey (l : list Entry) :
  Forall stringDate l -> NoDup (List.map key l) -> NoDup (List.map dedupKey l).
Proof.
  intros H Hn. rewrite (map_dedupKey l H).
  apply NoDup_fmap_2; [|exact Hn]. intros x y [= E]. exact E.
Qed.

Lemma key_dedupKey (a b : Entry) :
  stringDate a -> stringDate b -> key a = key b -> dedupKey a = dedupKey b.
Proof. intros Ha Hb E. rewrite (dedupKey_key a Ha), (dedupKey_key b Hb), E. reflexivity. Qed.

(** The two outcomes of [removeDuplicates]. *)
Lemma removeDuplicates_returns (se : string) (s : t) :
  Forall stringDate (entries s) ->
  removeDuplicates se s
  = (Return (length (entries s) - length (distinct ∅ (entries s)))%nat,
     {| entries := distinct ∅ (entries s); localStorage := localStorage s |}).
Proof.
  intros H. unfold removeDuplicates. rewrite (uniqueEntries_distinct ∅ _ H). reflexivity.
Qed.

Lemma removeDuplicates_throws (se : string) (s : t) :
  ~ Forall stringDate (entries s) -> removeDuplicates se s = (ThrowTypeError se, s).
Proof.
  intros H. unfold removeDuplicates. rewrite (uniqueEntries_throws ∅ _ H). reflexivity.
Qed.

(** Merging [valid] into a list already merged, deduplicated and sorted
    changes nothing. *)
Lemma merge_again (valid old : list Entry) :
  Forall validDate valid -> Forall validDate old ->
  sort (distinct ∅ (valid ++ sort (distinct ∅ (valid ++ old))))
  = sort (distinct ∅ (valid ++ old)).
Proof.
  intros Hv Ho.
  rewrite (distinct_app ∅ valid old).
  set (uv := distinct ∅ valid). set (uo := distinct (keys valid ∪ ∅) old).
  assert (Hsub : forall seen l, Forall validDate l -> Forall validDate (distinct seen l)).
  { intros seen l. revert seen. induction l as [|e l IH]; intros seen H; cbn [distinct]; [constructor|].
    inversion H; subst. destruct (decide (key e ∈ seen)); [|constructor]; auto. }
  assert (Huv : Forall validDate uv) by (apply Hsub, Hv).
  assert (Huo : Forall validDate uo) by (apply Hsub, Ho).
  rewrite (distinct_app ∅ valid (sort (uv ++ uo))). fold uv.
  rewrite distinct_filter.
  2:{ assert (P : Permutation (List.map key (sort (uv ++ uo)))
                               (List.map key (uv ++ uo)))
        by apply Permutation_map, sort_perm.
      rewrite P. unfold uv, uo. rewrite <- distinct_app. apply distinct_NoDup. }
  rewrite filter_sort by (apply Forall_app; split; assumption).
  rewrite List.filter_app.
  assert (E1 : List.filter (unseen (keys valid ∪ ∅)) uv = []).
  { apply filter_none. unfold uv.
    assert (H : forall seen l, Forall (fun e => In e l) (distinct seen l)).
    { intros seen l. revert seen. induction l as [|e l IH]; intros seen; cbn [distinct]; [constructor|].
      destruct (decide (key e ∈ seen)).
      - eapply Forall_impl; [apply IH|]. cbn. intros; right; assumption.
      - constructor; [left; reflexivity|]. eapply Forall_impl; [apply IH|]. cbn. intros; right; assumption. }
    eapply Forall_impl; [apply (H ∅ valid)|]. cbn. intros x Hx.
    unfold DataManager.unseen. apply bool_decide_eq_false_2. intros Hn. apply Hn.
    apply elem_of_union_l, elem_of_list_to_set, list_elem_of_In, in_map, Hx. }
  assert (E2 : List.filter (unseen (keys valid ∪ ∅)) uo = uo).
  { apply filter_all. eapply Forall_impl; [apply distinct_unseen|]. cbn.
    intros x Hx. unfold DataManager.unseen. apply bool_decide_eq_true_2, Hx. }
  rewrite E1, E2. cbn [app].
  apply sort_app_sort, Huo.
Qed.

Lemma valid_validDate (e : Entry) : valid e -> validDate e.
Proof.
  unfold DataManager.valid, validateEntry, DataManager.validDate, DataManager.time. intros H Hn. rewrite Hn in H.
  cbn [JSDate.isNaN] in H.
  repeat match type of H with (if ?c then _ else _) = _ => destruct c end; discriminate.
Qed.

Lemma validateEntry_set_id (v : JS.value) (e : Entry) :
  validateEntry Date_parse (set_id v e) = validateEntry Date_parse e.
Proof. reflexivity. Qed.

Lemma validateEntry_set_weight (w : JS.value) (e : Entry) :
  validateEntry Date_parse (set_weight w e) = validateEntry Date_parse e.
Proof. reflexivity. Qed.

Lemma set_id_same (e : Entry) : set_id (id e) e = e.
Proof. destruct e; reflexivity. Qed.

Lemma validateEach_valid fresh te i (A : list (option Entry)) :
  Forall valid (snd (fst (validateEach Date_parse fresh te i A))).
Proof.
  revert i. induction A as [|item A IH]; intros i; cbn [validateEach]; [constructor|].
  specialize (IH (S i)).
  destruct (validateEach Date_parse fresh te (S i) A) as [[A' V] errs].
  destruct item as [e|]; [|exact IH].
  destruct (validateEntry Date_parse e) eqn:E; [|exact IH].
  cbn [fst snd] in *. constructor; [|exact IH]. exact E.
Qed.

Lemma validateEach_counts fresh te i (A : list (option Entry)) :
  let '(A', V, errs) := validateEach Date_parse fresh te i A in
  length V = length (List.filter survives A)
  /\ length errs = length (List.filter (fun x => negb (survives x)) A)
  /\ length A' = length A.
Proof.
  revert i. induction A as [|item A IH]; intros i; cbn [validateEach]; [auto|].
  specialize (IH (S i)).
  destruct (validateEach Date_parse fresh te (S i) A) as [[A' V] errs].
  destruct IH as (H1 & H2 & H3).
  destruct item as [e|]; cbn [List.filter survives negb length].
  - destruct (validateEntry Date_parse e); cbn [negb length]; auto.
  - auto.
Qed.

(** Validating the array again, as the first pass left it, changes nothing:
    every surviving entry already carries its [id]. *)
Lemma validateEach_again fresh fresh' te i (A : list (option Entry)) :
  (forall k, JS.truthy (JS.Num (fresh k)) = true) ->
  let '(A', V, errs) := validateEach Date_parse fresh te i A in
  validateEach Date_parse fresh' te i A' = (A', V, errs).
Proof.
  intros Hf. revert i. induction A as [|item A IH]; intros i; cbn [validateEach]; [reflexivity|].
  specialize (IH (S i)).
  destruct (validateEach Date_parse fresh te (S i) A) as [[A' V] errs].
  destruct item as [e|].
  - destruct (validateEntry Date_parse e) eqn:E; cbn [validateEach]; rewrite IH.
    + rewrite validateEntry_set_id, E. cbn [id set_id].
      rewrite (or_else_keep (JS.or_else (id e) (JS.Num (fresh i)))) by apply or_else_truthy, Hf.
      reflexivity.
    + rewrite E. reflexivity.
  - cbn [validateEach]. rewrite IH. reflexivity.
Qed.

Lemma Forall_valid_validDate (l : list Entry) : Forall valid l -> Forall validDate l.
Proof. intros H. eapply Forall_impl; [exact H|]. exact valid_validDate. Qed.

Lemma validateEach_stringDate fresh te i (A : list (option Entry)) :
  (forall e, In (Some e) A -> stringDate e) ->
  Forall stringDate (snd (fst (validateEach Date_parse fresh te i A))).
Proof.
  revert i. induction A as [|item A IH]; intros i H; cbn [validateEach]; [constructor|].
  specialize (IH (S i) (fun e He => H e (or_intror He))).
  destruct (validateEach Date_parse fresh te (S i) A) as [[A' V] errs].
  destruct item as [e|]; [|exact IH].
  destruct (validateEntry Date_parse e); [|exact IH].
  cbn [fst snd] in *. constructor; [|exact IH].
  apply (H e). left. reflexivity.
Qed.

(** The three outcomes of [importEntries], by the list [V] of the valid
    entries. *)
Lemma importEntries_none fresh te se (A A' : list (option Entry)) errs (s : t) :
  validateEach Date_parse fresh te 0 A = (A', [], errs) ->
  importEntries Date_parse fresh te se A s
  = (Throw "No valid entries to import", A', s).
Proof. intros E. unfold importEntries. rewrite E. reflexivity. Qed.

Lemma importEntries_returns fresh te se (A A' : list (option Entry)) V errs (s : t) :
  validateEach Date_parse fresh te 0 A = (A', V, errs) ->
  V <> [] -> Forall stringDate (V ++ entries s) ->
  importEntries Date_parse fresh te se A s
  = (Return {| imported := length V; errors := errs |}, A',
     saveData {| entries := sort (distinct ∅ (V ++ entries s));
                 localStorage := localStorage s |}).
Proof.
  intros E Hne Hs. unfold importEntries. rewrite E.
  destruct V as [|v V]; [contradiction|]. cbn [length Nat.eqb].
  rewrite removeDuplicates_returns by exact Hs. reflexivity.
Qed.

Lemma importEntries_throws fresh te se (A A' : list (option Entry)) V errs (s : t) :
  validateEach Date_parse fresh te 0 A = (A', V, errs) ->
  V <> [] -> ~ Forall stringDate (V ++ entries s) ->
  importEntries Date_parse fresh te se A s
  = (ThrowTypeError se, A',
     {| entries := (V ++ entries s)%list; localStorage := localStorage s |}).
Proof.
  intros E Hne Hs. unfold importEntries. rewrite E.
  destruct V as [|v V]; [contradiction|]. cbn [length Nat.eqb].
  rewrite removeDuplicates_throws by exact Hs. reflexivity.
Qed.

Lemma distinct_keep (P : Entry -> Prop) (seen : gset string) (l : list Entry) :
  Forall P l -> Forall P (distinct seen l).
Proof.
  revert seen. induction l as [|e l IH]; intros seen H; cbn [distinct]; [constructor|].
  inversion H; subst. destruct (decide (key e ∈ seen)); [|constructor]; auto.
Qed.

(** Importing an array and then importing the same array again leaves the
    store as the first import left it, when the date of every entry, of
    the store and of the array, is a string.  The array is the one object
    both calls receive: the first call has given every surviving entry its
    [id] ([Date.now() + Math.random() + index] is a positive number), so
    the second call validates the same entries, and entries that share a
    key collapse to the copy the first import kept.  Arrays without a valid
    entry are covered too: both calls throw and leave the store alone. *)
Theorem importEntries_twice fresh fresh' te se (A : list (option Entry)) (s : t) :
  (forall k, JS.truthy (JS.Num (fresh k)) = true) ->
  wellFormed s ->
  Forall stringDate (entries s) ->
  (forall e, In (Some e) A -> stringDate e) ->
  let '(r1, A1, s1) := importEntries Date_parse fresh te se A s in
  let '(r2, A2, s2) := importEntries Date_parse fresh' te se A1 s1 in
  s2 = s1 /\ A2 = A1
  /\ match r1 with ThrowTypeError _ => False | _ => True end
  /\ match r2 with ThrowTypeError _ => False | _ => True end.
Proof.
  intros Hf [Hs _] Hsd HA.
  pose proof (validateEach_again fresh fresh' te 0%nat A Hf) as Hagain.
  pose proof (validateEach_valid fresh te 0%nat A) as Hvalid.
  pose proof (validateEach_stringDate fresh te 0%nat A HA) as Hstr.
  destruct (validateEach Date_parse fresh te 0 A) as [[A1 V] errs] eqn:E.
  cbn [fst snd] in Hvalid, Hstr.
  destruct V as [|v V].
  - rewrite (importEntries_none _ _ _ _ _ _ _ E).
    rewrite (importEntries_none _ _ _ _ _ _ _ Hagain). auto.
  - assert (Hall : Forall stringDate ((v :: V) ++ entries s))
      by (apply Forall_app; split; assumption).
    rewrite (importEntries_returns _ _ _ _ _ _ _ _ E) by (discriminate || exact Hall).
    assert (Hall' : Forall stringDate
                      ((v :: V) ++ sort (distinct ∅ ((v :: V) ++ entries s)))).
    { apply Forall_app; split; [exact Hstr|].
      apply (Forall_perm (distinct ∅ ((v :: V) ++ entries s)));
        [symmetry; apply sort_perm|].
      apply distinct_keep, Hall. }
    rewrite (importEntries_returns _ _ _ _ _ _ _ _ Hagain)
      by (discriminate || exact Hall').
    cbn [saveData entries localStorage].
    rewrite merge_again; [auto| |]; [apply Forall_valid_validDate|]; assumption.
Qed.

(** A valid date reads the same after the entry has gone through its JSON
    text. *)
Lemma time_JSON (e : Entry) : validDate e -> time (JSON_entry e) = time e.
Proof.
  unfold DataManager.validDate, DataManager.time, dateOf. cbn [JSON_entry date].
  destruct (date e) as [| |b|n|x]; try reflexivity.
  destruct n as [sg|sg| |sg m ex]; cbn; try reflexivity; intros H; contradiction.
Qed.

Lemma validDate_JSON (e : Entry) : validDate e -> validDate (JSON_entry e).
Proof.
  intros H. unfold DataManager.validDate. rewrite (time_JSON e H). exact H.
Qed.

Lemma Forall_validDate_JSON (l : list Entry) :
  Forall validDate l -> Forall validDate (List.map JSON_entry l).
Proof. induction 1; cbn [List.map]; constructor; auto using validDate_JSON. Qed.

Lemma insert_split (x : Entry) (l : list Entry) :
  exists l1 l2,
    l = (l1 ++ l2)%list /\ ins x l = (l1 ++ x :: l2)%list
    /\ Forall (fun y => 0 < cmp x y) l1
    /\ (forall y l', l2 = y :: l' -> cmp x y <= 0).
Proof.
  induction l as [|y l IH]; cbn [insert].
  - exists [], []. repeat split; try constructor. discriminate.
  - destruct (0 <? cmp x y) eqn:E.
    + destruct IH as (l1 & l2 & H1 & H2 & H3 & H4).
      exists (y :: l1), l2. cbn [app]. rewrite H2, <- H1.
      repeat split; auto. constructor; [apply Z.ltb_lt, E|exact H3].
    + exists [], (y :: l). cbn [app]. repeat split; try constructor.
      intros y' l' [= <- <-]. apply Z.ltb_ge, E.
Qed.

(** C2: for a valid entry whose stored form is not yet in the store,
    [addEntry] then [loadData] gives a list that is newest first and holds
    the entry exactly once, after the entries that are at least as recent
    and before those that are at most as recent.  The stored form is the
    entry with its [id] (its own, or the fresh one) as JSON keeps it. *)
Theorem add_then_load (fresh : JS.number) (e : Entry) (s : t) :
  valid e -> wellFormed s ->
  let stored := JSON_entry (set_id (JS.or_else (id e) (JS.Num fresh)) e) in
  ~ In stored (List.map JSON_entry (entries s)) ->
  let s' := loadData Date_parse (snd (addEntry Date_parse fresh e s)) in
  fst (addEntry Date_parse fresh e s) = Return tt
  /\ newestFirst (entries s')
  /\ exists newer older,
      entries s' = (newer ++ stored :: older)%list
      /\ ~ In stored newer /\ ~ In stored older
      /\ Forall (fun x => newerOrEqual x stored) newer
      /\ Forall (fun x => newerOrEqual stored x) older.
Proof.
  intros He [Hs _] stored Hnew s'.
  assert (Hvd : validDate stored).
  { apply valid_validDate in He. apply validDate_JSON. exact He. }
  assert (Hadd : addEntry Date_parse fresh e s
                 = (Return tt,
                    saveData {| entries := set_id (JS.or_else (id e) (JS.Num fresh)) e :: entries s;
                                localStorage := localStorage s |})).
  { unfold addEntry. unfold DataManager.valid in He. rewrite He. reflexivity. }
  subst s'. rewrite Hadd. cbn [fst snd].
  set (old := sort (List.map JSON_entry (entries s))).
  change (entries (loadData Date_parse _)) with (ins stored old).
  assert (Hold : Forall validDate old).
  { apply (Forall_perm (List.map JSON_entry (entries s))); [symmetry; apply sort_perm|].
    apply Forall_validDate_JSON, Hs. }
  assert (Hsorted : newestFirst old) by (apply sort_sorted, Forall_validDate_JSON, Hs).
  assert (Hnot : ~ In stored old).
  { intros Hin. apply Hnew. eapply Permutation_in; [apply sort_perm|exact Hin]. }
  split; [reflexivity|]. split; [apply insert_sorted; assumption|].
  destruct (insert_split stored old) as (l1 & l2 & H1 & H2 & H3 & H4).
  exists l1, l2. rewrite H2. rewrite H1 in Hnot, Hold, Hsorted.
  split; [reflexivity|].
  split; [intros Hin; apply Hnot, in_or_app; left; exact Hin|].
  split; [intros Hin; apply Hnot, in_or_app; right; exact Hin|].
  split.
  - eapply Forall_impl; [exact H3|]. intros y Hy. apply cmp_pos_newer, Hy.
  - apply Forall_app in Hold. destruct Hold as [_ Hold2].
    apply Sorted_StronglySorted in Hsorted; [|exact newerOrEqual_trans].
    assert (Hs2 : StronglySorted newerOrEqual l2).
    { clear -Hsorted. induction l1; [exact Hsorted|]. inversion Hsorted; auto. }
    destruct l2 as [|y l2]; [constructor|].
    inversion Hold2; subst. inversion Hs2; subst.
    assert (Hxy : newerOrEqual stored y).
    { apply cmp_newerOrEqual; auto. eapply H4; reflexivity. }
    constructor; [exact Hxy|].
    eapply Forall_impl; [eassumption|]. intros z Hz. eapply newerOrEqual_trans; eassumption.
Qed.

Lemma validateEach_none fresh te i (A : list (option Entry)) :
  List.filter survives A = [] ->
  fst (fst (validateEach Date_parse fresh te i A)) = A.
Proof.
  revert i. induction A as [|item A IH]; intros i H; cbn [validateEach]; [reflexivity|].
  cbn [List.filter] in H.
  destruct (survives item) eqn:Es; [discriminate|].
  specialize (IH (S i) H).
  destruct (validateEach Date_parse fresh te (S i) A) as [[A' V] errs].
  cbn [fst] in IH. subst A'.
  destruct item as [e|]; [|reflexivity].
  cbn [survives] in Es. rewrite Es. reflexivity.
Qed.

Lemma validateEach_survivor fresh te i (A : list (option Entry)) (e : Entry) :
  In (Some e) A -> validateEntry Date_parse e = true ->
  exists e', In e' (snd (fst (validateEach Date_parse fresh te i A)))
             /\ dedupKey e' = dedupKey e.
Proof.
  revert i. induction A as [|item A IH]; intros i Hin He; [destruct Hin|].
  cbn [validateEach]. specialize (IH (S i)).
  destruct (validateEach Date_parse fresh te (S i) A) as [[A' V] errs].
  cbn [fst snd] in IH.
  destruct Hin as [-> | Hin].
  - rewrite He. cbn [fst snd]. eexists. split; [left; reflexivity|reflexivity].
  - destruct (IH Hin He) as (e' & Hin' & Hk).
    destruct item as [x|]; [destruct (validateEntry Date_parse x)|];
      cbn [fst snd]; exists e'; split; auto. right. exact Hin'.
Qed.

Lemma distinct_covers (seen : gset string) (l : list Entry) (x : Entry) :
  In x l ->
  key x ∈ seen
  \/ exists y, In y (distinct seen l) /\ key y = key x.
Proof.
  revert seen. induction l as [|e l IH]; intros seen Hin; [destruct Hin|].
  cbn [distinct].
  destruct (decide (key e ∈ seen)) as [He|He].
  - destruct Hin as [-> | Hin]; [left; exact He|apply IH, Hin].
  - destruct Hin as [-> | Hin].
    + right. exists x. split; [left; reflexivity|reflexivity].
    + destruct (IH ({[key e]} ∪ seen) Hin) as [Hs | (y & Hy & Hk)].
      * apply elem_of_union in Hs. destruct Hs as [Hs | Hs].
        -- apply elem_of_singleton in Hs. right. exists e.
           split; [left; reflexivity|symmetry; exact Hs].
        -- left. exact Hs.
      * right. exists y. split; [right; exact Hy|exact Hk].
Qed.

(** [importEntries] validates every element on its own: its report counts
    the survivors and holds one message for each other element.  It throws
    its own error exactly when no element survives, and then the list in
    memory, the storage and the array are as they were.  When an element
    survives, the call returns if the date of every entry at hand, valid
    or already in the store, is a string: every survivor is merged (an
    entry of its key is in the store afterwards) and storage mirrors the
    new list.  If some such date is not a string, the call ends in the
    [TypeError] of [removeDuplicates], with the valid entries put before
    the list in memory and the storage as it was. *)
Theorem importEntries_outcome fresh te se (A : list (option Entry)) (s : t) :
  let '(r, A', s') := importEntries Date_parse fresh te se A s in
  let survivors := List.filter survives A in
  let rejected := List.filter (fun item => negb (survives item)) A in
  let validEntries := snd (fst (validateEach Date_parse fresh te 0 A)) in
  match r with
  | Throw message =>
      message = "No valid entries to import" /\ survivors = [] /\ s' = s /\ A' = A
  | ThrowTypeError message =>
      message = se /\ survivors <> []
      /\ ~ Forall stringDate (validEntries ++ entries s)
      /\ length validEntries = length survivors
      /\ entries s' = (validEntries ++ entries s)%list
      /\ localStorage s' = localStorage s
  | Return report =>
      survivors <> []
      /\ Forall stringDate (validEntries ++ entries s)
      /\ imported report = length survivors
      /\ length (errors report) = length rejected
      /\ (forall e, In (Some e) survivors ->
            dedupKey e <> None
            /\ exists kept, In kept (entries s') /\ dedupKey kept = dedupKey e)
      /\ localStorage s' = Some (List.map JSON_entry (entries s'))
  end.
Proof.
  pose proof (validateEach_counts fresh te 0%nat A) as Hc.
  pose proof (validateEach_none fresh te 0%nat A) as Hn.
  pose proof (fun e => validateEach_survivor fresh te 0%nat A e) as Hsurv.
  destruct (validateEach Date_parse fresh te 0 A) as [[A' V] errs] eqn:E.
  destruct Hc as (Hv & He & _). cbn [fst snd] in Hn, Hsurv.
  destruct V as [|v V].
  - rewrite (importEntries_none _ _ _ _ _ _ _ E).
    assert (Hnil : List.filter survives A = []).
    { destruct (List.filter survives A); [reflexivity|discriminate]. }
    cbn zeta. rewrite Hnil, (Hn Hnil). auto.
  - assert (Hne : List.filter survives A <> []).
    { intros Hnil. rewrite Hnil in Hv. discriminate. }
    destruct (Forall_stringDate_dec ((v :: V) ++ entries s)) as [Hs|Hs].
    + rewrite (importEntries_returns _ _ _ _ _ _ _ _ E) by (discriminate || exact Hs).
      cbn zeta. cbn [imported errors saveData localStorage entries fst snd].
      split; [exact Hne|]. split; [exact Hs|].
      split; [exact Hv|]. split; [exact He|]. split; [|reflexivity].
      intros e Hin. apply List.filter_In in Hin. destruct Hin as [Hin Hsv].
      destruct (Hsurv e Hin Hsv) as (e' & Hin' & Hk).
      assert (He' : stringDate e').
      { rewrite List.Forall_forall in Hs. apply Hs, in_or_app. left. exact Hin'. }
      split; [rewrite <- Hk; apply dedupKey_Some, He'|].
      destruct (distinct_covers ∅ ((v :: V) ++ entries s) e') as [Hempty | (y & Hy & Hky)].
      * apply in_or_app. left. exact Hin'.
      * apply elem_of_empty in Hempty. destruct Hempty.
      * exists y. split; [eapply Permutation_in; [symmetry; apply sort_perm|exact Hy]|].
        rewrite <- Hk. apply key_dedupKey; [|exact He'|exact Hky].
        pose proof (distinct_keep stringDate ∅ _ Hs) as Hd.
        rewrite List.Forall_forall in Hd. apply Hd, Hy.
    + rewrite (importEntries_throws _ _ _ _ _ _ _ _ E) by (discriminate || exact Hs).
      cbn zeta. cbn [localStorage entries fst snd]. repeat split; auto.
Qed.

Lemma filter_out_length {A : Type} (q : A -> bool) (l : list A) :
  (length (List.filter (fun x => negb (q x)) l) <? length l)%nat = existsb q l.
Proof.
  induction l as [|x l IH]; [reflexivity|].
  cbn [List.filter existsb length].
  pose proof (List.filter_length_le (fun x => negb (q x)) l) as Hle.
  destruct (q x); cbn [negb orb length].
  - apply Nat.ltb_lt. lia.
  - exact IH.
Qed.

Lemma filter_out_none {A : Type} (q : A -> bool) (l : list A) :
  existsb q l = false -> List.filter (fun x => negb (q x)) l = l.
Proof.
  induction l as [|x l IH]; [reflexivity|].
  cbn [List.filter existsb]. destruct (q x); cbn [negb orb]; [discriminate|].
  intros H. rewrite (IH H). reflexivity.
Qed.

(** C7: [deleteEntry] returns [true] exactly when some entry has the given
    id; the new list is the old one without the entries of that id; storage
    is written when an entry was removed, and otherwise the list in memory
    and the storage are unchanged. *)
Theorem deleteEntry_outcome (entryId : JS.value) (s : t) :
  let matches := fun e : Entry => JS.strict_eq (id e) entryId in
  let '(deleted, s') := deleteEntry entryId s in
  deleted = existsb matches (entries s)
  /\ entries s' = List.filter (fun e => negb (matches e)) (entries s)
  /\ (if deleted
      then localStorage s' = Some (List.map JSON_entry (entries s'))
      else s' = s).
Proof.
  unfold deleteEntry. cbn [entries].
  rewrite (filter_out_length (fun e : Entry => JS.strict_eq (id e) entryId)).
  destruct (existsb _ (entries s)) eqn:E.
  - cbn [saveData entries localStorage]. auto.
  - cbn [entries]. repeat split; auto.
    rewrite (filter_out_none _ _ E). destruct s; reflexivity.
Qed.

(** C9: validation does not look at the weight.  An entry with one of the
    two types, a non-empty date the host reads and, for a medication entry,
    a truthy dose is accepted with any weight [w] whatever, and [addEntry]
    stores it with that weight, changing nothing but a missing [id]. *)
Theorem weight_is_not_validated (fresh : JS.number) (e : Entry) (w : JS.value) (s : t) :
  (type e = JS.Str "medication" \/ type e = JS.Str "daily") ->
  JS.truthy (date e) = true -> dateOf Date_parse e <> None ->
  (type e = JS.Str "medication" -> JS.truthy (dose e) = true) ->
  let stored := set_id (JS.or_else (id e) (JS.Num fresh)) (set_weight w e) in
  validateEntry Date_parse (set_weight w e) = true
  /\ addEntry Date_parse fresh (set_weight w e) s
     = (Return tt, saveData {| entries := stored :: entries s;
                               localStorage := localStorage s |})
  /\ weight stored = w
  /\ (JS.truthy (id e) = true -> stored = set_weight w e).
Proof.
  intros Htype Hdate Hparse Hdose stored.
  assert (Hv : validateEntry Date_parse (set_weight w e) = true).
  { rewrite validateEntry_set_weight. unfold validateEntry.
    rewrite Hdate.
    destruct (dateOf Date_parse e) eqn:Ep; [|contradiction]. cbn [JSDate.isNaN].
    destruct Htype as [Hm | Hm]; rewrite Hm in *.
    - rewrite (Hdose eq_refl). reflexivity.
    - reflexivity. }
  split; [exact Hv|]. split; [|split].
  - unfold addEntry. rewrite Hv. reflexivity.
  - reflexivity.
  - intros Hid. unfold stored. cbn [id set_weight]. rewrite (or_else_keep _ _ Hid).
    destruct e; reflexivity.
Qed.

(** *** The order after each operation, and the invariant *)

Lemma StronglySorted_filter (p : Entry -> bool) (l : list Entry) :
  StronglySorted newerOrEqual l -> StronglySorted newerOrEqual (List.filter p l).
Proof.
  induction 1 as [|x l Hs IH Hall]; cbn [List.filter]; [constructor|].
  destruct (p x); [|exact IH]. constructor; [exact IH|].
  clear -Hall. induction Hall as [|y l Hy _ IH]; cbn [List.filter]; [constructor|].
  destruct (p y); [constructor|]; assumption.
Qed.

Lemma filter_newestFirst (p : Entry -> bool) (l : list Entry) :
  newestFirst l -> newestFirst (List.filter p l).
Proof.
  intros H. apply StronglySorted_Sorted, StronglySorted_filter.
  apply Sorted_StronglySorted; [exact newerOrEqual_trans|exact H].
Qed.

Lemma Forall_filter_keep (P : Entry -> Prop) (p : Entry -> bool) (l : list Entry) :
  Forall P l -> Forall P (List.filter p l).
Proof.
  induction 1 as [|x l Hx _ IH]; cbn [List.filter]; [constructor|].
  destruct (p x); [constructor|]; assumption.
Qed.

(** After [loadData] the list is newest first. *)
Theorem loadData_newestFirst (s : t) :
  wellFormed s -> newestFirst (entries (loadData Date_parse s)).
Proof. intros [_ H]. apply sort_sorted, H. Qed.

(** [deleteEntry] keeps a list that is newest first in that order. *)
Theorem deleteEntry_newestFirst (entryId : JS.value) (s : t) :
  newestFirst (entries s) -> newestFirst (entries (snd (deleteEntry entryId s))).
Proof.
  intros H. unfold deleteEntry. cbn [entries].
  destruct (_ <? _)%nat; cbn [snd saveData entries]; apply filter_newestFirst, H.
Qed.

Lemma imported_validDate fresh te (A : list (option Entry)) (s : t) :
  Forall validDate (entries s) ->
  Forall validDate (snd (fst (validateEach Date_parse fresh te 0 A)) ++ entries s).
Proof.
  intros H. apply Forall_app. split; [|exact H].
  apply Forall_valid_validDate, validateEach_valid.
Qed.

(** After a successful [importEntries] the list is newest first.  When the
    call throws for want of a valid entry the store is as it was; when it
    ends in the [TypeError] of [removeDuplicates], the valid entries stand
    before the old list, unsorted, and the storage is as it was. *)
Theorem importEntries_newestFirst fresh te se (A : list (option Entry)) (s : t) :
  wellFormed s ->
  let '(r, _, s') := importEntries Date_parse fresh te se A s in
  match r with
  | Return _ => newestFirst (entries s')
  | Throw _ => s' = s
  | ThrowTypeError _ =>
      entries s' = (snd (fst (validateEach Date_parse fresh te 0 A)) ++ entries s)%list
      /\ localStorage s' = localStorage s
  end.
Proof.
  intros [H _].
  pose proof (imported_validDate fresh te A s H) as Hv.
  destruct (validateEach Date_parse fresh te 0 A) as [[A' V] errs] eqn:E.
  cbn [fst snd] in Hv.
  destruct V as [|v V]; [rewrite (importEntries_none _ _ _ _ _ _ _ E); reflexivity|].
  destruct (Forall_stringDate_dec ((v :: V) ++ entries s)) as [Hs|Hs].
  - rewrite (importEntries_returns _ _ _ _ _ _ _ _ E) by (discriminate || exact Hs).
    cbn [saveData entries]. apply sort_sorted, distinct_keep, Hv.
  - rewrite (importEntries_throws _ _ _ _ _ _ _ _ E) by (discriminate || exact Hs).
    cbn [entries localStorage fst snd]. auto.
Qed.

Lemma wellFormed_saveData (s : t) :
  Forall validDate (entries s) -> wellFormed (saveData s).
Proof.
  intros H. split; cbn [saveData entries localStorage default]; [exact H|].
  apply Forall_validDate_JSON, H.
Qed.

Lemma wellFormed_loadData (s : t) : wellFormed s -> wellFormed (loadData Date_parse s).
Proof.
  intros [H1 H2]. split; cbn [loadData entries localStorage]; [|exact H2].
  apply (Forall_perm (default [] (localStorage s))); [symmetry; apply sort_perm|exact H2].
Qed.

Lemma wellFormed_addEntry fresh (e : Entry) (s : t) :
  wellFormed s -> wellFormed (snd (addEntry Date_parse fresh e s)).
Proof.
  intros Hs. unfold addEntry.
  destruct (validateEntry Date_parse e) eqn:E; cbn [negb snd]; [|exact Hs].
  apply wellFormed_saveData. cbn [entries]. constructor; [|apply Hs].
  apply (valid_validDate e E).
Qed.

Lemma wellFormed_deleteEntry (entryId : JS.value) (s : t) :
  wellFormed s -> wellFormed (snd (deleteEntry entryId s)).
Proof.
  intros [H1 H2]. unfold deleteEntry. cbn [entries].
  destruct (_ <? _)%nat; cbn [snd].
  - apply wellFormed_saveData. cbn [entries]. apply Forall_filter_keep, H1.
  - split; cbn [entries localStorage]; [apply Forall_filter_keep, H1|exact H2].
Qed.

Lemma wellFormed_importEntries fresh te se (A : list (option Entry)) (s : t) :
  wellFormed s -> wellFormed (snd (importEntries Date_parse fresh te se A s)).
Proof.
  intros Hs.
  pose proof (imported_validDate fresh te A s (proj1 Hs)) as Hv.
  destruct (validateEach Date_parse fresh te 0 A) as [[A' V] errs] eqn:E.
  cbn [fst snd] in Hv.
  destruct V as [|v V]; [rewrite (importEntries_none _ _ _ _ _ _ _ E); exact Hs|].
  destruct (Forall_stringDate_dec ((v :: V) ++ entries s)) as [Hd|Hd].
  - rewrite (importEntries_returns _ _ _ _ _ _ _ _ E) by (discriminate || exact Hd).
    cbn [snd]. apply wellFormed_saveData. cbn [entries].
    apply (Forall_perm (distinct ∅ ((v :: V) ++ entries s)));
      [symmetry; apply sort_perm|apply distinct_keep, Hv].
  - rewrite (importEntries_throws _ _ _ _ _ _ _ _ E) by (discriminate || exact Hd).
    cbn [snd]. split; cbn [entries localStorage]; [exact Hv|apply Hs].
Qed.

(** Every state the operations reach satisfies the invariant. *)
Theorem reachable_wellFormed (s : t) : reachable s -> wellFormed s.
Proof.
  induction 1 as [|s _ IH|s _ IH|s fresh e _ IH|s i _ IH|s fresh te se A _ IH].
  - split; constructor.
  - split; [constructor|apply IH].
  - apply wellFormed_loadData, IH.
  - apply wellFormed_addEntry, IH.
  - apply wellFormed_deleteEntry, IH.
  - apply wellFormed_importEntries, IH.
Qed.

(** After an import no two entries of the store share their key, and
    every key can be computed. *)
Theorem importEntries_distinct_keys fresh te se (A : list (option Entry)) (s : t) :
  let '(r, _, s') := importEntries Date_parse fresh te se A s in
  match r with
  | Return _ =>
      NoDup (List.map dedupKey (entries s'))
      /\ Forall (fun e => dedupKey e <> None) (entries s')
  | Throw _ => s' = s
  | ThrowTypeError _ =>
      Exists (fun e => dedupKey e = None) (entries s')
      /\ localStorage s' = localStorage s
  end.
Proof.
  destruct (validateEach Date_parse fresh te 0 A) as [[A' V] errs] eqn:E.
  destruct V as [|v V]; [rewrite (importEntries_none _ _ _ _ _ _ _ E); reflexivity|].
  destruct (Forall_stringDate_dec ((v :: V) ++ entries s)) as [Hs|Hs].
  - rewrite (importEntries_returns _ _ _ _ _ _ _ _ E) by (discriminate || exact Hs).
    cbn [saveData entries].
    assert (Hd : Forall stringDate (sort (distinct ∅ ((v :: V) ++ entries s)))).
    { apply (Forall_perm (distinct ∅ ((v :: V) ++ entries s)));
        [symmetry; apply sort_perm|apply distinct_keep, Hs]. }
    split.
    + apply NoDup_dedupKey; [exact Hd|].
      assert (P : Permutation (List.map key (sort (distinct ∅ ((v :: V) ++ entries s))))
                              (List.map key (distinct ∅ ((v :: V) ++ entries s))))
        by apply Permutation_map, sort_perm.
      rewrite P. apply distinct_NoDup.
    + eapply Forall_impl; [exact Hd|]. intros e He. apply dedupKey_Some, He.
  - rewrite (importEntries_throws _ _ _ _ _ _ _ _ E) by (discriminate || exact Hs).
    cbn [entries localStorage]. split; [|reflexivity].
    apply List.neg_Forall_Exists_neg in Hs; [|intros x; apply stringDate_dec].
    eapply List.Exists_impl; [|exact Hs]. intros e He. apply dedupKey_None, He.
Qed.

End StoreFacts.

(** ** The store in the scenario *)

Section StoreExamples.
Import DataManager Scenario.

Lemma store1_wellFormed : wellFormed Date_parse store1.
Proof.
  apply reachable_wellFormed. unfold store1. apply reach_addEntry, reach_new.
Defined.

(** C1: the list is not kept newest-first by [addEntry].  The entry of
    2 March is in the store; adding the entry of 1 March succeeds and puts
    the older entry first. *)
Theorem addEntry_breaks_newest_first :
  reachable Date_parse store1
  /\ newestFirst Date_parse (entries store1)
  /\ fst (addEntry Date_parse fresh march1 store1) = Return tt
  /\ entries (snd (addEntry Date_parse fresh march1 store1)) = [march1; march2]
  /\ ~ newestFirst Date_parse [march1; march2].
Proof.
  assert (E1 : entries store1 = [march2]) by (vm_compute; reflexivity).
  split; [unfold store1; apply reach_addEntry, reach_new|].
  split; [rewrite E1; repeat constructor|].
  split; [vm_compute; reflexivity|].
  split; [vm_compute; reflexivity|].
  intros H. inversion H as [|? ? _ Hhd]; subst.
  inversion Hhd as [|? ? R]; subst. vm_compute in R. apply R. reflexivity.
Qed.

Lemma add_then_load_witness :
  let stored := JSON_entry (set_id (JS.or_else (id march1) (JS.Num fresh)) march1) in
  let s' := loadData Date_parse (snd (addEntry Date_parse fresh march1 store1)) in
  fst (addEntry Date_parse fresh march1 store1) = Return tt
  /\ newestFirst Date_parse (entries s')
  /\ exists newer older,
      entries s' = (newer ++ stored :: older)%list
      /\ ~ In stored newer /\ ~ In stored older
      /\ Forall (fun x => newerOrEqual Date_parse x stored) newer
      /\ Forall (fun x => newerOrEqual Date_parse stored x) older.
Proof.
  apply (add_then_load Date_parse fresh march1 store1).
  - reflexivity.
  - exact store1_wellFormed.
  - intros [H|[]]. discriminate H.
Defined.

Lemma store1_stringDate : Forall stringDate (entries store1).
Proof. repeat constructor. exists "2025-03-02T08:00". reflexivity. Defined.

Lemma importEntries_twice_witness :
  let '(r1, A1, s1) :=
    importEntries Date_parse freshAt typeError splitError
      [Some march3; None; Some weekly; Some march2] store1 in
  let '(r2, A2, s2) := importEntries Date_parse freshAt typeError splitError A1 s1 in
  s2 = s1 /\ A2 = A1
  /\ match r1 with ThrowTypeError _ => False | _ => True end
  /\ match r2 with ThrowTypeError _ => False | _ => True end.
Proof.
  apply (importEntries_twice Date_parse freshAt freshAt typeError splitError
           [Some march3; None; Some weekly; Some march2] store1).
  - intros [|[|k]]; reflexivity.
  - exact store1_wellFormed.
  - exact store1_stringDate.
  - intros e [H|[H|[H|[H|[]]]]]; try discriminate H; injection H as <-;
      eexists; reflexivity.
Defined.

(** C3: importing an array twice is not the same as importing it once when
    an entry that passes the validation has a time stamp for its date.
    [validateEntry] accepts the entry ([new Date] reads a number), the
    import puts it before the list in memory, and [removeDuplicates] then
    throws a [TypeError] at [entry.date.split]: nothing is deduplicated,
    sorted or saved.  The second import puts the entry there once more. *)
Theorem importEntries_twice_time_stamp :
  let '(r1, A1, s1) :=
    importEntries Date_parse freshAt typeError splitError [Some timestamped] store1 in
  let '(r2, A2, s2) := importEntries Date_parse freshAt typeError splitError A1 s1 in
  validateEntry Date_parse timestamped = true
  /\ r1 = ThrowTypeError splitError /\ r2 = ThrowTypeError splitError
  /\ A1 = [Some timestamped] /\ A2 = [Some timestamped]
  /\ entries s1 = [timestamped; march2]
  /\ entries s2 = [timestamped; timestamped; march2]
  /\ s2 <> s1.
Proof.
  vm_compute. repeat split; try reflexivity. discriminate.
Qed.

(** C6: an import fails although an element has passed the validation, and
    the failure does not leave the store as it was.  The one element of the
    array is valid for [validateEntry], its date being a time stamp; the
    import fails all the same, with the [TypeError] of [removeDuplicates]
    and not with "No valid entries to import"; the list in memory has got
    the new entry while the storage still holds the old list.  The JSON
    import leads there: [processJsonImport] accepts the object, and
    [confirmImport] reports the error. *)
Theorem importEntries_time_stamp :
  List.filter (survives Date_parse) [Some timestamped] = [Some timestamped]
  /\ importEntries Date_parse freshAt typeError splitError [Some timestamped] store1
     = (ThrowTypeError splitError, [Some timestamped],
        {| entries := timestamped :: entries store1;
           localStorage := localStorage store1 |})
  /\ localStorage store1 = Some (List.map JSON_entry (entries store1))
  /\ ImportManager.processJsonImport Date_parse freshAt typeError
       (ImportManager.JsonArray [Some (ImportManager.toRaw timestamped)])
     = ImportManager.Preview "Successfully parsed 1 entries from JSON data." false
         [ImportManager.toRaw timestamped]
  /\ ImportManager.confirmImport Date_parse freshAt typeError splitError
       [timestamped] store1
     = (ImportManager.ErrorImporting
          "Error importing data: entry.date.split is not a function",
        [timestamped],
        {| entries := timestamped :: entries store1;
           localStorage := localStorage store1 |}).
Proof. vm_compute. repeat split; reflexivity. Qed.

Lemma weight_is_not_validated_witness :
  let w := JS.Str "heavy" in
  let stored := set_id (JS.or_else (id march1) (JS.Num fresh)) (set_weight w march1) in
  validateEntry Date_parse (set_weight w march1) = true
  /\ addEntry Date_parse fresh (set_weight w march1) store1
     = (Return tt, saveData {| entries := stored :: entries store1;
                               localStorage := localStorage store1 |})
  /\ weight stored = w
  /\ (JS.truthy (id march1) = true -> stored = set_weight w march1).
Proof.
  apply (weight_is_not_validated Date_parse fresh march1 (JS.Str "heavy") store1).
  - right. reflexivity.
  - reflexivity.
  - discriminate.
  - discriminate.
Defined.

Lemma store2_wellFormed : wellFormed Date_parse store2.
Proof.
  apply reachable_wellFormed. unfold store2, store1.
  apply reach_addEntry, reach_addEntry, reach_new.
Defined.

(** The storage of [store2] holds the entry of 1 March before that of
    2 March; [loadData] puts them in order. *)
Lemma loadData_newestFirst_witness :
  newestFirst Date_parse (entries (loadData Date_parse store2)).
Proof. apply (loadData_newestFirst Date_parse store2). exact store2_wellFormed. Defined.

Lemma importEntries_newestFirst_witness :
  let '(r, _, s') :=
    importEntries Date_parse freshAt typeError splitError
      [Some march3; Some march1] store1 in
  match r with
  | Return _ => newestFirst Date_parse (entries s')
  | Throw _ => s' = store1
  | ThrowTypeError _ =>
      entries s'
      = (snd (fst (validateEach Date_parse freshAt typeError 0
                     [Some march3; Some march1])) ++ entries store1)%list
      /\ localStorage s' = localStorage store1
  end.
Proof.
  apply (importEntries_newestFirst Date_parse freshAt typeError splitError
           [Some march3; Some march1] store1).
  exact store1_wellFormed.
Defined.

Lemma store3_entries :
  entries store3 = [set_id (JS.Num (freshAt 0)) march3; march2; march1].
Proof. vm_compute. reflexivity. Defined.

Lemma store3_newestFirst : newestFirst Date_parse (entries store3).
Proof.
  rewrite store3_entries.
  repeat constructor; unfold newerOrEqual; vm_compute; discriminate.
Defined.

(** Of the three entries of [store3] the one of 2 March is deleted: the
    entries of 3 and 1 March stay in their order. *)
Lemma deleteEntry_newestFirst_witness :
  newestFirst Date_parse (entries (snd (deleteEntry (id march2) store3))).
Proof.
  apply (deleteEntry_newestFirst Date_parse (id march2) store3).
  exact store3_newestFirst.
Defined.

(** An import into the scenario's store: two of the four elements survive,
    the entry of 2 March collapses with the one in the store, and the
    list comes out newest first. *)
Example importEntries_scenario :
  let '(r, A', s') :=
    importEntries Date_parse freshAt typeError splitError
      [Some march3; None; Some weekly; Some march2] store1 in
  r = Return {| imported := 2;
                errors := ["Entry 2: Cannot read properties of null (reading 'type')";
                           "Entry 3: Validation failed"] |}
  /\ A' = [Some (set_id (JS.Num (freshAt 0)) march3); None; Some weekly; Some march2]
  /\ entries s' = [set_id (JS.Num (freshAt 0)) march3; march2]
  /\ localStorage s' = Some (entries s').
Proof. vm_compute. repeat split; reflexivity. Qed.

Example dedupKey_examples :
  List.map dedupKey [march1; march3; set_weight (JS.Num (Prim2SF 82.5%float)) march1]
  = [Some "2025-03-01-82.5-daily"; Some "2025-03-03-5mg-medication";
     Some "2025-03-01-82.5-daily"].
Proof. vm_compute. reflexivity. Qed.

Example deleteEntry_scenario :
  deleteEntry (id march2) store1
  = (true, {| entries := []; localStorage := Some [] |})
  /\ deleteEntry (JS.Str "1740913100000") store1 = (false, store1).
Proof. vm_compute. split; reflexivity. Qed.

End StoreExamples.

(** ** The free-text parser *)

Section ParserFacts.
Import ImportManager Scenario.

(** C4: in a browser at UTC+13 the sample of the specification yields its
    two entries with the type, dose, weight and notes stated, but dated
    28 February and 1 March: the date is built at local noon and written by
    [toISOString], which is UTC. *)
Theorem parseTextData_sample_utc_plus_13 (fresh : nat -> JS.number) :
  parseTextData auckland fresh sampleText "2025"
  = Parsed [ {| id := fresh 0%nat; date := "2025-02-28T23:00";
                weight := Prim2SF 82.5%float;
                notes := NotesString "felt fine";
                type := "medication"; dose := JS.Str "5mg" |};
             {| id := fresh 3%nat; date := "2025-03-01T23:00";
                weight := JS.parseFloat "82.1";
                notes := NotesNull; type := "daily"; dose := JS.Null |} ]
  /\ sampleOk (parseTextData auckland fresh sampleText "2025") = false.
Proof. split; vm_compute; reflexivity. Qed.

Lemma sample_all_offsets (fresh : nat -> JS.number) :
  forallb (fun k => sampleOk (parseTextData (-720 + Z.of_nat k) fresh sampleText "2025"))
          (seq 0 1440) = true.
Proof. vm_compute. reflexivity. Qed.

(** Where local noon and UTC fall on the same day, from UTC-11:59 to
    UTC+12:00, the sample yields what the specification says. *)
Theorem sample_parse_in_usual_time_zones (tz : Z) (fresh : nat -> JS.number) :
  -720 <= tz < 720 ->
  sampleOk (parseTextData tz fresh sampleText "2025") = true.
Proof.
  intros H. pose proof (sample_all_offsets fresh) as Hall.
  rewrite List.forallb_forall in Hall.
  specialize (Hall (Z.to_nat (tz + 720))).
  replace (-720 + Z.of_nat (Z.to_nat (tz + 720))) with tz in Hall by lia.
  apply Hall, in_seq. lia.
Qed.

Lemma sample_parse_in_usual_time_zones_witness :
  sampleOk (parseTextData brasilia freshAt sampleText "2025") = true.
Proof.
  apply (sample_parse_in_usual_time_zones brasilia freshAt). unfold brasilia. lia.
Defined.

(** C8: a date header out of range that follows an entry makes the parse
    fail as a whole.  The entry before it is pushed, stays the current one
    and is pushed again at the end; the conversion of the notes then meets
    the same object twice and throws a [TypeError], which the [catch] turns
    into the message "Error parsing data": no entry is produced. *)
Theorem parseTextData_bad_header_after_entry (fresh : nat -> JS.number) :
  parseTextData brasilia fresh (unlines ["01/03 - 82,5 kg"; "32/01 - 70 kg"]) "2025"
  = ErrorParsing TypeError
  /\ parseTextData brasilia fresh
       (unlines ["01/03 - 82,5 kg"; "32/01 - 70 kg"; "02/03 - 82,1 kg"]) "2025"
     = ErrorParsing TypeError.
Proof. split; vm_compute; reflexivity. Qed.

(** A date header out of range that no entry precedes is skipped, and the
    lines after it are parsed. *)
Theorem parseTextData_bad_header_first (fresh : nat -> JS.number) :
  parseTextData brasilia fresh (unlines ["32/01 - 70 kg"]) "2025" = Parsed []
  /\ parseTextData brasilia fresh
       (unlines ["32/01 - 70 kg"; "- no entry yet"; "02/03 - 82,1 kg"]) "2025"
     = Parsed [ {| id := fresh 2%nat; date := "2025-03-02T15:00";
                   weight := JS.parseFloat "82.1"; notes := NotesNull;
                   type := "daily"; dose := JS.Null |} ].
Proof. split; vm_compute; reflexivity. Qed.

End ParserFacts.
(** ** The entry store: the other operations *)

Section SortFacts.
Import DataManager.
Context {A : Type} (cmp : A -> A -> Z) (R : A -> A -> Prop) (ok : A -> Prop).
Hypothesis cmp_pos : forall x y, 0 < cmp x y -> R y x.
Hypothesis cmp_le : forall x y, ok x -> ok y -> cmp x y <= 0 -> R x y.

Lemma Array_insert_perm (x : A) (l : list A) : Permutation (insert cmp x l) (x :: l).
Proof.
  induction l as [|y l IH]; cbn [insert]; [reflexivity|].
  destruct (0 <? cmp x y); [|reflexivity].
  rewrite IH. apply perm_swap.
Qed.

Lemma Array_sort_perm (l : list A) : Permutation (Array_sort cmp l) l.
Proof.
  induction l as [|x l IH]; cbn [Array_sort]; [reflexivity|].
  rewrite Array_insert_perm. constructor. exact IH.
Qed.

Lemma Array_insert_sorted (x : A) (l : list A) :
  ok x -> Forall ok l -> Sorted R l -> Sorted R (insert cmp x l).
Proof.
  intros Hx Hl Hs. induction l as [|y l IH]; cbn [insert].
  - repeat constructor.
  - inversion Hl as [|? ? Hy Hl']; subst. inversion Hs as [|? ? Hs' Hd]; subst.
    destruct (0 <? cmp x y) eqn:E.
    + apply Z.ltb_lt in E. constructor; [apply IH; assumption|].
      destruct l as [|z l]; cbn [insert]; [constructor; apply cmp_pos, E|].
      destruct (0 <? cmp x z); constructor.
      * inversion Hd; assumption.
      * apply cmp_pos, E.
    + apply Z.ltb_ge in E. constructor; [exact Hs|].
      constructor. apply cmp_le; assumption.
Qed.

Lemma Array_sort_sorted (l : list A) : Forall ok l -> Sorted R (Array_sort cmp l).
Proof.
  induction 1 as [|x l Hx Hl IH]; cbn [Array_sort]; [constructor|].
  apply Array_insert_sorted; [exact Hx| |exact IH].
  apply (Permutation_Forall (x := l)); [symmetry; apply Array_sort_perm|exact Hl].
Qed.

End SortFacts.

Section StoreOperations.
Import DataManager.
Variable Date_parse : string -> option Z.

Local Abbreviation time := (DataManager.time Date_parse).
Local Abbreviation validDate := (DataManager.validDate Date_parse).
Local Abbreviation valid := (DataManager.valid Date_parse).
Local Abbreviation newerOrEqual := (DataManager.newerOrEqual Date_parse).
Local Abbreviation newestFirst := (DataManager.newestFirst Date_parse).
Local Abbreviation wellFormed := (DataManager.wellFormed Date_parse).
Local Abbreviation attainable := (DataManager.attainable Date_parse).

Lemma findIndex_Some {A : Type} (p : A -> bool) (l : list A) (i : nat) (x : A) :
  findIndex p l = Some (i, x) ->
  exists before after,
    l = (before ++ x :: after)%list /\ length before = i
    /\ Forall (fun y => p y = false) before /\ p x = true.
Proof.
  revert i. induction l as [|y l IH]; intros i; cbn [findIndex]; [discriminate|].
  destruct (p y) eqn:E.
  - intros [= <- <-]. exists [], l. repeat split; [constructor|exact E].
  - destruct (findIndex p l) as [[j z]|]; [|discriminate].
    intros [= <- <-]. destruct (IH j eq_refl) as (b & a & -> & Hl & Hb & Hx).
    exists (y :: b), a. cbn [length app]. repeat split; auto.
Qed.

Lemma findIndex_None {A : Type} (p : A -> bool) (l : list A) :
  findIndex p l = None -> Forall (fun y => p y = false) l.
Proof.
  induction l as [|y l IH]; cbn [findIndex]; [constructor|].
  destruct (p y) eqn:E; [discriminate|].
  destruct (findIndex p l) as [[j z]|]; [discriminate|]. constructor; auto.
Qed.

Lemma insert_middle {A : Type} (before after : list A) (x y : A) :
  <[ length before := y ]> (before ++ x :: after)%list = (before ++ y :: after)%list.
Proof. induction before as [|z b IH]; cbn; [reflexivity|]. f_equal. exact IH. Qed.

(** X7.  [updateEntry] either throws and leaves the store as it was, with
    "Entry not found" exactly when no entry has the identifier, or it
    replaces the first entry that has the identifier by that entry
    overwritten with the given properties, which passes the validation;
    every other entry stays in its place, and the storage then mirrors
    the list. *)
Theorem updateEntry_outcome (entryId : JS.value) (updatedData : EntryUpdate) (s : t) :
  match updateEntry Date_parse entryId updatedData s with
  | (Throw message, s') =>
      s' = s
      /\ (message = "Entry not found"
            /\ Forall (fun e => JS.strict_eq (id e) entryId = false) (entries s)
          \/ message = "Invalid updated entry data"
            /\ exists e, In e (entries s) /\ JS.strict_eq (id e) entryId = true)
  | (Return updatedEntry, s') =>
      valid updatedEntry
      /\ exists before old after,
           entries s = (before ++ old :: after)%list
           /\ Forall (fun e => JS.strict_eq (id e) entryId = false) before
           /\ JS.strict_eq (id old) entryId = true
           /\ updatedEntry = spread old updatedData
           /\ entries s' = (before ++ updatedEntry :: after)%list
           /\ localStorage s' = Some (List.map JSON_entry (entries s'))
  | (ThrowTypeError _, _) => False
  end.
Proof.
  unfold updateEntry.
  destruct (findIndex _ (entries s)) as [[i old]|] eqn:F.
  - apply findIndex_Some in F. destruct F as (b & a & E & Hl & Hb & Hx).
    destruct (validateEntry Date_parse (spread old updatedData)) eqn:V; cbn [negb].
    + split; [exact V|]. exists b, old, a. cbn [saveData entries localStorage].
      rewrite E, <- Hl, insert_middle. repeat split; auto.
    + split; [reflexivity|]. right. split; [reflexivity|].
      exists old. split; [rewrite E; apply in_or_app; right; left; reflexivity|exact Hx].
  - split; [reflexivity|]. left. split; [reflexivity|]. apply findIndex_None in F. exact F.
Qed.

Lemma newerOrEqual_transitive : Relations_1.Transitive newerOrEqual.
Proof.
  intros a b c. unfold DataManager.newerOrEqual.
  destruct (time a), (time b), (time c); try tauto. lia.
Qed.

Lemma strict_eq_Str (v : JS.value) (t : string) :
  JS.strict_eq v (JS.Str t) = true <-> v = JS.Str t.
Proof.
  destruct v as [| |b|n|x]; cbn [JS.strict_eq]; try (split; discriminate).
  rewrite String.eqb_eq. split; [intros ->; reflexivity|intros [= ->]; reflexivity].
Qed.

(** X8.  In a list that is newest first and holds valid dates only,
    [getLatestEntry] returns an entry of the type asked for that is at
    least as recent as every entry of that type. *)
Theorem getLatestEntry_most_recent (type' : string) (s : t) (e : Entry) :
  newestFirst (entries s) -> Forall validDate (entries s) ->
  getLatestEntry (JS.Str type') s = Some e ->
  type e = JS.Str type' /\ In e (entries s)
  /\ forall x, In x (entries s) -> type x = JS.Str type' -> newerOrEqual e x.
Proof.
  unfold getLatestEntry. intros Hs Hv.
  apply Sorted_StronglySorted in Hs; [|exact newerOrEqual_transitive].
  induction Hs as [|y l Hs IH Hall]; cbn [List.find]; [discriminate|].
  inversion Hv as [|? ? Hy Hv']; subst.
  destruct (JS.strict_eq (type y) (JS.Str type')) eqn:E.
  - intros [= <-]. apply strict_eq_Str in E. split; [exact E|]. split; [left; reflexivity|].
    intros x [<-|Hx] _.
    + unfold DataManager.newerOrEqual. unfold DataManager.validDate in Hy.
      destruct (time y); [lia|congruence].
    + rewrite List.Forall_forall in Hall. apply Hall, Hx.
  - intros F. destruct (IH Hv' F) as (Ht & Hin & Hmax).
    split; [exact Ht|]. split; [right; exact Hin|].
    intros x [<-|Hx] Hty; [|apply Hmax; assumption].
    apply strict_eq_Str in Hty. congruence.
Qed.

(** X9.  After a medication entry has been added, whatever its date, the
    statistics count the days since the last dose from that entry. *)
Theorem daysSinceLastDose_after_addEntry (now : Z) (fresh : JS.number) (e : Entry) (s : t) :
  valid e -> type e = JS.Str "medication" ->
  daysSinceLastDose (getStatistics Date_parse now (snd (addEntry Date_parse fresh e s)))
  = JS.Num (daysSince now (time e)).
Proof.
  unfold DataManager.valid. intros V T. unfold addEntry. rewrite V. cbn [negb snd].
  unfold getStatistics, getLatestEntry. cbn [saveData entries daysSinceLastDose List.find].
  cbn [set_id type]. rewrite T. cbn [JS.strict_eq String.eqb Ascii.eqb Bool.eqb].
  reflexivity.
Qed.

Lemma getWeightEntries_perm (s : t) :
  Permutation (getWeightEntries Date_parse s)
    (List.map (weightEntryOf Date_parse) (List.filter (fun e => JS.truthy (weight e)) (entries s))).
Proof. unfold getWeightEntries. apply Array_sort_perm. Qed.

(** X10.  The list of [getWeightEntries] holds one object for each entry
    with a truthy weight; when all dates of the store are valid, it is in
    chronological order. *)
Theorem getWeightEntries_chronological (s : t) :
  Forall validDate (entries s) ->
  chronological (getWeightEntries Date_parse s)
  /\ Permutation (getWeightEntries Date_parse s)
       (List.map (weightEntryOf Date_parse) (List.filter (fun e => JS.truthy (weight e)) (entries s))).
Proof.
  intros Hv. split; [|apply getWeightEntries_perm].
  unfold DataManager.chronological, getWeightEntries.
  apply (Array_sort_sorted byDateAscending olderOrEqual
           (fun w => WeightEntry.date w <> None)).
  - intros x y. unfold byDateAscending, olderOrEqual.
    destruct (WeightEntry.date x), (WeightEntry.date y); lia.
  - intros x y. unfold byDateAscending, olderOrEqual.
    destruct (WeightEntry.date x), (WeightEntry.date y); try tauto. intros _ _. lia.
  - induction Hv as [|e l He _ IH]; cbn [List.filter List.map]; [constructor|].
    destruct (JS.truthy (weight e)); cbn [List.map]; [constructor|]; auto.
Qed.

Lemma filter_length_zero {A : Type} (p : A -> bool) (l : list A) :
  length (List.filter p l) = O <-> List.find p l = None.
Proof.
  induction l as [|x l IH]; cbn [List.filter List.find]; [tauto|].
  destruct (p x); cbn [length]; [split; discriminate|exact IH].
Qed.

Lemma valid_type (e : Entry) :
  valid e -> type e = JS.Str "medication" \/ type e = JS.Str "daily".
Proof.
  unfold DataManager.valid, validateEntry. cbn [existsb].
  destruct (negb _ || negb _); [discriminate|].
  destruct (JS.strict_eq (type e) (JS.Str "medication")) eqn:E1;
    [left; apply strict_eq_Str, E1|].
  destruct (JS.strict_eq (type e) (JS.Str "daily")) eqn:E2;
    [right; apply strict_eq_Str, E2|]. cbn. discriminate.
Qed.

(** X11.  The statistics are consistent with one another: the number of
    entries with a weight is the number of weight entries; the latest and
    the first weight are [null] exactly when there is none, and then so
    is the change; the days since the last dose are [null] exactly when
    no medication entry is counted; the date range is [null] exactly when
    the store is empty; and when every entry passes the validation, the
    total is the sum of the medication and the daily entries. *)
Theorem getStatistics_consistent (now : Z) (s : t) :
  let st := getStatistics Date_parse now s in
  entriesWithWeight st = length (getWeightEntries Date_parse s)
  /\ (latestWeight st = JS.Null <-> entriesWithWeight st = O)
  /\ (firstWeight st = JS.Null <-> entriesWithWeight st = O)
  /\ (entriesWithWeight st = O -> weightChange st = JS.Null)
  /\ (daysSinceLastDose st = JS.Null <-> medicationEntries st = O)
  /\ (earliest st = None <-> totalEntries st = O)
  /\ (latest st = None <-> totalEntries st = O)
  /\ (Forall valid (entries s) ->
      totalEntries st = (medicationEntries st + dailyEntries st)%nat).
Proof.
  intros st.
  assert (L : entriesWithWeight st = length (getWeightEntries Date_parse s)).
  { unfold st, getStatistics. cbn [entriesWithWeight].
    rewrite (Permutation_length (getWeightEntries_perm s)), length_map. reflexivity. }
  split; [exact L|]. rewrite L. unfold st, getStatistics.
  cbn [latestWeight firstWeight weightChange daysSinceLastDose earliest latest
       totalEntries medicationEntries dailyEntries entriesWithWeight].
  generalize (getWeightEntries Date_parse s). intros ws.
  repeat split.
  - destruct (last ws) eqn:E; [discriminate|]. intros _.
    apply last_None in E. subst. reflexivity.
  - intros H. destruct ws; [reflexivity|discriminate].
  - destruct ws; [reflexivity|discriminate].
  - intros H. destruct ws; [reflexivity|discriminate].
  - intros H. destruct ws; [reflexivity|discriminate].
  - unfold getLatestEntry. intros H. apply filter_length_zero.
    destruct (List.find _ (entries s)); [discriminate|reflexivity].
  - unfold getLatestEntry. intros H. apply filter_length_zero in H. rewrite H. reflexivity.
  - destruct (last (entries s)) eqn:E; [discriminate|]. intros _.
    apply last_None in E. rewrite E. reflexivity.
  - intros H. destruct (entries s); [reflexivity|discriminate].
  - destruct (entries s); [reflexivity|discriminate].
  - intros H. destruct (entries s); [reflexivity|discriminate].
  - induction 1 as [|e l He _ IH]; cbn [List.filter length]; [reflexivity|].
    destruct (valid_type e He) as [T|T]; rewrite T;
      cbn [JS.strict_eq String.eqb Ascii.eqb Bool.eqb length];
      rewrite IH; lia.
Qed.

Lemma wellFormed_updateEntry (entryId : JS.value) (u : EntryUpdate) (s : t) :
  wellFormed s -> wellFormed (snd (updateEntry Date_parse entryId u s)).
Proof.
  intros Hs. unfold updateEntry.
  destruct (findIndex _ (entries s)) as [[i old]|] eqn:F; [|exact Hs].
  destruct (validateEntry Date_parse (spread old u)) eqn:V; cbn [negb snd]; [|exact Hs].
  apply findIndex_Some in F. destruct F as (b & a & E & Hl & _).
  apply wellFormed_saveData. cbn [entries]. rewrite E, <- Hl, insert_middle.
  destruct Hs as [Hs _]. rewrite E in Hs. apply Forall_app in Hs. destruct Hs as [Hb Ha].
  apply Forall_app. split; [exact Hb|]. inversion Ha; subst.
  constructor; [|assumption]. apply (valid_validDate Date_parse _ V).
Qed.

Lemma wellFormed_clearAllData (confirmed : bool) (s : t) :
  wellFormed s -> wellFormed (snd (clearAllData confirmed s)).
Proof.
  intros Hs. unfold clearAllData. destruct confirmed; cbn [snd]; [|exact Hs].
  apply wellFormed_saveData. constructor.
Qed.

(** X12.  Whatever sequence of operations has led to it, loading, adding,
    deleting, importing, updating or clearing, a store holds only entries
    whose date the host reads, in memory and in storage. *)
Theorem attainable_dates_valid (s : t) :
  attainable s ->
  Forall validDate (entries s) /\ Forall validDate (default [] (localStorage s)).
Proof.
  change (attainable s -> wellFormed s).
  induction 1 as [|s _ IH|s _ IH|s fresh e _ IH|s i _ IH|s fresh te se A _ IH
                 |s i u _ IH|s c _ IH].
  - split; constructor.
  - split; [constructor|apply IH].
  - apply wellFormed_loadData, IH.
  - apply wellFormed_addEntry, IH.
  - apply wellFormed_deleteEntry, IH.
  - apply wellFormed_importEntries, IH.
  - apply wellFormed_updateEntry, IH.
  - apply wellFormed_clearAllData, IH.
Qed.

Lemma distinct_length (seen : gset string) (l : list Entry) :
  (length (distinct seen l) <= length l)%nat.
Proof.
  revert seen. induction l as [|e l IH]; intros seen; cbn [distinct length]; [lia|].
  destruct (decide (key e ∈ seen)); cbn [length].
  - specialize (IH seen). lia.
  - specialize (IH ({[key e]} ∪ seen)). lia.
Qed.

Lemma distinct_again (l : list Entry) :
  distinct ∅ (distinct ∅ l) = distinct ∅ l.
Proof.
  rewrite (distinct_filter ∅ (distinct ∅ l)) by apply distinct_NoDup.
  apply filter_all. apply Forall_forall. intros x _.
  unfold DataManager.unseen. apply bool_decide_eq_true_2. set_solver.
Qed.

(** X23.  [removeDuplicates] ends in a [TypeError], leaving the store as
    it is, exactly when the date of some entry is not a string.  Otherwise
    it returns the number of entries it removes; the entries it keeps have
    distinct keys; every entry of the list has its key kept; and a second
    call removes nothing. *)
Theorem removeDuplicates_idempotent (se : string) (s : t) :
  match removeDuplicates se s with
  | (Return removed, s') =>
      Forall stringDate (entries s)
      /\ (removed + length (entries s') = length (entries s))%nat
      /\ NoDup (List.map dedupKey (entries s'))
      /\ (forall e, In e (entries s) ->
            dedupKey e <> None
            /\ exists kept, In kept (entries s') /\ dedupKey kept = dedupKey e)
      /\ removeDuplicates se s' = (Return O, s')
  | (ThrowTypeError message, s') =>
      message = se /\ s' = s /\ Exists (fun e => ~ stringDate e) (entries s)
  | (Throw _, _) => False
  end.
Proof.
  destruct (Forall_stringDate_dec (entries s)) as [Hs|Hs].
  - rewrite (removeDuplicates_returns se s Hs). cbn [entries localStorage].
    pose proof (distinct_length ∅ (entries s)) as L.
    pose proof (distinct_keep stringDate ∅ _ Hs) as Hd.
    split; [exact Hs|]. split; [lia|].
    split; [apply NoDup_dedupKey; [exact Hd|apply distinct_NoDup]|]. split.
    + intros e He.
      assert (Hse : stringDate e) by (rewrite List.Forall_forall in Hs; apply Hs, He).
      split; [apply dedupKey_Some, Hse|].
      destruct (distinct_covers ∅ (entries s) e He) as [H|(kept & Hk & Hkey)];
        [set_solver|].
      exists kept. split; [exact Hk|].
      apply key_dedupKey; [|exact Hse|exact Hkey].
      rewrite List.Forall_forall in Hd. apply Hd, Hk.
    + rewrite removeDuplicates_returns by exact Hd. cbn [entries localStorage].
      rewrite distinct_again, Nat.sub_diag. reflexivity.
  - rewrite (removeDuplicates_throws se s Hs).
    split; [reflexivity|]. split; [reflexivity|].
    apply List.neg_Forall_Exists_neg; [intros x; apply stringDate_dec|exact Hs].
Qed.

Lemma strict_eq_refl (v : JS.value) : JS.truthy v = true -> JS.strict_eq v v = true.
Proof.
  destruct v as [| |b|n|x]; cbn [JS.truthy JS.strict_eq]; try discriminate.
  - destruct b; [reflexivity|discriminate].
  - destruct n as [sg|sg| |sg m e]; try discriminate; intros _.
    + destruct sg; reflexivity.
    + unfold JS.eqb, SFeqb, SFcompare.
      rewrite Z.compare_refl, Pos.compare_cont_refl. destruct sg; reflexivity.
  - intros _. apply String.eqb_refl.
Qed.

(** X24.  Deleting an entry that has just been added under an [id] no other
    entry has gives back the list as it was before, and saves it. *)
Theorem addEntry_then_deleteEntry (fresh : JS.number) (e : Entry) (s : t) :
  valid e -> JS.truthy (id e) = true ->
  Forall (fun x => JS.strict_eq (id x) (id e) = false) (entries s) ->
  deleteEntry (id e) (snd (addEntry Date_parse fresh e s)) = (true, saveData s).
Proof.
  unfold DataManager.valid. intros V T H. unfold addEntry. rewrite V. cbn [negb snd].
  rewrite (or_else_keep _ _ T), set_id_same.
  unfold deleteEntry. cbn [saveData entries localStorage List.filter length].
  rewrite (strict_eq_refl _ T). cbn [negb].
  rewrite (filter_all (fun entry => negb (JS.strict_eq (id entry) (id e))) (entries s)).
  - replace (length (entries s) <? S (length (entries s)))%nat with true
      by (symmetry; apply Nat.ltb_lt; lia).
    reflexivity.
  - eapply Forall_impl; [exact H|]. cbn. intros x ->. reflexivity.
Qed.

End StoreOperations.
(** ** The free-text parser: invariants of the loop *)

Section ParserInvariants.
Import ImportManager.
Variables (tz : Z) (fresh : nat -> JS.number) (year : string).

Local Abbreviation step := (ImportManager.step tz fresh year).
Local Abbreviation loop := (ImportManager.loop tz fresh year).

Lemma heap_pushCurrent (st : loopState) : heap (pushCurrent st) = heap st.
Proof. unfold pushCurrent. destruct (currentEntry st); reflexivity. Qed.

Lemma currentEntry_pushCurrent (st : loopState) :
  currentEntry (pushCurrent st) = currentEntry st.
Proof. unfold pushCurrent. destruct (currentEntry st) eqn:C; [reflexivity|exact C]. Qed.

Lemma chars_append (a b : string) : JS.chars (a ++ b) = (JS.chars a ++ JS.chars b)%list.
Proof.
  unfold JS.chars. induction a as [|c a IH]; [reflexivity|].
  change (String c a ++ b) with (String c (a ++ b)).
  cbn [list_ascii_of_string app]. f_equal. exact IH.
Qed.

Lemma takeStr_nonempty (n : nat) (a b : string) :
  b <> "" -> JS.takeStr (Z.of_nat (S n)) (a ++ b) <> "".
Proof.
  intros Hb. unfold JS.takeStr. rewrite Nat2Z.id, chars_append.
  destruct a as [|c a]; cbn; [|discriminate].
  destruct b as [|c b]; [congruence|]. cbn. discriminate.
Qed.

Lemma date_nonempty (t : Z) : JS.takeStr 16 (JSDate.isoString t) <> "".
Proof.
  unfold JSDate.isoString. destruct (JSDate.civilFromDays _) as [[y m] d].
  apply (takeStr_nonempty 15). discriminate.
Qed.

(** The turns of the loop, by the kind of line. *)
Lemma step_rejected (i : nat) (line : string) (st : loopState) :
  rejectedHeader line = true -> step i line st = inr (pushCurrent st).
Proof.
  unfold rejectedHeader, headerOf, ImportManager.step. cbv zeta.
  destruct (dateMatch (JS.trim line)) as [[[g1 g2] g3]|] eqn:D; [|discriminate].
  intros R. destruct (String.eqb (JS.trim line) "") eqn:B.
  { apply String.eqb_eq in B. rewrite B in D. discriminate. }
  unfold outOfRange in R. rewrite R. reflexivity.
Qed.

Lemma step_accepted (i : nat) (line : string) (st : loopState) :
  acceptedHeader line = true ->
  step i line st = inl RangeError
  \/ exists obj,
       step i line st
       = inr {| heap := (heap st ++ [obj])%list;
                parsedEntries := parsedEntries (pushCurrent st);
                currentEntry := Some (length (heap st)) |}
       /\ notes obj = NotesArray [] /\ wellTyped obj.
Proof.
  unfold acceptedHeader, headerOf, ImportManager.step. cbv zeta.
  destruct (dateMatch (JS.trim line)) as [[[g1 g2] g3]|] eqn:D; [|discriminate].
  intros R. destruct (String.eqb (JS.trim line) "") eqn:B.
  { apply String.eqb_eq in B. rewrite B in D. discriminate. }
  unfold outOfRange in R. apply negb_true_iff in R. rewrite R.
  destruct (JSDate.newDate _ _ _ _ _ _) as [t|]; cbn [JSDate.toISOString option_map];
    [|left; reflexivity].
  right. eexists. rewrite heap_pushCurrent. split; [reflexivity|].
  split; [reflexivity|]. split; cbn [date type dose].
  - apply date_nonempty.
  - left. split; reflexivity.
Qed.

Lemma step_cases (i : nat) (line : string) (st st' : loopState) :
  step i line st = inr st' ->
  st' = st
  \/ rejectedHeader line = true /\ st' = pushCurrent st
  \/ acceptedHeader line = true
     /\ (exists obj,
           st' = {| heap := (heap st ++ [obj])%list;
                    parsedEntries := parsedEntries (pushCurrent st);
                    currentEntry := Some (length (heap st)) |}
           /\ notes obj = NotesArray [] /\ wellTyped obj)
  \/ exists r e e',
       currentEntry st = Some r /\ heap st !! r = Some e
       /\ st' = {| heap := <[ r := e' ]> (heap st);
                   parsedEntries := parsedEntries st;
                   currentEntry := currentEntry st |}
       /\ ((exists d, e' = setMedication (d ++ "mg") e)
           \/ exists items note,
                notes e = NotesArray items /\ note <> ""
                /\ e' = setNotes (NotesArray (items ++ [note])) e).
Proof.
  destruct (acceptedHeader line) eqn:A.
  { destruct (step_accepted i line st A) as [E|(obj & E & Hobj)]; rewrite E;
      [discriminate|].
    intros [= <-]. right; right; left. split; [reflexivity|]. exists obj. auto. }
  destruct (rejectedHeader line) eqn:R.
  { rewrite (step_rejected i line st R). intros [= <-]. right; left. auto. }
  unfold ImportManager.step. cbv zeta.
  destruct (String.eqb (JS.trim line) ""); [intros [= <-]; left; reflexivity|].
  unfold acceptedHeader, rejectedHeader, headerOf in A, R.
  destruct (dateMatch (JS.trim line)) as [[[g1 g2] g3]|] eqn:D.
  { destruct (outOfRange _ _); discriminate. }
  destruct (JS.chars (JS.trim line)) as [|c rest]; [intros [= <-]; left; reflexivity|].
  destruct (currentEntry st) as [r|] eqn:C; [|intros [= <-]; left; reflexivity].
  destruct (Ascii.eqb c "-"); [|intros [= <-]; left; reflexivity].
  destruct (heap st !! r) as [e|] eqn:Hr; [|discriminate].
  destruct (medMatch _) as [g|].
  { intros [= <-]. right; right; right. exists r, e. eexists.
    repeat split; try reflexivity; try assumption. left. eexists. reflexivity. }
  destruct (String.eqb (JS.trim (JS.str rest)) "") eqn:N; cbn [negb];
    [intros [= <-]; left; reflexivity|].
  destruct (notes e) as [items| |] eqn:Hn; try discriminate.
  intros [= <-]. right; right; right. exists r, e. eexists.
  repeat split; try reflexivity; try assumption. right. exists items. eexists.
  repeat split; try assumption. apply String.eqb_neq, N.
Qed.

Lemma step_without_entry (i : nat) (line : string) (st : loopState) :
  currentEntry st = None -> acceptedHeader line = false -> step i line st = inr st.
Proof.
  intros C A. destruct (rejectedHeader line) eqn:R.
  { rewrite (step_rejected i line st R). unfold pushCurrent. rewrite C. reflexivity. }
  unfold ImportManager.step. cbv zeta.
  destruct (String.eqb (JS.trim line) ""); [reflexivity|].
  unfold acceptedHeader, rejectedHeader, headerOf in A, R.
  destruct (dateMatch (JS.trim line)) as [[[g1 g2] g3]|] eqn:D.
  { destruct (outOfRange _ _); discriminate. }
  rewrite C. destruct (JS.chars (JS.trim line)); reflexivity.
Qed.

Lemma loop_app (l1 l2 : list string) (i : nat) (st : loopState) :
  loop i (l1 ++ l2) st
  = match loop i l1 st with
    | inl err => inl err
    | inr st' => loop (i + length l1) l2 st'
    end.
Proof.
  revert i st. induction l1 as [|x l1 IH]; intros i st; cbn [ImportManager.loop app length].
  - rewrite Nat.add_0_r. reflexivity.
  - destruct (step i x st) as [err|st']; [reflexivity|].
    rewrite IH. replace (S i + length l1)%nat with (i + S (length l1))%nat by lia.
    reflexivity.
Qed.

Lemma loop_invariant (P : loopState -> Prop) :
  (forall i line st st', P st -> step i line st = inr st' -> P st') ->
  forall lines i st st', P st -> loop i lines st = inr st' -> P st'.
Proof.
  intros Hstep lines. induction lines as [|x lines IH]; intros i st st' HP;
    cbn [ImportManager.loop].
  - intros [= <-]. exact HP.
  - destruct (step i x st) as [err|st1] eqn:E; [discriminate|].
    apply IH. exact (Hstep _ _ _ _ HP E).
Qed.

(** The objects of the heap keep their shape. *)
Lemma step_openNotes (i : nat) (line : string) (st st' : loopState) :
  Forall openNotes (heap st) -> step i line st = inr st' -> Forall openNotes (heap st').
Proof.
  intros H E. apply step_cases in E.
  destruct E as [->|[[_ ->]|[[_ (obj & -> & Hn & _)]|(r & e & e' & C & Hr & -> & He')]]].
  - exact H.
  - rewrite heap_pushCurrent. exact H.
  - cbn [heap]. apply Forall_app. split; [exact H|]. constructor; [|constructor].
    exists []. split; [exact Hn|constructor].
  - cbn [heap]. apply Forall_insert; [exact H|].
    pose proof (proj1 (Forall_lookup _ _) H r e Hr) as (items & Hi & Hall).
    destruct He' as [(d & ->)|(items' & note & Hi' & Hnote & ->)].
    + exists items. split; [exact Hi|exact Hall].
    + exists (items' ++ [note])%list. split; [reflexivity|].
      rewrite Hi in Hi'. injection Hi' as <-.
      apply Forall_app. split; [exact Hall|]. constructor; [exact Hnote|constructor].
Qed.

Lemma step_wellTyped (i : nat) (line : string) (st st' : loopState) :
  Forall wellTyped (heap st) -> step i line st = inr st' -> Forall wellTyped (heap st').
Proof.
  intros H E. apply step_cases in E.
  destruct E as [->|[[_ ->]|[[_ (obj & -> & _ & Ht)]|(r & e & e' & C & Hr & -> & He')]]].
  - exact H.
  - rewrite heap_pushCurrent. exact H.
  - cbn [heap]. apply Forall_app. split; [exact H|]. constructor; [exact Ht|constructor].
  - cbn [heap]. apply Forall_insert; [exact H|].
    pose proof (proj1 (Forall_lookup _ _) H r e Hr) as [Hd Ht].
    destruct He' as [(d & ->)|(items' & note & _ & _ & ->)]; split; cbn; auto.
    right. split; [reflexivity|]. exists d. reflexivity.
Qed.

Lemma step_keeps_current (i : nat) (line : string) (st st' : loopState) :
  currentEntry st <> None -> step i line st = inr st' -> currentEntry st' <> None.
Proof.
  intros H E. apply step_cases in E.
  destruct E as [->|[[_ ->]|[[_ (obj & -> & _)]|(r & e & e' & C & Hr & -> & He')]]].
  - exact H.
  - rewrite currentEntry_pushCurrent. exact H.
  - discriminate.
  - exact H.
Qed.

Lemma pushedTwice_app (l : list nat) (x : nat) : pushedTwice l -> pushedTwice (l ++ [x]).
Proof.
  intros (r & l1 & l2 & -> & Hin). exists r, l1, (l2 ++ [x])%list.
  split; [rewrite <- app_assoc; reflexivity|]. apply in_or_app. left. exact Hin.
Qed.

Lemma pushedTwice_again (l : list nat) (r : nat) : In r l -> pushedTwice (l ++ [r]).
Proof.
  intros Hin. apply in_split in Hin. destruct Hin as (l1 & l2 & ->).
  exists r, l1, (l2 ++ [r])%list. split; [rewrite <- app_assoc; reflexivity|].
  apply in_or_app. right. left. reflexivity.
Qed.

(** Once an object is shared, the last push puts it twice in the list. *)
Lemma shared_pushedTwice (st : loopState) :
  sharesAnObject st -> pushedTwice (parsedEntries (pushCurrent st)).
Proof.
  intros [(r & C & Hin)|H]; unfold pushCurrent.
  - rewrite C. cbn [parsedEntries]. apply pushedTwice_again, Hin.
  - destruct (currentEntry st); [|exact H]. cbn [parsedEntries]. apply pushedTwice_app, H.
Qed.

Lemma rejected_shares (st : loopState) :
  currentEntry st <> None -> sharesAnObject (pushCurrent st).
Proof.
  intros H. left. unfold pushCurrent. destruct (currentEntry st) as [r|] eqn:C; [|congruence].
  exists r. cbn [currentEntry parsedEntries]. split; [reflexivity|].
  apply in_or_app. right. left. reflexivity.
Qed.

Lemma step_sharesAnObject (i : nat) (line : string) (st st' : loopState) :
  sharesAnObject st -> step i line st = inr st' -> sharesAnObject st'.
Proof.
  intros H E. apply step_cases in E.
  destruct E as [->|[[_ ->]|[[_ (obj & -> & _)]|(r & e & e' & C & Hr & -> & He')]]].
  - exact H.
  - destruct H as [(r & C & Hin)|H].
    + apply rejected_shares. congruence.
    + right. unfold pushCurrent. destruct (currentEntry st); [|exact H].
      apply pushedTwice_app, H.
  - right. cbn [parsedEntries]. apply shared_pushedTwice, H.
  - exact H.
Qed.

(** The conversion of the notes. *)
Lemma join_nonempty (others : list string) (first : string) :
  first <> "" -> fold_left (fun acc x => acc ++ ". " ++ x) others first <> "".
Proof.
  revert first. induction others as [|x others IH]; intros first H; cbn [fold_left];
    [exact H|].
  apply IH. destruct first; [congruence|discriminate].
Qed.

Lemma convertNotes_open (e : ParsedEntry) :
  openNotes e -> exists e', convertNotes e = inr e' /\ closedNotes e'
                            /\ date e' = date e /\ type e' = type e /\ dose e' = dose e.
Proof.
  intros (items & Hi & Hall). unfold convertNotes. rewrite Hi.
  destruct items as [|first others]; eexists; (split; [reflexivity|]); split;
    try (repeat split; reflexivity).
  - left. reflexivity.
  - right. eexists. split; [reflexivity|]. apply join_nonempty.
    inversion Hall; assumption.
Qed.

Lemma convertNotes_closed (e : ParsedEntry) :
  closedNotes e -> convertNotes e = inl TypeError.
Proof.
  intros [H|(text & H & Hne)]; unfold convertNotes; rewrite H; [reflexivity|].
  destruct text; [congruence|reflexivity].
Qed.

Lemma open_not_closed (e : ParsedEntry) : openNotes e -> closedNotes e -> False.
Proof. intros (items & H & _) [H'|(text & H' & _)]; congruence. Qed.

Lemma convertAll_fails (refs : list nat) (h : list ParsedEntry) :
  Forall convertible h ->
  pushedTwice refs
  \/ (exists r e, In r refs /\ h !! r = Some e /\ closedNotes e) ->
  exists err, convertAll refs h = inl err.
Proof.
  revert h. induction refs as [|r0 rest IH]; intros h G H.
  { destruct H as [(r & l1 & l2 & E & _)|(r & e & [] & _)]. destruct l1; discriminate. }
  cbn [convertAll]. destruct (h !! r0) as [e0|] eqn:L; [|eexists; reflexivity].
  destruct (proj1 (Forall_lookup _ _) G r0 e0 L) as [Ho|Hc];
    [|rewrite (convertNotes_closed e0 Hc); eexists; reflexivity].
  destruct (convertNotes_open e0 Ho) as (e0' & E & Hc' & _). rewrite E.
  assert (L' : <[r0:=e0']> h !! r0 = Some e0')
    by (apply list_lookup_insert_eq, (lookup_lt_Some _ _ _ L)).
  apply IH; [apply Forall_insert; [exact G|right; exact Hc']|].
  destruct H as [(r & l1 & l2 & El & Hin)|(r & e & [<-|Hin] & Hr & Hc)].
  - destruct l1 as [|x l1]; injection El as -> ->.
    + right. exists r, e0'. auto.
    + left. exists r, l1, l2. auto.
  - rewrite L in Hr. injection Hr as <-. destruct (open_not_closed e0 Ho Hc).
  - right. destruct (decide (r0 = r)) as [<-|Hne].
    + exists r0, e0'. auto.
    + exists r, e. rewrite list_lookup_insert_ne by exact Hne. auto.
Qed.

Lemma convertAll_closed (refs : list nat) (h h' : list ParsedEntry) :
  Forall convertible h -> convertAll refs h = inr h' ->
  forall r e,
    In r refs \/ (exists e0, h !! r = Some e0 /\ closedNotes e0) ->
    h' !! r = Some e -> closedNotes e.
Proof.
  revert h. induction refs as [|r0 rest IH]; intros h G; cbn [convertAll].
  { intros [= <-] r e [[]|(e0 & L & Hc)] L'. congruence. }
  destruct (h !! r0) as [e0|] eqn:L; [|discriminate].
  destruct (proj1 (Forall_lookup _ _) G r0 e0 L) as [Ho|Hc];
    [|rewrite (convertNotes_closed e0 Hc); discriminate].
  destruct (convertNotes_open e0 Ho) as (e0' & E & Hc' & _). rewrite E.
  assert (L' : <[r0:=e0']> h !! r0 = Some e0')
    by (apply list_lookup_insert_eq, (lookup_lt_Some _ _ _ L)).
  intros C r e Hr. apply (IH _ (Forall_insert _ _ _ _ G (or_intror Hc')) C).
  destruct (decide (r0 = r)) as [<-|Hne]; [right; exists e0'; auto|].
  destruct Hr as [[?|Hin]|(e1 & L1 & Hc1)]; [congruence|left; exact Hin|].
  right. exists e1. rewrite list_lookup_insert_ne by exact Hne. auto.
Qed.

Lemma convertAll_wellTyped (refs : list nat) (h h' : list ParsedEntry) :
  Forall convertible h -> Forall wellTyped h -> convertAll refs h = inr h' ->
  Forall wellTyped h'.
Proof.
  revert h. induction refs as [|r0 rest IH]; intros h G T; cbn [convertAll].
  { intros [= <-]. exact T. }
  destruct (h !! r0) as [e0|] eqn:L; [|discriminate].
  destruct (proj1 (Forall_lookup _ _) G r0 e0 L) as [Ho|Hc];
    [|rewrite (convertNotes_closed e0 Hc); discriminate].
  destruct (convertNotes_open e0 Ho) as (e0' & E & Hc' & Hd & Ht & Hs). rewrite E.
  apply IH; [apply Forall_insert; [exact G|right; exact Hc']|].
  apply Forall_insert; [exact T|].
  pose proof (proj1 (Forall_lookup _ _) T r0 e0 L) as [Td Tt].
  unfold wellTyped. rewrite Hd, Ht, Hs. auto.
Qed.

Lemma loop_openNotes (lines : list string) (st : loopState) :
  loop 0 lines initial = inr st -> Forall convertible (heap st) /\ Forall wellTyped (heap st).
Proof.
  intros E. split.
  - eapply Forall_impl; [|intros e He; left; exact He].
    apply (loop_invariant (fun st => Forall openNotes (heap st)) step_openNotes
                          lines 0%nat initial st); [constructor|exact E].
  - apply (loop_invariant (fun st => Forall wellTyped (heap st)) step_wellTyped
                          lines 0%nat initial st); [constructor|exact E].
Qed.

Lemma split_of_empty (text : string) :
  (2 <= length (JS.split "010" text))%nat -> String.eqb text "" = false.
Proof.
  destruct (String.eqb text "") eqn:B; [|reflexivity].
  apply String.eqb_eq in B. subst. cbn. lia.
Qed.

Lemma Forall_omap_lookup (P : ParsedEntry -> Prop) (h : list ParsedEntry) (refs : list nat) :
  (forall r e, In r refs -> h !! r = Some e -> P e) ->
  Forall P (omap (fun r => h !! r) refs).
Proof.
  induction refs as [|r refs IH]; intros H; cbn [omap list_omap]; [constructor|].
  destruct (h !! r) as [e|] eqn:L.
  - constructor; [apply (H r e); [left; reflexivity|exact L]|].
    apply IH. intros r' e' Hin. apply H. right. exact Hin.
  - apply IH. intros r' e' Hin. apply H. right. exact Hin.
Qed.

(** X6.  A text in which no line is a date line with a day from 1 to 31
    and a month from 1 to 12 yields no entry at all: notes before the
    first accepted date line are dropped, and so are date lines out of
    range. *)
Theorem parseTextData_without_header (text : string) :
  JS.trim text <> "" ->
  Forall (fun line => acceptedHeader line = false) (JS.split "010" (JS.trim text)) ->
  parseTextData tz fresh text year = Parsed [].
Proof.
  intros Hne Hall. unfold parseTextData. cbv zeta.
  apply String.eqb_neq in Hne. rewrite Hne.
  assert (E : forall lines i,
             Forall (fun line => acceptedHeader line = false) lines ->
             loop i lines initial = inr initial).
  { induction lines as [|x lines IH]; intros i H; cbn [ImportManager.loop]; [reflexivity|].
    inversion H; subst. rewrite step_without_entry by (reflexivity || assumption).
    apply IH. assumption. }
  change {| heap := []; parsedEntries := []; currentEntry := None |} with initial.
  rewrite (E _ _ Hall). reflexivity.
Qed.

(** X13.  Whenever a date line whose day or month is out of range comes
    after a date line that has been accepted, the whole parse fails: the
    open entry is pushed a second time later, and the conversion of the
    notes throws on the object it meets twice. *)
Theorem parseTextData_rejected_header_fails (text : string)
    (before between after : list string) (good bad : string) :
  JS.split "010" (JS.trim text) = (before ++ good :: between ++ bad :: after)%list ->
  acceptedHeader good = true -> rejectedHeader bad = true ->
  exists error, parseTextData tz fresh text year = ErrorParsing error.
Proof.
  intros Hsplit Hgood Hbad. unfold parseTextData. cbv zeta.
  rewrite split_of_empty
    by (rewrite Hsplit, length_app; cbn [length]; rewrite length_app; cbn [length]; lia).
  rewrite Hsplit.
  change {| heap := []; parsedEntries := []; currentEntry := None |} with initial.
  destruct (loop 0 _ initial) as [err|st] eqn:L; [eexists; reflexivity|].
  pose proof (loop_openNotes _ _ L) as [G _].
  assert (Hshared : sharesAnObject st).
  { rewrite loop_app in L.
    destruct (loop 0 before initial) as [|st1]; [discriminate|].
    cbn [ImportManager.loop] in L.
    destruct (step _ good st1) as [|st2] eqn:E2; [discriminate|].
    assert (C2 : currentEntry st2 <> None).
    { destruct (step_accepted (0 + length before) good st1 Hgood)
        as [E|(obj & E & _)]; rewrite E in E2; [discriminate|].
      injection E2 as <-. discriminate. }
    rewrite loop_app in L.
    destruct (loop _ between st2) as [|st3] eqn:E3; [discriminate|].
    assert (C3 : currentEntry st3 <> None)
      by exact (loop_invariant _ step_keeps_current _ _ _ _ C2 E3).
    cbn [ImportManager.loop] in L. rewrite (step_rejected _ bad st3 Hbad) in L.
    exact (loop_invariant _ step_sharesAnObject _ _ _ _ (rejected_shares st3 C3) L). }
  rewrite heap_pushCurrent.
  destruct (convertAll_fails (parsedEntries (pushCurrent st)) (heap st) G
              (or_introl (shared_pushedTwice st Hshared))) as (err & ->).
  eexists. reflexivity.
Qed.

Lemma parsed_shape (text : string) (entries : list ParsedEntry) :
  parseTextData tz fresh text year = Parsed entries ->
  Forall (fun e => wellTyped e /\ closedNotes e) entries.
Proof.
  unfold parseTextData. cbv zeta.
  destruct (String.eqb (JS.trim text) ""); [discriminate|].
  change {| heap := []; parsedEntries := []; currentEntry := None |} with initial.
  destruct (loop 0 _ initial) as [err|st] eqn:L; [discriminate|].
  pose proof (loop_openNotes _ _ L) as [G T]. rewrite heap_pushCurrent.
  destruct (convertAll _ (heap st)) as [err|h] eqn:C; [discriminate|].
  intros [= <-]. apply Forall_omap_lookup. intros r e Hin Hr. split.
  - exact (proj1 (Forall_lookup _ _) (convertAll_wellTyped _ _ _ G T C) r e Hr).
  - exact (convertAll_closed _ _ _ G C r e (or_introl Hin) Hr).
Qed.

(** *** One entry for each accepted date line *)

Lemma counted_pushCurrent (st : loopState) :
  (forall r, In r (parsedEntries st) -> (r < length (heap st))%nat) ->
  (forall r, currentEntry st = Some r -> (r < length (heap st))%nat) ->
  (forall r, In r (parsedEntries (pushCurrent st)) -> (r < length (heap st))%nat)
  /\ length (parsedEntries (pushCurrent st)) = (length (parsedEntries st) + openCount st)%nat.
Proof.
  intros B1 B2. unfold pushCurrent, openCount.
  destruct (currentEntry st) as [c|] eqn:C; cbn [parsedEntries].
  - split; [|rewrite length_app; reflexivity].
    intros r Hin. apply in_app_or in Hin. destruct Hin as [Hin|[<-|[]]]; auto.
  - split; [exact B1|lia].
Qed.

Lemma step_counted (i : nat) (line : string) (st st' : loopState) (n : nat) :
  counted st n -> step i line st = inr st' ->
  counted st' (n + (if acceptedHeader line then 1 else 0)).
Proof.
  intros (B1 & B2 & Hc) E.
  destruct (counted_pushCurrent st B1 B2) as [P1 P2].
  assert (Hs : sharesAnObject st -> sharesAnObject st')
    by (intros H; exact (step_sharesAnObject i line st st' H E)).
  destruct (acceptedHeader line) eqn:A.
  - destruct (step_accepted i line st A) as [E'|(obj & E' & _)]; rewrite E' in E;
      [discriminate|]. injection E as <-.
    unfold counted. cbn [heap parsedEntries currentEntry]. rewrite length_app. cbn [length].
    split; [intros r Hr; specialize (P1 r Hr); lia|].
    split; [intros r [= <-]; lia|].
    destruct Hc as [Hc|Hc]; [left; auto|right].
    unfold openCount at 1. cbn [currentEntry]. lia.
  - rewrite Nat.add_0_r. apply step_cases in E.
    destruct E as [->|[[R ->]|[[A' _]|(r & e & e' & C & Hr & -> & _)]]].
    + repeat split; assumption.
    + unfold counted. rewrite heap_pushCurrent. split; [exact P1|]. split.
      * intros r Hr. rewrite currentEntry_pushCurrent in Hr. auto.
      * destruct Hc as [Hc|Hc]; [left; auto|].
        destruct (currentEntry st) as [c|] eqn:C.
        -- left. apply rejected_shares. congruence.
        -- right. unfold pushCurrent. rewrite C. exact Hc.
    + congruence.
    + unfold counted. cbn [heap parsedEntries currentEntry]. rewrite length_insert.
      split; [exact B1|]. split; [exact B2|].
      destruct Hc as [Hc|Hc]; [left; auto|right]. exact Hc.
Qed.

Lemma loop_counted (lines : list string) (i : nat) (st st' : loopState) (n : nat) :
  counted st n -> loop i lines st = inr st' ->
  counted st' (n + length (List.filter acceptedHeader lines)).
Proof.
  revert i st n. induction lines as [|x lines IH]; intros i st n H;
    cbn [ImportManager.loop List.filter].
  - intros [= <-]. rewrite Nat.add_0_r. exact H.
  - destruct (step i x st) as [|st1] eqn:E; [discriminate|]. intros L.
    pose proof (IH _ _ _ (step_counted _ _ _ _ _ H E) L) as H'.
    destruct (acceptedHeader x); cbn [length]; [|rewrite Nat.add_0_r in H'; exact H'].
    replace (n + S (length (List.filter acceptedHeader lines)))%nat
      with (n + 1 + length (List.filter acceptedHeader lines))%nat by lia.
    exact H'.
Qed.

Lemma convertAll_length (refs : list nat) (h h' : list ParsedEntry) :
  convertAll refs h = inr h' -> length h' = length h.
Proof.
  revert h. induction refs as [|r refs IH]; intros h; cbn [convertAll].
  - intros [= <-]. reflexivity.
  - destruct (h !! r); [|discriminate]. destruct (convertNotes _); [discriminate|].
    intros E. rewrite (IH _ E). apply length_insert.
Qed.

Lemma omap_lookup_length (h : list ParsedEntry) (refs : list nat) :
  (forall r, In r refs -> (r < length h)%nat) ->
  length (omap (fun r => h !! r) refs) = length refs.
Proof.
  induction refs as [|r refs IH]; intros H; cbn [omap list_omap length]; [reflexivity|].
  destruct (lookup_lt_is_Some_2 h r (H r (or_introl eq_refl))) as [e ->].
  cbn [length]. f_equal. apply IH. intros r' Hr'. apply H. right. exact Hr'.
Qed.

(** X25.  A successful parse yields exactly one entry for each accepted
    date line of the text: no entry is lost and none is made up. *)
Theorem parseTextData_one_entry_per_header (text : string) (entries : list ParsedEntry) :
  parseTextData tz fresh text year = Parsed entries ->
  length entries
  = length (List.filter acceptedHeader (JS.split "010" (JS.trim text))).
Proof.
  unfold parseTextData. cbv zeta.
  destruct (String.eqb (JS.trim text) ""); [discriminate|].
  change {| heap := []; parsedEntries := []; currentEntry := None |} with initial.
  destruct (loop 0 _ initial) as [err|st] eqn:L; [discriminate|].
  pose proof (loop_openNotes _ _ L) as [G _].
  assert (H0 : counted initial 0).
  { split; [intros r []|]. split; [discriminate|]. right. reflexivity. }
  pose proof (loop_counted _ _ _ _ _ H0 L) as (B1 & B2 & Hc). cbn [Nat.add] in Hc.
  destruct (counted_pushCurrent st B1 B2) as [P1 P2].
  rewrite heap_pushCurrent.
  destruct (convertAll _ (heap st)) as [err|h] eqn:C; [discriminate|].
  intros [= <-]. rewrite omap_lookup_length
    by (rewrite (convertAll_length _ _ _ C); exact P1).
  destruct Hc as [Hc|Hc]; [|lia].
  destruct (convertAll_fails _ _ G (or_introl (shared_pushedTwice st Hc))) as (err & E).
  congruence.
Qed.

(** X14.  Every entry of a successful parse is well formed: its date is
    not empty; it is a daily entry without dose or a medication entry
    whose dose is a text ending in [mg]; and its notes are [null] or a
    non-empty string, never the array of the loop. *)
Theorem parseTextData_entries_shape (text : string) (entries : list ParsedEntry) :
  parseTextData tz fresh text year = Parsed entries ->
  Forall (fun e =>
            date e <> ""
            /\ (type e = "daily" /\ dose e = JS.Null
                \/ type e = "medication" /\ exists d, dose e = JS.Str (d ++ "mg"))
            /\ (notes e = NotesNull
                \/ exists text, notes e = NotesString text /\ text <> ""))
         entries.
Proof.
  intros H. apply parsed_shape in H. eapply Forall_impl; [exact H|].
  intros e [[Hd Ht] Hn]. auto.
Qed.

End ParserInvariants.
(** ** From the preview to the store, and the JSON import *)

Section ImportFacts.
Variable Date_parse : string -> option Z.

Local Abbreviation valid := (DataManager.valid Date_parse).
Local Abbreviation ParsedEntry := ImportManager.ParsedEntry.
Local Abbreviation wellTyped := ImportManager.wellTyped.
Local Abbreviation closedNotes := ImportManager.closedNotes.
Local Abbreviation toEntry := ImportManager.toEntry.
Local Abbreviation toEntries := ImportManager.toEntries.
Local Abbreviation parsedDate := ImportManager.date.
Local Abbreviation confirmImport := ImportManager.confirmImport.
Local Abbreviation acceptable := ImportManager.acceptable.
Local Abbreviation toRaw := ImportManager.toRaw.

Lemma truthy_Str (s : string) : JS.truthy (JS.Str s) = true <-> s <> "".
Proof.
  cbn [JS.truthy]. rewrite negb_true_iff. split.
  - intros H. apply String.eqb_neq, H.
  - intros H. apply String.eqb_neq, H.
Qed.

Lemma append_nonempty (a b : string) : b <> "" -> a ++ b <> "".
Proof. destruct a as [|c a]; [exact (fun H => H)|discriminate]. Qed.

(** An entry of the parser passes the validation of the store as soon as
    the host reads its date. *)
Lemma toEntry_valid (e : ParsedEntry) :
  wellTyped e -> closedNotes e -> Date_parse (parsedDate e) <> None ->
  exists entry, toEntry e = Some entry /\ valid entry.
Proof.
  intros [Hd Ht] Hn Hp.
  assert (V : forall n, valid (Build_Entry (JS.Num (ImportManager.id e))
                                           (JS.Str (ImportManager.type e))
                                           (JS.Str (parsedDate e))
                                           (JS.Num (ImportManager.weight e))
                                           n (ImportManager.dose e))).
  { intros n. unfold DataManager.valid, DataManager.validateEntry, DataManager.dateOf.
    cbn [type date dose JSDate.newDateOf].
    assert (Hdate : JS.truthy (JS.Str (parsedDate e)) = true) by (apply truthy_Str, Hd).
    rewrite Hdate. destruct (Date_parse (parsedDate e)); [|congruence]. cbn [JSDate.isNaN].
    destruct Ht as [[-> ->]|[-> (d & ->)]]; cbn; [reflexivity|].
    assert (Hdose : JS.truthy (JS.Str (d ++ "mg")) = true)
      by (apply truthy_Str, append_nonempty; discriminate).
    cbn [JS.truthy] in Hdose. rewrite Hdose. reflexivity. }
  unfold ImportManager.toEntry.
  destruct Hn as [->|(text & -> & _)]; eexists; split; try reflexivity; apply V.
Qed.

Lemma toEntry_stringDate (e : ParsedEntry) (entry : Entry) :
  toEntry e = Some entry -> DataManager.stringDate entry.
Proof.
  unfold ImportManager.toEntry.
  destruct (ImportManager.notes e); [discriminate| |]; intros [= <-];
    eexists; reflexivity.
Qed.

Lemma toEntries_valid (es : list ParsedEntry) :
  Forall (fun e => wellTyped e /\ closedNotes e) es ->
  Forall (fun e => Date_parse (parsedDate e) <> None) es ->
  exists entries,
    toEntries es = Some entries /\ length entries = length es
    /\ Forall valid entries /\ Forall DataManager.stringDate entries.
Proof.
  induction 1 as [|e es [Ht Hn] _ IH]; intros Hp.
  - exists []. repeat split; constructor.
  - inversion Hp as [|? ? He Hp']; subst.
    destruct (IH Hp') as (entries & E & L & V & S).
    destruct (toEntry_valid e Ht Hn He) as (entry & E1 & V1).
    exists (entry :: entries). cbn [ImportManager.toEntries]. rewrite E1, E. cbn [length].
    repeat split; [congruence|constructor; assumption|].
    constructor; [apply (toEntry_stringDate e), E1|exact S].
Qed.

Lemma validateEach_all_valid fresh te (i : nat) (l : list Entry) :
  Forall valid l -> Forall DataManager.stringDate l ->
  exists l',
    DataManager.validateEach Date_parse fresh te i (List.map Some l)
    = (List.map Some l', l', [])
    /\ length l' = length l /\ Forall DataManager.stringDate l'.
Proof.
  intros H. revert i. induction H as [|e l He _ IH]; intros i Hs;
    cbn [List.map DataManager.validateEach].
  - exists []. repeat split. constructor.
  - inversion Hs as [|? ? Se Sl]; subst.
    destruct (IH (S i) Sl) as (l' & -> & L & Hs'). unfold DataManager.valid in He. rewrite He.
    eexists (_ :: l'). split; [reflexivity|]. cbn [length]. split; [congruence|].
    constructor; [exact Se|exact Hs'].
Qed.

(** X15.  When the free text parses to at least one entry, the host reads
    the dates of the entries, and the dates of the entries already in the
    store are strings, [confirmImport] imports every entry of the preview:
    the store reports as many imported entries as the preview held and
    no error, and the preview is emptied. *)
Theorem text_import_accepts_all (tz : Z) (fresh fresh' : nat -> JS.number)
    (text year typeError splitError : string) (es : list ParsedEntry)
    (s : DataManager.t) :
  ImportManager.parseTextData tz fresh text year = ImportManager.Parsed es ->
  es <> [] ->
  Forall (fun e => Date_parse (parsedDate e) <> None) es ->
  Forall DataManager.stringDate (DataManager.entries s) ->
  exists entries s',
    toEntries es = Some entries
    /\ confirmImport Date_parse fresh' typeError splitError entries s
       = (ImportManager.SuccessfullyImported
            ("Successfully imported " ++ JS.decimalDigits (Z.of_nat (length es))
               ++ " entries!"),
          [], s').
Proof.
  intros Hparse Hne Hdates Hstore. apply parsed_shape in Hparse.
  destruct (toEntries_valid es Hparse Hdates) as (entries & E & L & V & S).
  exists entries. unfold ImportManager.confirmImport.
  destruct (validateEach_all_valid fresh' typeError 0 entries V S) as (l' & Ev & L' & S').
  assert (Hlen : (length entries =? 0)%nat = false)
    by (apply Nat.eqb_neq; rewrite L; destruct es; [congruence|discriminate]).
  rewrite Hlen.
  rewrite (importEntries_returns Date_parse fresh' typeError splitError _ _ _ _ s Ev).
  - cbn [DataManager.imported DataManager.errors length Nat.ltb Nat.leb].
    rewrite L', L. eexists. split; [exact E|reflexivity].
  - intros ->. cbn [length] in L'. rewrite <- L' in Hlen. discriminate.
  - apply Forall_app. split; assumption.
Qed.

(** *** The JSON import *)

Lemma acceptable_toRaw (e : Entry) :
  acceptable Date_parse (toRaw e)
  = JS.truthy (id e) && DataManager.validateEntry Date_parse e.
Proof.
  destruct e as [i t d w n ds].
  unfold ImportManager.acceptable, DataManager.validateEntry, ImportManager.toRaw,
    ImportManager.isEntryType, DataManager.dateOf.
  cbn [ImportManager.raw_id ImportManager.raw_type ImportManager.raw_date
       ImportManager.raw_dose id type date dose].
  destruct (JS.truthy i); cbn [negb orb andb]; [|reflexivity].
  reflexivity.
Qed.

(** X16.  The checks of the JSON import agree with the validation of the
    store: the import accepts an object exactly when it has a truthy [id]
    and [validateEntry] accepts it as an entry. *)
Theorem acceptable_agrees_with_validateEntry (e : Entry) :
  acceptable Date_parse (toRaw e) = true
  <-> JS.truthy (id e) = true /\ DataManager.validateEntry Date_parse e = true.
Proof. rewrite acceptable_toRaw. apply andb_true_iff. Qed.

Lemma validateJson_spec fresh (i : nat) (elements : list (option ImportManager.RawEntry)) :
  Forall2 ImportManager.cleaned
          (fst (ImportManager.validateJson Date_parse fresh i elements))
          (ImportManager.acceptedEntries Date_parse elements)
  /\ (length (fst (ImportManager.validateJson Date_parse fresh i elements))
      + snd (ImportManager.validateJson Date_parse fresh i elements)
      = length elements)%nat.
Proof.
  revert i. induction elements as [|x l IH]; intros i;
    cbn [ImportManager.validateJson ImportManager.acceptedEntries omap list_omap].
  - split; [constructor|reflexivity].
  - specialize (IH (S i)).
    destruct (ImportManager.validateJson Date_parse fresh (S i) l) as [validated errorCount].
    cbn [fst snd] in IH. destruct IH as [IH1 IH2].
    destruct x as [entry|]; [destruct (acceptable Date_parse entry)|]; cbn [fst snd length].
    + split; [constructor; [eexists; reflexivity|exact IH1]|lia].
    + split; [exact IH1|lia].
    + split; [exact IH1|lia].
Qed.

Lemma acceptedEntries_acceptable (elements : list (option ImportManager.RawEntry)) :
  Forall (fun e => acceptable Date_parse e = true)
         (ImportManager.acceptedEntries Date_parse elements).
Proof.
  induction elements as [|x l IH]; cbn [ImportManager.acceptedEntries omap list_omap];
    [constructor|].
  destruct x as [entry|]; [|exact IH].
  destruct (acceptable Date_parse entry) eqn:A; [constructor; assumption|exact IH].
Qed.

Lemma cleanId_number (fresh : JS.number) (v : JS.value) :
  exists n, ImportManager.cleanId fresh v = JS.Num n.
Proof.
  unfold ImportManager.cleanId, JS.or_else.
  destruct (JS.parseInt _); [destruct (JS.truthy _)|]; eexists; reflexivity.
Qed.

Lemma cleanEntry_valid (fresh : JS.number) (r : ImportManager.RawEntry) :
  acceptable Date_parse r = true ->
  valid (ImportManager.ofRaw (ImportManager.cleanEntry fresh r)).
Proof.
  destruct r as [i t d w n ds].
  unfold ImportManager.acceptable, ImportManager.ofRaw, ImportManager.cleanEntry,
    ImportManager.isEntryType.
  cbn [ImportManager.raw_id ImportManager.raw_type ImportManager.raw_date
       ImportManager.raw_weight ImportManager.raw_notes ImportManager.raw_dose].
  intros A. unfold DataManager.valid, DataManager.validateEntry, DataManager.dateOf.
  cbn [type date dose].
  destruct (JS.truthy i); cbn [negb orb] in A; [|discriminate].
  destruct (negb (JS.truthy t) || negb (JS.truthy d)); [discriminate|].
  destruct (negb (existsb _ _)); [discriminate|].
  destruct (JSDate.isNaN _); [discriminate|].
  destruct (JS.strict_eq t (JS.Str "medication")); cbn [andb] in *; [|reflexivity].
  destruct (negb (JS.truthy ds)); [discriminate|reflexivity].
Qed.

(** X17.  [processJsonImport] reports an error when the data is no array
    and no backup, or when none of its elements passes the checks.
    Otherwise the preview holds the clean object of each element that
    passes, in order; the warning is shown exactly when an element has
    been skipped; the [id] of a clean object is a number; and every clean
    object passes [validateEntry]. *)
Theorem processJsonImport_outcome fresh (typeError : string) (data : ImportManager.jsonData) :
  match ImportManager.entriesOf data,
        ImportManager.processJsonImport Date_parse fresh typeError data with
  | None, ImportManager.ErrorProcessing _ => True
  | None, ImportManager.Preview _ _ _ => False
  | Some elements, ImportManager.ErrorProcessing _ =>
      ImportManager.acceptedEntries Date_parse elements = []
  | Some elements, ImportManager.Preview _ warning validatedEntries =>
      validatedEntries <> []
      /\ Forall2 ImportManager.cleaned validatedEntries
                 (ImportManager.acceptedEntries Date_parse elements)
      /\ (warning = true <-> (length validatedEntries < length elements)%nat)
      /\ Forall (fun c => exists n, ImportManager.raw_id c = JS.Num n) validatedEntries
      /\ Forall (fun c => valid (ImportManager.ofRaw c))
                validatedEntries
  end.
Proof.
  assert (H : forall elements,
    match ImportManager.processJsonImport Date_parse fresh typeError
            (ImportManager.JsonArray elements) with
    | ImportManager.ErrorProcessing _ =>
        ImportManager.acceptedEntries Date_parse elements = []
    | ImportManager.Preview _ warning validatedEntries =>
        validatedEntries <> []
        /\ Forall2 ImportManager.cleaned validatedEntries
                   (ImportManager.acceptedEntries Date_parse elements)
        /\ (warning = true <-> (length validatedEntries < length elements)%nat)
        /\ Forall (fun c => exists n, ImportManager.raw_id c = JS.Num n) validatedEntries
        /\ Forall (fun c => valid (ImportManager.ofRaw c))
                  validatedEntries
    end).
  { intros elements. unfold ImportManager.processJsonImport.
    pose proof (validateJson_spec fresh 0 elements) as [F L].
    pose proof (acceptedEntries_acceptable elements) as Acc.
    destruct (ImportManager.validateJson Date_parse fresh 0 elements)
      as [validated errorCount].
    cbn [fst snd] in F, L.
    destruct (length validated =? 0)%nat eqn:Z.
    { apply Nat.eqb_eq in Z. destruct validated; [|discriminate].
      inversion F. reflexivity. }
    assert (Hne : validated <> []) by (intros ->; discriminate).
    assert (Hid : Forall (fun c => exists n, ImportManager.raw_id c = JS.Num n) validated).
    { clear -F. induction F as [|c e cs es [f ->] _ IH]; constructor; [|exact IH].
      apply cleanId_number. }
    assert (Hv : Forall (fun c => valid (ImportManager.ofRaw c))
                        validated).
    { clear -F Acc. induction F as [|c r cs rs [f ->] _ IH]; [constructor|].
      inversion Acc; subst. constructor; [|apply IH; assumption].
      apply cleanEntry_valid. assumption. }
    destruct (0 <? errorCount)%nat eqn:W.
    - apply Nat.ltb_lt in W. repeat split; auto. lia.
    - apply Nat.ltb_ge in W. repeat split; auto; [discriminate|lia]. }
  destruct data as [elements|elements| |]; cbn [ImportManager.entriesOf];
    [apply H|apply H|exact I|exact I].
Qed.

(** X18.  A backup of a store whose entries, as the backup holds them, pass
    the validation and have an [id] reads back completely: the JSON import
    accepts every entry, in order, without a warning. *)
Theorem backup_reads_back fresh (typeError exportDate : string) (s : DataManager.t) :
  DataManager.entries s <> [] ->
  Forall (fun e => valid (JSON_entry e) /\ JS.truthy (id (JSON_entry e)) = true)
         (DataManager.entries s) ->
  exists message validatedEntries,
    ImportManager.processJsonImport Date_parse fresh typeError
      (ImportManager.backupData (DataManager.createBackup exportDate s))
    = ImportManager.Preview message false validatedEntries
    /\ Forall2 (fun c e => ImportManager.cleaned c (toRaw (JSON_entry e)))
               validatedEntries (DataManager.entries s).
Proof.
  intros Hne Hall.
  unfold ImportManager.backupData, DataManager.createBackup, ImportManager.processJsonImport.
  cbn [DataManager.backupEntries].
  set (elements := List.map (fun e => Some (toRaw e))
                            (List.map JSON_entry (DataManager.entries s))).
  assert (Hacc : ImportManager.acceptedEntries Date_parse elements
                 = List.map (fun e => toRaw (JSON_entry e)) (DataManager.entries s)).
  { unfold elements. clear Hne.
    induction Hall as [|e l [V T] _ IH];
      cbn [List.map ImportManager.acceptedEntries omap list_omap]; [reflexivity|].
    rewrite acceptable_toRaw, T, V. cbn [andb]. f_equal. exact IH. }
  pose proof (validateJson_spec fresh 0 elements) as [F L].
  destruct (ImportManager.validateJson Date_parse fresh 0 elements)
    as [validated errorCount].
  cbn [fst snd] in F, L. rewrite Hacc in F.
  pose proof (Forall2_length _ _ _ F) as Hlen. rewrite length_map in Hlen.
  assert (Hel : length elements = length (DataManager.entries s))
    by (unfold elements; rewrite !length_map; reflexivity).
  assert (Z : (length validated =? 0)%nat = false).
  { apply Nat.eqb_neq. rewrite Hlen. destruct (DataManager.entries s); [congruence|discriminate]. }
  assert (W : (0 <? errorCount)%nat = false) by (apply Nat.ltb_ge; lia).
  rewrite Z, W. eexists. exists validated. split; [reflexivity|].
  clear -F. revert F. generalize (DataManager.entries s). intros l. revert validated.
  induction l as [|e l IH]; intros validated F; inversion F; subst; constructor; auto.
Qed.

Lemma message_if (b : bool) (x : string) : (if b then [x] else []) = [] <-> b = false.
Proof. destruct b; split; (reflexivity || discriminate). Qed.

(** X19.  [validateImportData] returns no message exactly when
    [validateEntry] accepts every entry of the list. *)
Theorem validateImportData_agrees_with_validateEntry (index : nat) (entries : list Entry) :
  ImportManager.validateImportData Date_parse index entries = [] <-> Forall valid entries.
Proof.
  revert index. induction entries as [|e l IH]; intros index;
    cbn [ImportManager.validateImportData].
  - split; [constructor|reflexivity].
  - destruct e as [i t d w n ds]. cbv zeta.
    rewrite !app_nil, !message_if, IH, Forall_cons.
    generalize (Forall valid l). intros rest.
    unfold DataManager.valid, DataManager.validateEntry, DataManager.dateOf,
      ImportManager.isEntryType.
    cbn [type date dose].
    destruct (JS.truthy t), (JS.truthy d),
             (existsb (JS.strict_eq t) [JS.Str "medication"; JS.Str "daily"]),
             (JS.strict_eq t (JS.Str "medication")),
             (JSDate.isNaN (JSDate.newDateOf Date_parse d)), (JS.truthy ds);
      cbn [negb orb andb]; intuition congruence.
Qed.

End ImportFacts.
(** ** The paginated chart *)

Section ChartFacts.
Variable Date_parse : string -> option Z.

Local Abbreviation navigateChart := (ChartRenderer.navigateChart Date_parse).
Local Abbreviation currentData := ChartRenderer.currentData.
Local Abbreviation chartViewDays := ChartRenderer.chartViewDays.
Local Abbreviation chartViewStart := ChartRenderer.chartViewStart.

Lemma append_nonempty_l (a b : string) : a <> "" -> a ++ b <> "".
Proof. destruct a; [congruence|discriminate]. Qed.

Lemma append_nonempty_r (a b : string) : b <> "" -> a ++ b <> "".
Proof. destruct a; [exact (fun H => H)|discriminate]. Qed.

Lemma decimalDigits_nonempty (z : Z) : JS.decimalDigits z <> "".
Proof.
  unfold JS.decimalDigits. destruct (N.to_uint (Z.to_N z)); cbn; discriminate.
Qed.

Lemma positiveToString_nonempty (m : positive) (e : Z) : JS.positiveToString m e <> "".
Proof.
  unfold JS.positiveToString. destruct (JS.exact_fraction m e) as [num den].
  destruct (JS.shortestDigits _ _ _ _ _ _) as [[s k] n].
  pose proof (decimalDigits_nonempty s) as D.
  destruct (_ && _); [apply append_nonempty_l, D|].
  destruct (_ && _); [apply append_nonempty_r; discriminate|].
  destruct (_ && _); [discriminate|].
  destruct (k =? 1); [apply append_nonempty_l, D|apply append_nonempty_r; discriminate].
Qed.

(** The text of a number is never empty, so that it is truthy. *)
Lemma Number_toString_truthy (x : JS.number) :
  JS.truthy (JS.Str (JS.Number_toString x)) = true.
Proof.
  cbn [JS.truthy]. apply negb_true_iff, String.eqb_neq.
  destruct x as [s| s| |s m e]; cbn [JS.Number_toString]; try discriminate.
  - destruct s; discriminate.
  - destruct s; [discriminate|apply positiveToString_nonempty].
Qed.

Lemma viewEntries_Some (viewData : list WeightEntry.t) :
  Forall (fun w => WeightEntry.date w <> None) viewData ->
  exists entries,
    ChartRenderer.viewEntries viewData = Some entries
    /\ length entries = length viewData
    /\ Forall (fun e => JS.truthy (weight e) = true) entries.
Proof.
  induction 1 as [|w l Hw _ (entries & E & L & T)]; cbn [ChartRenderer.viewEntries].
  - exists []. repeat split. constructor.
  - destruct (WeightEntry.date w) as [t|]; [|congruence].
    cbn [JSDate.toISOString option_map]. rewrite E. eexists. split; [reflexivity|].
    cbn [length]. split; [congruence|]. constructor; [|exact T].
    cbn [weight]. apply Number_toString_truthy.
Qed.

Lemma weightEntries_length (entries : list Entry) :
  Forall (fun e => JS.truthy (weight e) = true) entries ->
  length (ChartRenderer.weightEntries Date_parse entries) = length entries.
Proof.
  intros H. unfold ChartRenderer.weightEntries.
  rewrite (Permutation_length (Array_sort_perm _ _)), length_map.
  induction H as [|e l He _ IH]; cbn [List.filter]; [reflexivity|].
  destruct e as [i t d w n ds]. cbn [weight] in He. rewrite He. cbn [length].
  f_equal. exact IH.
Qed.

Lemma slice_length {A : Type} (start final : Z) (l : list A) :
  0 <= start <= final -> final <= Z.of_nat (length l) ->
  Z.of_nat (length (JS.slice start final l)) = final - start.
Proof.
  intros H1 H2. unfold JS.slice.
  replace (start <? 0) with false by (symmetry; apply Z.ltb_ge; lia).
  replace (final <? 0) with false by (symmetry; apply Z.ltb_ge; lia).
  rewrite length_take, length_drop. lia.
Qed.


(** Where the grid over the weights of the page does not end, neither
    does the call. *)
Lemma navigateChart_out_of_fuel (fuel : nat) (direction : Z) (st : ChartRenderer.t) :
  Forall (fun w => WeightEntry.date w <> None) (currentData st) ->
  0 < chartViewDays st ->
  chartViewDays st < Z.of_nat (length (currentData st)) ->
  ~ ChartRenderer.gridEnds fuel (ChartRenderer.redrawn Date_parse direction st) ->
  navigateChart fuel true direction st = None.
Proof.
  intros Hdates Hdays Hlen Hgrid. unfold ChartRenderer.navigateChart at 1.
  replace (Z.of_nat (length (currentData st)) <=? chartViewDays st) with false
    by (symmetry; apply Z.leb_gt; lia).
  cbv zeta.
  unfold ChartRenderer.gridEnds, ChartRenderer.redrawn, ChartRenderer.pageStart in Hgrid.
  cbv zeta in Hgrid.
  set (len := Z.of_nat (length (currentData st))) in *.
  set (days := chartViewDays st) in *.
  set (start := if Z.max 0 (len - days) <? _ then _ else _) in *.
  assert (Hstart : 0 <= start <= len - days).
  { unfold start. destruct (chartViewStart st + direction * days <? 0) eqn:E1;
      destruct (Z.max 0 (len - days) <? _) eqn:E2; lia. }
  unfold ChartRenderer.drawPaginatedChart.
  cbn [ChartRenderer.set_chartViewStart ChartRenderer.chartViewStart
       ChartRenderer.chartViewDays ChartRenderer.currentData].
  fold len days. replace (Z.min (start + days) len) with (start + days) in * by lia.
  pose proof (slice_length start (start + days) (currentData st)) as Hslice.
  fold len in Hslice. specialize (Hslice ltac:(lia) ltac:(lia)).
  destruct (viewEntries_Some (JS.slice start (start + days) (currentData st)))
    as (entries & E & L & T).
  { unfold JS.slice. apply Forall_take, Forall_drop, Hdates. }
  rewrite E in Hgrid |- *. cbn [default] in Hgrid.
  pose proof (weightEntries_length entries T) as Hw.
  unfold ChartRenderer.drawWeightChart. cbn [negb]. cbv zeta.
  replace (length (ChartRenderer.weightEntries Date_parse entries) =? 0)%nat with false
    by (symmetry; apply Nat.eqb_neq; lia).
  destruct (ChartRenderer.drawGrid fuel _ _ _) as [lines|]; [|reflexivity].
  exfalso. apply Hgrid. discriminate.
Qed.

(** At 2^52 the sum [weight + 0.5] is [weight] again: the loop of the grid
    never ends. *)
Lemma gridLines_stalls (fuel : nat) :
  ChartRenderer.gridLines fuel (JS.of_Z (2 ^ 52)) (JS.of_Z (2 ^ 52)) ChartRenderer.half
  = None.
Proof.
  induction fuel as [|fuel IH]; [reflexivity|].
  cbn [ChartRenderer.gridLines].
  change (JS.le (JS.of_Z (2 ^ 52)) (JS.of_Z (2 ^ 52))) with true. cbv iota.
  replace (JS.add (JS.of_Z (2 ^ 52)) ChartRenderer.half) with (JS.of_Z (2 ^ 52))
    by (vm_compute; reflexivity).
  rewrite IH. reflexivity.
Qed.

End ChartFacts.
(** ** The colour helpers *)

Section ColourFacts.

Lemma ToInt32_small (z : Z) : 0 <= z < 2 ^ 31 -> JS.ToInt32 z = z.
Proof.
  intros H. unfold JS.ToInt32. rewrite Z.mod_small by lia.
  destruct (z <? 2 ^ 31) eqn:E; [reflexivity|]. apply Z.ltb_ge in E. lia.
Qed.

Lemma shiftLeft_byte (x n : Z) :
  0 <= x <= 255 -> 0 <= n <= 16 -> JS.shiftLeft x n = x * 2 ^ n.
Proof.
  intros Hx Hn. unfold JS.shiftLeft.
  assert (P : 0 < 2 ^ n <= 2 ^ 16)
    by (split; [apply Z.pow_pos_nonneg; lia|apply Z.pow_le_mono_r; lia]).
  rewrite (ToInt32_small x) by lia. rewrite (Z.mod_small n 32) by lia.
  rewrite Z.shiftl_mul_pow2 by lia. apply ToInt32_small. nia.
Qed.

Lemma hexChars_byte (fuel : nat) (x byte : Z) (acc : list ascii) :
  1 <= x -> 0 <= byte <= 255 ->
  JS.hexChars (S (S fuel)) (x * 256 + byte) acc
  = JS.hexChars fuel x
      (JS.hexDigitChar (byte / 16) :: JS.hexDigitChar (byte mod 16) :: acc).
Proof.
  intros Hx Hb. cbn [JS.hexChars].
  replace (x * 256 + byte <? 16) with false by (symmetry; apply Z.ltb_ge; lia).
  assert (E1 : (x * 256 + byte) mod 16 = byte mod 16).
  { replace (x * 256 + byte) with (byte + (x * 16) * 16) by lia. apply Z.mod_add. lia. }
  assert (E2 : (x * 256 + byte) / 16 = x * 16 + byte / 16).
  { replace (x * 256 + byte) with (byte + (x * 16) * 16) by lia.
    rewrite Z.div_add by lia. lia. }
  assert (B : 0 <= byte / 16 < 16)
    by (split; [apply Z.div_pos; lia|apply Z.div_lt_upper_bound; lia]).
  rewrite E1, E2.
  replace (x * 16 + byte / 16 <? 16) with false by (symmetry; apply Z.ltb_ge; lia).
  assert (E3 : (x * 16 + byte / 16) mod 16 = byte / 16).
  { rewrite Z.add_comm, Z.mod_add by lia. apply Z.mod_small, B. }
  assert (E4 : (x * 16 + byte / 16) / 16 = x).
  { rewrite Z.add_comm, Z.div_add by lia. rewrite (Z.div_small (byte / 16)) by lia. lia. }
  rewrite E3, E4. reflexivity.
Qed.

Lemma sixteen_cases (d : Z) :
  0 <= d < 16 ->
  d = 0 \/ d = 1 \/ d = 2 \/ d = 3 \/ d = 4 \/ d = 5 \/ d = 6 \/ d = 7 \/ d = 8
  \/ d = 9 \/ d = 10 \/ d = 11 \/ d = 12 \/ d = 13 \/ d = 14 \/ d = 15.
Proof. lia. Qed.

Lemma hexDigitChar_isHexChar (d : Z) :
  0 <= d < 16 -> Utils.isHexChar (JS.hexDigitChar d) = true.
Proof.
  intros H. apply sixteen_cases in H.
  repeat (destruct H as [->|H]; [reflexivity|]). subst. reflexivity.
Qed.

Lemma parseInt16_pair (d1 d2 : Z) :
  0 <= d1 < 16 -> 0 <= d2 < 16 ->
  JS.parseInt16 (JS.str [JS.hexDigitChar d1; JS.hexDigitChar d2]) = Some (16 * d1 + d2).
Proof.
  intros H1 H2. apply sixteen_cases in H1. apply sixteen_cases in H2.
  repeat (destruct H1 as [->|H1]);
    repeat (destruct H2 as [->|H2]); subst; reflexivity.
Qed.

Lemma chars_str (l : list ascii) : JS.chars (JS.str l) = l.
Proof. apply list_ascii_of_string_of_list_ascii. Qed.

Lemma chars_hash (s : string) : JS.chars ("#" ++ s) = "#"%char :: JS.chars s.
Proof. reflexivity. Qed.

Lemma byte_digits (byte : Z) :
  0 <= byte <= 255 ->
  0 <= byte / 16 < 16 /\ 0 <= byte mod 16 < 16 /\ 16 * (byte / 16) + byte mod 16 = byte.
Proof.
  intros H. split; [split; [apply Z.div_pos; lia|apply Z.div_lt_upper_bound; lia]|].
  split; [apply Z.mod_pos_bound; lia|]. symmetry. apply Z.div_mod. lia.
Qed.

(** X21.  For three integers from 0 to 255, [hexToRgb] reads back from the
    text of [rgbToHex] the three integers. *)
Theorem hexToRgb_rgbToHex (r g b : Z) :
  0 <= r <= 255 -> 0 <= g <= 255 -> 0 <= b <= 255 ->
  Utils.hexToRgb (Utils.rgbToHex r g b)
  = Some {| Utils.r := Some r; Utils.g := Some g; Utils.b := Some b |}.
Proof.
  intros Hr Hg Hb. unfold Utils.rgbToHex.
  change (JS.shiftLeft 1 24) with 16777216.
  rewrite (shiftLeft_byte r 16), (shiftLeft_byte g 8) by lia.
  set (n := 16777216 + r * 2 ^ 16 + g * 2 ^ 8 + b).
  assert (Hn : n = ((1 * 256 + r) * 256 + g) * 256 + b) by (unfold n; lia).
  assert (Hlog : Z.log2 n = 24) by (apply Z.log2_unique; lia).
  unfold JS.toString16.
  replace (n <? 0) with false by (symmetry; apply Z.ltb_ge; lia).
  rewrite Hlog. change (S (Z.to_nat 24)) with (S (S (S (S (S (S 19)))))).
  rewrite Hn, !hexChars_byte by lia.
  change (JS.hexChars 19 1) with (cons "1"%char).
  unfold JS.dropStr. rewrite chars_str.
  change (Z.to_nat 1) with 1%nat. cbn [skipn].
  destruct (byte_digits r Hr) as (R1 & R2 & R3).
  destruct (byte_digits g Hg) as (G1 & G2 & G3).
  destruct (byte_digits b Hb) as (B1 & B2 & B3).
  unfold Utils.hexToRgb.
  rewrite chars_hash, chars_str.
  cbn [forallb]. rewrite !hexDigitChar_isHexChar by assumption. cbn [andb].
  rewrite !parseInt16_pair by assumption. rewrite R3, G3, B3. reflexivity.
Qed.

End ColourFacts.
(** ** The daily form *)

Section FormFacts.
Variable Date_parse : string -> option Z.

Local Abbreviation handleDailySubmission :=
  (MounjaroTracker.handleDailySubmission Date_parse).

(** X22.  What [handleDailySubmission] does.  With a date the validation
    rejects nothing is stored.  Otherwise the daily entry is stored
    first; when a medication is to be logged and no dose is selected, the
    error message is shown although the daily entry has been stored
    already; with a dose, the medication entry is stored in front of the
    daily entry, with the same date and weight. *)
Theorem handleDailySubmission_outcome (now now' : Z) (fresh : JS.number)
    (form : MounjaroTracker.DailyForm) (s : DataManager.t) :
  let weighed := MounjaroTracker.orNull (MounjaroTracker.dailyWeight form) in
  let dated := MounjaroTracker.dailyDate form in
  let daily :=
    Build_Entry (JS.Num (JS.of_Z now)) (JS.Str "daily") (JS.Str dated) weighed
                (MounjaroTracker.orNull (MounjaroTracker.dailyNotes form)) JS.Undefined in
  let medication :=
    Build_Entry (JS.Num (JS.add (JS.of_Z now') (JS.of_Z 1))) (JS.Str "medication")
                (JS.Str dated) weighed
                (MounjaroTracker.orNull (MounjaroTracker.medicationNotes form))
                (JS.Str (MounjaroTracker.dose form)) in
  let stored e := set_id (JS.or_else (id e) (JS.Num fresh)) e in
  match handleDailySubmission now now' fresh form s with
  | (MounjaroTracker.Error text, s') =>
      DataManager.validateEntry Date_parse daily = false
        /\ text = "Error saving entry: Invalid entry data" /\ s' = s
      \/ DataManager.validateEntry Date_parse daily = true
        /\ MounjaroTracker.includeMedication form = true
        /\ MounjaroTracker.dose form = ""
        /\ text = "Please select a dose when logging medication"
        /\ DataManager.entries s' = stored daily :: DataManager.entries s
        /\ DataManager.localStorage s'
           = Some (List.map JSON_entry (DataManager.entries s'))
  | (MounjaroTracker.Success _, s') =>
      DataManager.validateEntry Date_parse daily = true
      /\ DataManager.localStorage s' = Some (List.map JSON_entry (DataManager.entries s'))
      /\ (MounjaroTracker.includeMedication form = false
            /\ DataManager.entries s' = stored daily :: DataManager.entries s
          \/ MounjaroTracker.includeMedication form = true
            /\ MounjaroTracker.dose form <> ""
            /\ DataManager.entries s'
               = stored medication :: stored daily :: DataManager.entries s)
  end.
Proof.
  intros weighed dated daily medication stored.
  unfold MounjaroTracker.handleDailySubmission. fold weighed dated daily.
  unfold DataManager.addEntry at 1.
  destruct (DataManager.validateEntry Date_parse daily) eqn:V; cbn [negb];
    [|left; auto].
  fold (stored daily).
  destruct (MounjaroTracker.includeMedication form).
  - destruct (JS.truthy (JS.Str (MounjaroTracker.dose form))) eqn:D; cbn [negb].
    + fold medication. unfold DataManager.addEntry.
      assert (Vm : DataManager.validateEntry Date_parse medication = true).
      { unfold DataManager.validateEntry, DataManager.dateOf in V |- *.
        unfold daily in V. unfold medication.
        cbn [type date dose JSDate.newDateOf] in V |- *.
        change (JS.truthy (JS.Str "daily")) with true in V.
        change (JS.truthy (JS.Str "medication")) with true.
        change (existsb (JS.strict_eq (JS.Str "medication"))
                        [JS.Str "medication"; JS.Str "daily"]) with true.
        change (JS.strict_eq (JS.Str "medication") (JS.Str "medication")) with true.
        rewrite D. cbn [negb orb andb] in V |- *.
        destruct (JS.truthy (JS.Str dated)); cbn [negb] in V |- *; [|discriminate].
        destruct (JSDate.isNaN (Date_parse dated)); [discriminate|reflexivity]. }
      rewrite Vm. cbn [negb]. fold (stored medication).
      split; [reflexivity|]. split; [reflexivity|]. right.
      split; [reflexivity|]. split; [|reflexivity].
      cbn [JS.truthy] in D. apply negb_true_iff, String.eqb_neq in D. exact D.
    + right. cbn [JS.truthy] in D. apply negb_false_iff, String.eqb_eq in D.
      repeat split; auto.
  - split; [reflexivity|]. split; [reflexivity|]. left. split; reflexivity.
Qed.

End FormFacts.
(** ** The theorems in the scenario *)

Section MoreExamples.
Import Scenario.

(** A closed term is replaced by its value, the predicate over it is left
    as it is. *)
Ltac evaluate t := let v := eval vm_compute in t in change t with v.

Lemma store3_validDate : Forall (DataManager.validDate Date_parse) (DataManager.entries store3).
Proof.
  apply (reachable_wellFormed Date_parse store3). unfold store3.
  apply DataManager.reach_importEntries. unfold store1.
  apply DataManager.reach_addEntry, DataManager.reach_new.
Defined.

Lemma getLatestEntry_most_recent_witness :
  exists e,
    DataManager.getLatestEntry (JS.Str "daily") store3 = Some e
    /\ type e = JS.Str "daily" /\ In e (DataManager.entries store3)
    /\ forall x, In x (DataManager.entries store3) -> type x = JS.Str "daily" ->
                 DataManager.newerOrEqual Date_parse e x.
Proof.
  eexists. split; [vm_compute; reflexivity|].
  apply (getLatestEntry_most_recent Date_parse "daily" store3).
  - exact store3_newestFirst.
  - exact store3_validDate.
  - vm_compute. reflexivity.
Defined.

Lemma daysSinceLastDose_after_addEntry_witness :
  DataManager.daysSinceLastDose
    (DataManager.getStatistics Date_parse 1741172400000
       (snd (DataManager.addEntry Date_parse fresh march3 store1)))
  = JS.Num (DataManager.daysSince 1741172400000 (DataManager.time Date_parse march3)).
Proof.
  apply (daysSinceLastDose_after_addEntry Date_parse 1741172400000 fresh march3 store1);
    reflexivity.
Defined.

Lemma getWeightEntries_chronological_witness :
  DataManager.chronological (DataManager.getWeightEntries Date_parse store3)
  /\ Permutation (DataManager.getWeightEntries Date_parse store3)
       (List.map (DataManager.weightEntryOf Date_parse)
                 (List.filter (fun e => JS.truthy (weight e)) (DataManager.entries store3))).
Proof.
  apply (getWeightEntries_chronological Date_parse store3). exact store3_validDate.
Defined.

Lemma attainable_dates_valid_witness :
  let s := snd (DataManager.updateEntry Date_parse (id march2)
                  {| DataManager.new_id := None; DataManager.new_type := None;
                     DataManager.new_date := Some (JS.Str "2025-03-02T09:30");
                     DataManager.new_weight := None; DataManager.new_notes := None;
                     DataManager.new_dose := None |}
                  store1) in
  Forall (DataManager.validDate Date_parse) (DataManager.entries s)
  /\ Forall (DataManager.validDate Date_parse) (default [] (DataManager.localStorage s)).
Proof.
  apply (attainable_dates_valid Date_parse).
  apply DataManager.attain_updateEntry. unfold store1.
  apply DataManager.attain_addEntry, DataManager.attain_new.
Defined.

Lemma parseTextData_without_header_witness :
  ImportManager.parseTextData brasilia freshAt notesOnly "2025" = ImportManager.Parsed [].
Proof.
  apply (parseTextData_without_header brasilia freshAt "2025" notesOnly).
  - evaluate (JS.trim notesOnly). discriminate.
  - evaluate (JS.split "010" (JS.trim notesOnly)).
    repeat (constructor; [vm_compute; reflexivity|]). constructor.
Defined.

Lemma parseTextData_rejected_header_fails_witness :
  exists error,
    ImportManager.parseTextData brasilia freshAt strayHeader "2025"
    = ImportManager.ErrorParsing error.
Proof.
  apply (parseTextData_rejected_header_fails brasilia freshAt "2025" strayHeader
           [] ["- felt fine"] ["02/03 - 82,1 kg"] "01/03 - 82,5 kg" "32/01 - 70 kg");
    vm_compute; reflexivity.
Defined.

Lemma sample_parsed :
  ImportManager.parseTextData brasilia freshAt ImportManager.sampleText "2025"
  = ImportManager.Parsed sampleEntries.
Proof. vm_compute. reflexivity. Qed.

Lemma parseTextData_entries_shape_witness :
  Forall (fun e =>
            ImportManager.date e <> ""
            /\ (ImportManager.type e = "daily" /\ ImportManager.dose e = JS.Null
                \/ ImportManager.type e = "medication"
                   /\ exists d, ImportManager.dose e = JS.Str (d ++ "mg"))
            /\ (ImportManager.notes e = ImportManager.NotesNull
                \/ exists text,
                     ImportManager.notes e = ImportManager.NotesString text /\ text <> ""))
         sampleEntries.
Proof.
  apply (parseTextData_entries_shape brasilia freshAt "2025" ImportManager.sampleText).
  exact sample_parsed.
Defined.

Lemma text_import_accepts_all_witness :
  exists entries s',
    ImportManager.toEntries sampleEntries = Some entries
    /\ ImportManager.confirmImport Date_parse freshAt typeError splitError entries store1
       = (ImportManager.SuccessfullyImported
            ("Successfully imported "
               ++ JS.decimalDigits (Z.of_nat (length sampleEntries)) ++ " entries!"),
          [], s').
Proof.
  apply (text_import_accepts_all Date_parse brasilia freshAt freshAt
           ImportManager.sampleText "2025" typeError splitError sampleEntries store1).
  - exact sample_parsed.
  - evaluate sampleEntries. discriminate.
  - evaluate sampleEntries. repeat (constructor; [vm_compute; discriminate|]). constructor.
  - exact store1_stringDate.
Defined.

Lemma backup_reads_back_witness :
  exists message validatedEntries,
    ImportManager.processJsonImport Date_parse freshAt typeError
      (ImportManager.backupData (DataManager.createBackup "2025-03-05T11:00:00.000Z" store3))
    = ImportManager.Preview message false validatedEntries
    /\ Forall2 (fun c e => ImportManager.cleaned c (ImportManager.toRaw (JSON_entry e)))
               validatedEntries (DataManager.entries store3).
Proof.
  apply (backup_reads_back Date_parse freshAt typeError "2025-03-05T11:00:00.000Z" store3).
  - evaluate (DataManager.entries store3). discriminate.
  - evaluate (DataManager.entries store3).
    repeat (constructor; [split; vm_compute; reflexivity|]). constructor.
Defined.


(** With weights of 2^52 the same call never returns: whatever the fuel,
    the loop of the grid has not ended. *)
Example navigateChart_never_returns (fuel : nat) :
  ChartRenderer.navigateChart Date_parse fuel true 1 heavyChart = None.
Proof.
  apply (navigateChart_out_of_fuel Date_parse fuel 1 heavyChart).
  - evaluate (ChartRenderer.currentData heavyChart).
    repeat (constructor; [discriminate|]). constructor.
  - reflexivity.
  - reflexivity.
  - unfold ChartRenderer.gridEnds, ChartRenderer.drawGrid.
    evaluate (ChartRenderer.redrawn Date_parse 1 heavyChart).
    cbv zeta.
    set (weights := List.map WeightEntry.weight _).
    replace (ChartRenderer.minWeight weights) with (JS.of_Z (2 ^ 52))
      by (vm_compute; reflexivity).
    replace (ChartRenderer.maxWeight weights) with (JS.of_Z (2 ^ 52))
      by (vm_compute; reflexivity).
    replace (ChartRenderer.stepSize (ChartRenderer.weightRange weights))
      with ChartRenderer.half by (vm_compute; reflexivity).
    rewrite gridLines_stalls. intros H. apply H. reflexivity.
Qed.

Lemma hexToRgb_rgbToHex_witness :
  Utils.hexToRgb (Utils.rgbToHex 255 0 128)
  = Some {| Utils.r := Some 255; Utils.g := Some 0; Utils.b := Some 128 |}.
Proof. apply (hexToRgb_rgbToHex 255 0 128); lia. Defined.

Lemma addEntry_then_deleteEntry_witness :
  DataManager.deleteEntry (id march1)
    (snd (DataManager.addEntry Date_parse fresh march1 store1))
  = (true, DataManager.saveData store1).
Proof.
  apply (addEntry_then_deleteEntry Date_parse fresh march1 store1).
  - vm_compute. reflexivity.
  - reflexivity.
  - evaluate (DataManager.entries store1).
    repeat (constructor; [vm_compute; reflexivity|]). constructor.
Defined.

Lemma parseTextData_one_entry_per_header_witness :
  length sampleEntries
  = length (List.filter ImportManager.acceptedHeader
                        (JS.split "010" (JS.trim ImportManager.sampleText))).
Proof.
  apply (parseTextData_one_entry_per_header brasilia freshAt "2025" ImportManager.sampleText).
  exact sample_parsed.
Defined.

End MoreExamples.
